(** * The geocode-and-merge pipeline of [main.py]

    A shallow embedding of the script: decoded JSON bodies and the Python
    operations the script applies to them (with the exceptions they raise),
    the response normaliser, the geocode client, the table of records with
    its named-tuple rows, the reconciliation loop and the final merge.

    The libraries the script calls are taken as they are documented:
    [pyproj]'s transformer, Python's formatting of a number and the Unicode
    part of [str.isidentifier] are section variables; the HTTP service is
    an argument of the client. A string is the sequence of its UTF-8 bytes;
    the patterns the script searches for are ASCII. *)

From Stdlib Require Import Floats ZArith.
From stdpp Require Import base strings list pretty.

Open Scope string_scope.
Open Scope list_scope.
Open Scope nat_scope.

Set Warnings "-register-all".
Set Default Proof Using "Type".

(** ** Python values *)

(** What [response.json()] can return. A dict keeps its insertion order;
    keys are strings. *)
Inductive value : Type :=
| VNone
| VBool (b : bool)
| VInt (z : Z)
| VFloat (f : float)
| VStr (s : string)
| VList (l : list value)
| VDict (d : list (string * value)).

(** The exception classes the script can meet. [Exception kind] stands for
    what a library raises (a connection error, a timeout, a decode
    failure, an error of the transformer). *)
Inductive exn : Type :=
| TypeError
| AttributeError
| KeyError (k : string)
| IndexError
| Exception (kind : string).

Inductive result (A : Type) : Type :=
| Ok (a : A)
| Raise (e : exn).
Arguments Ok {A} a.
Arguments Raise {A} e.

#[global] Instance result_ret : MRet result := @Ok.
#[global] Instance result_bind : MBind result := λ A B k m,
  match m with
  | Ok a => k a
  | Raise e => Raise e
  end.

(** The error lines: what the script prints when it catches an exception.
    The progress lines of lines 80 and 94 are not modelled. *)
Inductive line : Type :=
| Error_fetching_geocode_for (endereco : string) (e : exn)
| Error_processing (endereco : string) (e : exn).

(** ** Strings *)

Fixpoint starts_with (p s : string) : bool :=
  match p, s with
  | EmptyString, _ => true
  | String a p', String b s' => if decide (a = b) then starts_with p' s' else false
  | String _ _, EmptyString => false
  end.

(** [old in s] on strings. *)
Fixpoint is_substring (old s : string) : bool :=
  starts_with old s ||
  match s with
  | EmptyString => false
  | String _ s' => is_substring old s'
  end.

(** [s.replace(old, new)]: every occurrence of [old], left to right, without
    overlap. [skip] counts the characters of an occurrence still to drop. *)
Fixpoint replace_from (old new : string) (skip : nat) (s : string) : string :=
  match s with
  | EmptyString =>
      match old with EmptyString => new | _ => EmptyString end
  | String c s' =>
      match skip with
      | S k => replace_from old new k s'
      | O =>
          if starts_with old s then
            match old with
            | EmptyString => new +:+ String c (replace_from old new 0 s')
            | String _ old' =>
                new +:+ replace_from old new (String.length old') s'
            end
          else String c (replace_from old new 0 s')
      end
  end.

Definition replace (s old new : string) : string := replace_from old new 0 s.

(** [s.lower()] on the ASCII letters; every other byte is kept. The script
    only compares the result with an ASCII word. *)
Definition lower_ascii (c : Ascii.ascii) : Ascii.ascii :=
  let n := Ascii.nat_of_ascii c in
  if (65 <=? n)%nat && (n <=? 90)%nat then Ascii.ascii_of_nat (n + 32) else c.

Fixpoint lower (s : string) : string :=
  match s with
  | EmptyString => EmptyString
  | String c s' => String (lower_ascii c) (lower s')
  end.

(** The ASCII part of [str.isidentifier], and [keyword.iskeyword]:
    [collections.namedtuple] asks both when it renames fields. *)
Definition is_ascii (c : Ascii.ascii) : bool := (Ascii.nat_of_ascii c <? 128)%nat.

Definition identifier_start (c : Ascii.ascii) : bool :=
  let n := Ascii.nat_of_ascii c in
  ((65 <=? n) && (n <=? 90) || (97 <=? n) && (n <=? 122) || (n =? 95))%nat.

Definition identifier_continue (c : Ascii.ascii) : bool :=
  let n := Ascii.nat_of_ascii c in
  identifier_start c || ((48 <=? n) && (n <=? 57))%nat.

Definition kwlist : list string :=
  ["False"; "None"; "True"; "and"; "as"; "assert"; "async"; "await"; "break";
   "class"; "continue"; "def"; "del"; "elif"; "else"; "except"; "finally";
   "for"; "from"; "global"; "if"; "import"; "in"; "is"; "lambda"; "nonlocal";
   "not"; "or"; "pass"; "raise"; "return"; "try"; "while"; "with"; "yield"].

Definition iskeyword (s : string) : bool := bool_decide (s ∈ kwlist).

(** ** Python operations on values *)

(** [bool(v)], the test of [if v] and [not v]. *)
Definition truthy (v : value) : bool :=
  match v with
  | VNone => false
  | VBool b => b
  | VInt z => negb (z =? 0)%Z
  | VFloat f => negb (PrimFloat.eqb f 0)
  | VStr s => negb (String.eqb s "")
  | VList l => match l with [] => false | _ => true end
  | VDict d => match d with [] => false | _ => true end
  end.

Fixpoint dict_lookup {K A} `{EqDecision K} (k : K) (d : list (K * A)) : option A :=
  match d with
  | [] => None
  | (k', v) :: d' => if decide (k = k') then Some v else dict_lookup k d'
  end.

(** [d[k] = v]: the value of an existing key is replaced where it stands, a
    new key goes to the end. *)
Fixpoint dict_set {K A} `{EqDecision K} (k : K) (v : A) (d : list (K * A))
  : list (K * A) :=
  match d with
  | [] => [(k, v)]
  | (k', v') :: d' =>
      if decide (k = k') then (k, v) :: d' else (k', v') :: dict_set k v d'
  end.

Definition is_str (k : string) (v : value) : bool :=
  match v with
  | VStr s => String.eqb s k
  | _ => false
  end.

(** [k in v] for a string [k]. *)
Definition py_in (k : string) (v : value) : result bool :=
  match v with
  | VDict d => Ok (bool_decide (is_Some (dict_lookup k d)))
  | VList l => Ok (existsb (is_str k) l)
  | VStr s => Ok (is_substring k s)
  | VNone | VBool _ | VInt _ | VFloat _ => Raise TypeError
  end.

(** [v[k]] for a string [k]. *)
Definition py_getitem (v : value) (k : string) : result value :=
  match v with
  | VDict d =>
      match dict_lookup k d with
      | Some x => Ok x
      | None => Raise (KeyError k)
      end
  | _ => Raise TypeError
  end.

Fixpoint string_chars (s : string) : list value :=
  match s with
  | EmptyString => []
  | String c s' => VStr (String c EmptyString) :: string_chars s'
  end.

(** [v[i]] for the literals [0] and [1]. A decoded dict has no integer key. *)
Definition py_index (v : value) (i : nat) : result value :=
  match v with
  | VList l =>
      match l !! i with
      | Some x => Ok x
      | None => Raise IndexError
      end
  | VStr s =>
      match string_chars s !! i with
      | Some x => Ok x
      | None => Raise IndexError
      end
  | VDict _ => Raise (KeyError (pretty i))
  | VNone | VBool _ | VInt _ | VFloat _ => Raise TypeError
  end.

(** [v.get(k, default)]; only a dict has the method. *)
Definition py_get (v : value) (k : string) (default : value) : result value :=
  match v with
  | VDict d =>
      match dict_lookup k d with
      | Some x => Ok x
      | None => Ok default
      end
  | _ => Raise AttributeError
  end.

(** The items a [for] loop over [v] visits. *)
Definition py_iter (v : value) : result (list value) :=
  match v with
  | VList l => Ok l
  | VDict d => Ok (map (λ kv, VStr kv.1) d)
  | VStr s => Ok (string_chars s)
  | VNone | VBool _ | VInt _ | VFloat _ => Raise TypeError
  end.

(** ** The table of records *)

(** A cell of the table read by [pd.read_csv]; a missing value is the float
    NaN. *)
Inductive cell : Type :=
| CInt (z : Z)
| CFloat (f : float)
| CBool (b : bool)
| CStr (s : string).

Definition nan_cell : cell := CFloat nan.

(** [pd.isna] on a cell. *)
Definition pd_isna (c : cell) : bool :=
  match c with
  | CFloat f => PrimFloat.is_nan f
  | _ => false
  end.

(** A [DataFrame]: column labels, row labels, and the cells row by row. A
    cell holds what was written into it; the dtype of a column is read off
    its cells when two frames are put together ([infer_dtype] below). *)
Record frame : Type := Frame {
  columns : list string;
  index : list nat;
  values : list (list cell)
}.

(** The dtypes the columns of such a table can have. *)
Inductive dtype : Type := int64 | float64 | bool_ | object.

Definition is_int (x : cell) : bool :=
  match x with CInt _ => true | _ => false end.

Definition is_bool (x : cell) : bool :=
  match x with CBool _ => true | _ => false end.

Definition is_string (x : cell) : bool :=
  match x with CStr _ => true | _ => false end.

(** The dtype of a column that holds [cells]: the one [pd.read_csv] gave the
    column it parsed them from, and the one [pd.DataFrame] infers for a
    column of a list of dicts. Integers alone are [int64]; integers with
    floats (NaN is one) are [float64]; booleans alone are [bool]; a string,
    or a boolean next to anything else, makes the column [object]. *)
Definition infer_dtype (cells : list cell) : dtype :=
  if existsb is_string cells then object
  else if existsb is_bool cells then
    if forallb is_bool cells then bool_ else object
  else if forallb is_int cells then
    match cells with [] => object | _ => int64 end
  else float64.

(** The dtype of a column of [pd.concat]: [a] and [b] are the dtypes of the
    column in the two frames, nothing where a frame lacks the column and
    NaN fills its rows. Booleans and numbers do not mix. *)
Definition common_dtype (a b : option dtype) : dtype :=
  match a, b with
  | Some int64, Some int64 => int64
  | Some bool_, Some bool_ => bool_
  | Some int64, Some float64 | Some float64, Some int64
  | Some float64, Some float64 => float64
  | Some int64, None | None, Some int64
  | Some float64, None | None, Some float64 => float64
  | _, _ => object
  end.

(** An [int64] as a [float64], rounded to the nearest float. *)
Definition float_of_Z (z : Z) : float :=
  SF2Prim (binary_normalize prec emax z 0 false).

(** A cell taken into a column of dtype [t]: an integer becomes a float in a
    [float64] column; an [object] column holds the values as they are. *)
Definition astype (t : dtype) (x : cell) : cell :=
  match t, x with
  | float64, CInt z => CFloat (float_of_Z z)
  | _, _ => x
  end.

(** [y] is [x], or [x] is an integer and [y] the same number as a float. *)
Definition widened (x y : cell) : Prop :=
  y = x ∨ ∃ z, x = CInt z ∧ y = CFloat (float_of_Z z).

(** A named tuple of [df.itertuples()], and the dict [row._asdict()] makes of
    it: field names with their values, in order. *)
Definition row : Type := list (string * cell).

(** [row._asdict()] *)
Definition asdict (r : row) : row := r.

Fixpoint position (c : string) (cols : list string) : option nat :=
  match cols with
  | [] => None
  | c' :: cols' => if decide (c = c') then Some 0 else S <$> position c cols'
  end.

(** The cell of a row of cells under column [c]. *)
Definition cell_at (cols : list string) (c : string) (r : list cell) : option cell :=
  j ← position c cols; r !! j.

(** [df.at[label, col] = v] as pandas documents it: a column or a row label
    that is missing is added first, filled with NaN; then the cell of every
    row carrying the label is set. *)
Definition add_column (col : string) (df : frame) : frame :=
  if bool_decide (col ∈ columns df) then df
  else Frame (columns df ++ [col]) (index df) (map (λ r, r ++ [nan_cell]) (values df)).

Definition add_label (label : nat) (df : frame) : frame :=
  if bool_decide (label ∈ index df) then df
  else Frame (columns df) (index df ++ [label])
             (values df ++ [replicate (length (columns df)) nan_cell]).

Definition set_cell (cols : list string) (col : string) (v : cell) (r : list cell)
  : list cell :=
  match position col cols with
  | Some j => <[j := v]> r
  | None => r
  end.

Definition df_at_set (df : frame) (label : nat) (col : string) (v : cell) : frame :=
  let df := add_label label (add_column col df) in
  Frame (columns df) (index df)
        (zip_with (λ l r, if decide (l = label) then set_cell (columns df) col v r else r)
                  (index df) (values df)).

(** [pd.DataFrame(dicts)]: the columns are the keys in the order they first
    appear; a key a dict lacks gives NaN; each column gets the dtype
    inferred from its values. *)
Fixpoint union_keys (seen : list string) (dicts : list row) : list string :=
  match dicts with
  | [] => seen
  | d :: rest =>
      union_keys (seen ++ filter (λ k, k ∉ seen) (remove_dups (map fst d))) rest
  end.

Definition value_of (c : string) (d : row) : cell :=
  default nan_cell (dict_lookup c d).

Definition pd_DataFrame (dicts : list row) : frame :=
  let cols := union_keys [] dicts in
  Frame cols (seq 0 (length dicts))
        (map (λ d, map (λ c, astype (infer_dtype (map (value_of c) dicts))
                                    (value_of c d)) cols) dicts).

(** The cells of column [c], when the frame has it. *)
Definition column (df : frame) (c : string) : option (list cell) :=
  j ← position c (columns df);
  Some (map (λ r, default nan_cell (r !! j)) (values df)).

(** [pd.concat([a, b], ignore_index=True)]: the columns of [a], then those
    only [b] has; rows of [a], then rows of [b], relabelled from 0; NaN where
    a frame lacks a column; every cell taken into the common dtype of its
    column. *)
Definition concat_dtype (a b : frame) (c : string) : dtype :=
  common_dtype (infer_dtype <$> column a c) (infer_dtype <$> column b c).

Definition reindex (t : string → dtype) (old new : list string) (r : list cell)
  : list cell :=
  map (λ c, astype (t c) (default nan_cell (cell_at old c r))) new.

Definition pd_concat (a b : frame) : frame :=
  let cols := columns a ++ filter (λ c, c ∉ columns a) (columns b) in
  Frame cols (seq 0 (length (values a) + length (values b)))
        (map (reindex (concat_dtype a b) (columns a) cols) (values a) ++
         map (reindex (concat_dtype a b) (columns b) cols) (values b)).

(** The cell of the record at position [i] under column [c]. *)
Definition cell_of (df : frame) (i : nat) (c : string) : option cell :=
  r ← values df !! i; cell_at (columns df) c r.

(** A table as [pd.read_csv] returns it at line 81: distinct column labels,
    rows labelled 0, 1, 2, ... and one cell per column in every row. *)
Definition read_csv_frame (df : frame) : Prop :=
  NoDup (columns df) ∧
  index df = seq 0 (length (values df)) ∧
  Forall (λ r, length r = length (columns df)) (values df).

Section Geocoding.

(** [transformer.transform(lon, lat)] of the one transformer built at line 10,
    from EPSG:4326 to EPSG:31982 with [always_xy]. *)
Variable transform : value → value → result (value * value).

(** What an f-string writes for a value. *)
Variable py_format : value → string.

(** [str.isidentifier] on a string that is not pure ASCII, where Python
    follows the Unicode tables. *)
Variable isidentifier_unicode : string → bool.

Definition isidentifier (s : string) : bool :=
  if forallb is_ascii (String.list_ascii_of_string s) then
    match s with
    | EmptyString => false
    | String c s' =>
        identifier_start c && forallb identifier_continue (String.list_ascii_of_string s')
    end
  else isidentifier_unicode s.

Definition convert_lat_lon_to_UTM (lat lon : value) : result string :=
  '(utm_x, utm_y) ← transform lon lat;
  mret ("POINT(" +:+ py_format utm_x +:+ " " +:+ py_format utm_y +:+ ")").

Definition duplicate_row_with_new_UTM (r : row) (coordinates : value) : result row :=
  let new_row := asdict r in
  c1 ← py_index coordinates 1;
  c0 ← py_index coordinates 0;
  utm ← convert_lat_lon_to_UTM c1 c0;
  mret (dict_set "the_geom" (CStr utm) new_row).

(** The loop of [normalize_google_response] over [data['results']];
    [features] is [normalized_data['features']] so far. *)
Fixpoint normalize_results (results features : list value) : result (list value) :=
  match results with
  | [] => mret features
  | result :: rest =>
      has_geometry ← py_in "geometry" result;
      has_location ←
        (if has_geometry : bool then
           geometry ← py_getitem result "geometry"; py_in "location" geometry
         else mret false);
      if has_location : bool then
        geometry ← py_getitem result "geometry";
        location ← py_getitem geometry "location";
        lng ← py_getitem location "lng";
        lat ← py_getitem location "lat";
        let feature :=
          VDict [("geometry", VDict [("coordinates", VList [lng; lat])])] in
        normalize_results rest (features ++ [feature])
      else normalize_results rest features
  end.

Definition normalize_google_response (data : value) : result value :=
  if negb (truthy data) then mret VNone else
  has_results ← py_in "results" data;
  if negb has_results then mret VNone else
  results ← py_getitem data "results";
  if negb (truthy results) then mret VNone else
  items ← py_iter results;
  features ← normalize_results items [];
  mret (VDict [("features", VList features)]).

(** What [requests.get] returns: the status code and what [response.json()]
    gives, a decoded body or a decode failure. *)
Record response : Type := Response {
  status_code : Z;
  json : result value
}.

Definition geocode_url (endereco api_type : string) : string :=
  if String.eqb (lower api_type) "google"
  then "http://localhost:8080/external/geocode?address=" +:+ endereco
  else "http://localhost:8080/external/geocode-geoapify?address=" +:+ endereco.

(** [fetch_geocode]; [requests_get] is the service, which can raise. The
    result is the value returned and the lines printed. *)
Definition fetch_geocode (requests_get : string → result response)
    (endereco api_type : string) : value * list line :=
  let try_block : result value :=
    let url := geocode_url endereco api_type in
    response ← requests_get url;
    if (status_code response =? 200)%Z then
      data ← json response;
      if String.eqb (lower api_type) "google"
      then normalize_google_response data
      else mret data
    else mret VNone in
  match try_block with
  | Ok v => (v, [])
  | Raise e => (VNone, [Error_fetching_geocode_for endereco e])
  end.

(** ** Rows of the table as named tuples *)

(** [namedtuple(..., rename=True)]: a field name that is no identifier, is a
    keyword, starts with an underscore or was seen before becomes [_idx]. *)
Definition rename_field (seen : list string) (idx : nat) (name : string) : string :=
  if negb (isidentifier name) || iskeyword name || starts_with "_" name
     || bool_decide (name ∈ seen)
  then "_" +:+ pretty idx else name.

Fixpoint rename_fields (idx : nat) (seen names : list string) : list string :=
  match names with
  | [] => []
  | name :: rest =>
      rename_field seen idx name :: rename_fields (S idx) (name :: seen) rest
  end.

Definition fields_of (cols : list string) : list string :=
  rename_fields 0 [] ("Index" :: cols).

(** A column label that [namedtuple] keeps as a field name, and that is not
    the name of the label field. *)
Definition plain_name (c : string) : bool :=
  isidentifier c && negb (iskeyword c) && negb (starts_with "_" c)
  && negb (String.eqb c "Index").

(** [df.itertuples()]: one named tuple per row, the row label first. *)
Definition itertuples (df : frame) : list row :=
  zip_with (λ label cells, zip (fields_of (columns df)) (CInt (Z.of_nat label) :: cells))
           (index df) (values df).

(** [row.name] *)
Definition getattr (r : row) (name : string) : result cell :=
  match dict_lookup name r with
  | Some c => Ok c
  | None => Raise AttributeError
  end.

(** [c.replace(...)], a method only a string has; the string cell is
    returned for the caller to apply [replace] to. *)
Definition str_of_cell (c : cell) : result string :=
  match c with
  | CStr s => Ok s
  | _ => Raise AttributeError
  end.

(** The query string of line 87, for the address [s]. *)
Definition address_query (s : string) : string :=
  replace (replace s "-" "") "P/" "" +:+ " PARANA".

(** The query string as the specification words it, to compare with
    [address_query]: the punctuation of the address stripped (the characters
    of Python's [string.punctuation]), then the region suffix. *)
Definition is_punctuation (c : Ascii.ascii) : bool :=
  let n := Ascii.nat_of_ascii c in
  ((33 <=? n) && (n <=? 47) || (58 <=? n) && (n <=? 64)
   || (91 <=? n) && (n <=? 96) || (123 <=? n) && (n <=? 126))%nat.

Fixpoint strip_punctuation (s : string) : string :=
  match s with
  | EmptyString => EmptyString
  | String c s' =>
      if is_punctuation c then strip_punctuation s'
      else String c (strip_punctuation s')
  end.

Definition spec_address_query (s : string) : string :=
  strip_punctuation s +:+ " PARANA".

(** A unit of work: [(row_idx, row, endereco)]. *)
Definition job : Type := nat * row * string.

(** The loop of lines 85-88 from position [row_idx] on. An exception here is
    not caught by the script. *)
Fixpoint rows_to_process_from (row_idx : nat) (rows : list row) : result (list job) :=
  match rows with
  | [] => mret []
  | r :: rest =>
      the_geom ← getattr r "the_geom";
      if pd_isna the_geom then
        address ← getattr r "endereco";
        s ← str_of_cell address;
        let endereco := address_query s in
        jobs ← rows_to_process_from (S row_idx) rest;
        mret ((row_idx, r, endereco) :: jobs)
      else rows_to_process_from (S row_idx) rest
  end.

Definition rows_to_process (df : frame) : result (list job) :=
  rows_to_process_from 0 (itertuples df).

(** ** The reconciliation loop *)

(** [updates], [new_rows] and the lines printed by the loop. *)
Record state : Type := State {
  updates : list (nat * string);
  new_rows : list row;
  printed : list line
}.

(** One turn of the loop over the features (lines 106-110). Whatever raises
    does so before the turn changes [updates] or [new_rows]. *)
Definition feature_step (row_idx : nat) (r : row) (i : nat) (feature : value)
    (st : state) : result state :=
  geometry ← py_get feature "geometry" VNone;
  coordinates ← py_get geometry "coordinates" VNone;
  if decide (i = 0) then
    c1 ← py_index coordinates 1;
    c0 ← py_index coordinates 0;
    utm ← convert_lat_lon_to_UTM c1 c0;
    mret (State (dict_set row_idx utm (updates st)) (new_rows st) (printed st))
  else
    new_row ← duplicate_row_with_new_UTM r coordinates;
    mret (State (updates st) (new_rows st ++ [new_row]) (printed st)).

(** The loop over the features from position [i] on: the state reached and
    the exception that stopped it, if one did. What earlier turns wrote
    stays written. *)
Fixpoint process_features (row_idx : nat) (r : row) (i : nat)
    (features : list value) (st : state) : state * option exn :=
  match features with
  | [] => (st, None)
  | feature :: rest =>
      match feature_step row_idx r i feature st with
      | Ok st' => process_features row_idx r (S i) rest st'
      | Raise e => (st, Some e)
      end
  end.

Definition print (l : line) (st : state) : state :=
  State (updates st) (new_rows st) (printed st ++ [l]).

(** The body of the loop over the completed futures (lines 101-112), for the
    future of [(row_idx, row, endereco)] whose result is [data]. *)
Definition process_completed (st : state) (done : job * value) : state :=
  let '((row_idx, r, endereco), data) := done in
  if truthy data then
    match (features ← py_get data "features" (VList []); py_iter features) with
    | Raise e => print (Error_processing endereco e) st
    | Ok features =>
        match process_features row_idx r 0 features st with
        | (st', None) => st'
        | (st', Some e) => print (Error_processing endereco e) st'
        end
    end
  else st.

Definition reconcile (completed : list (job * value)) : state :=
  fold_left process_completed completed (State [] [] []).

(** One turn of the loop of lines 115-116 on the rows of a table whose
    labels are the positions. *)
Definition write_geom (cols : list string) (up : nat * string) (d : list (list cell))
  : list (list cell) :=
  alter (set_cell cols "the_geom" (CStr up.2)) up.1 d.

(** The rows once the loop of lines 115-116 has run over [ups]. *)
Definition written (df : frame) (ups : list (nat * string)) : list (list cell) :=
  fold_left (λ d up, write_geom (columns df) up d) ups (values df).

(** Lines 115-116. *)
Definition apply_updates (df : frame) (ups : list (nat * string)) : frame :=
  fold_left (λ df up, df_at_set df up.1 "the_geom" (CStr up.2)) ups df.

(** Lines 115-120. *)
Definition merge (df : frame) (st : state) : frame :=
  let df := apply_updates df (updates st) in
  match new_rows st with
  | [] => df
  | _ => pd_concat df (pd_DataFrame (new_rows st))
  end.

(** The dtype of column [c] of the table written when rows are appended, and
    the cell [x] of a record or of a new row as the table written holds it. *)
Definition merged_dtype (df : frame) (st : state) (c : string) : dtype :=
  concat_dtype (Frame (columns df) (index df) (written df (updates st)))
               (pd_DataFrame (new_rows st)) c.

Definition taken (df : frame) (st : state) (c : string) (x : cell) : cell :=
  match new_rows st with
  | [] => x
  | _ => astype (merged_dtype df st c) x
  end.

(** The pool: every job is fetched; [schedule] is the order in which the
    futures complete. *)
Definition as_completed (requests_get : string → result response)
    (api_type : string) (schedule : list job → list job) (jobs : list job)
  : list (job * (value * list line)) :=
  map (λ j, (j, fetch_geocode requests_get j.2 api_type)) (schedule jobs).

(** The script from the table read to the table written, with the error
    lines it prints: those of the clients (line 65), in the order in which
    the lookups complete, then those of the loop (line 112). The two
    progress lines of lines 80 and 94, which every run prints, are left out,
    and so is the interleaving of the lines of the clients with those of the
    loop: the list tells which error lines a run prints and their order
    within each kind, not the whole output of the script. *)
Definition main (requests_get : string → result response) (api_type : string)
    (schedule : list job → list job) (df : frame) : result (frame * list line) :=
  jobs ← rows_to_process df;
  let fetched := as_completed requests_get api_type schedule jobs in
  let st := reconcile (map (λ jf, (jf.1, jf.2.1)) fetched) in
  mret (merge df st, concat (map (λ jf, jf.2.2) fetched) ++ printed st).

(** ** Shapes of provider responses *)

(** A provider-B result exposing a location object with fields [lat] and
    [lng]; any other key may be present. *)
Definition exposes_location (result lat lng : value) : Prop :=
  ∃ r g loc,
    result = VDict r ∧ dict_lookup "geometry" r = Some (VDict g) ∧
    dict_lookup "location" g = Some (VDict loc) ∧
    dict_lookup "lat" loc = Some lat ∧ dict_lookup "lng" loc = Some lng.

(** A provider-B body: a dict whose [results] is the list [results]. *)
Definition google_body (data : value) (results : list value) : Prop :=
  ∃ d, data = VDict d ∧ dict_lookup "results" d = Some (VList results).

(** The feature the normaliser builds for the pair [(lng, lat)]. *)
Definition feature_of (p : value * value) : value :=
  VDict [("geometry", VDict [("coordinates", VList [p.1; p.2])])].

(** A feature exposing the coordinate pair [[lon, lat]] under [geometry];
    any other key may be present. *)
Definition has_coordinates (feature lon lat : value) : Prop :=
  ∃ f g,
    feature = VDict f ∧ dict_lookup "geometry" f = Some (VDict g) ∧
    dict_lookup "coordinates" g = Some (VList [lon; lat]).

(** A result carrying the coordinate pairs [pairs], each [(lon, lat)], in
    this order. *)
Definition geocode_result (data : value) (pairs : list (value * value)) : Prop :=
  ∃ d features,
    data = VDict d ∧ dict_lookup "features" d = Some (VList features) ∧
    Forall2 (λ f p, has_coordinates f p.1 p.2) features pairs.

(** An empty result: [None] or another false value, or a dict without
    [features] or with no feature. *)
Definition empty_result (data : value) : Prop :=
  truthy data = false ∨
  ∃ d, data = VDict d ∧
       (dict_lookup "features" d = None ∨ dict_lookup "features" d = Some (VList [])).

(** The pairs reproject to the strings [utms], one by one. *)
Definition reprojects (pairs : list (value * value)) (utms : list string) : Prop :=
  Forall2 (λ p utm, convert_lat_lon_to_UTM p.2 p.1 = Ok utm) pairs utms.

(** The record cloned with another geometry. *)
Definition clone (r : row) (utm : string) : row :=
  dict_set "the_geom" (CStr utm) (asdict r).

Definition row_idx_of (j : job) : nat := j.1.1.

(** The feature stops the loop over the features with the exception [e],
    wherever it stands. *)
Definition raises_at (feature : value) (e : exn) : Prop :=
  ∀ row_idx r i st, feature_step row_idx r i feature st = Raise e.

(** A result the loop of the normaliser passes over: its test
    ['geometry' in result and 'location' in result['geometry']] is false. *)
Definition passed_over (result : value) : Prop :=
  py_in "geometry" result = Ok false ∨
  ∃ g, py_in "geometry" result = Ok true ∧
       py_getitem result "geometry" = Ok g ∧ py_in "location" g = Ok false.

(** What the loop of the normaliser makes of one result without raising: the
    pair [(lng, lat)] of its location, or nothing. *)
Definition normalises_to (result : value) (m : option (value * value)) : Prop :=
  match m with
  | Some p => exposes_location result p.2 p.1
  | None => passed_over result
  end.


(** A row the loop of lines 85-88 gets through: it has a geometry field and,
    when the geometry is missing, an address that is a string. *)
Definition workable (r : row) : Prop :=
  ∃ g, getattr r "the_geom" = Ok g ∧
       (pd_isna g = true → ∃ s, getattr r "endereco" = Ok (CStr s)).

(** A row whose geometry is there. *)
Definition resolved (r : row) : Prop :=
  ∃ g, getattr r "the_geom" = Ok g ∧ pd_isna g = false.


(** What one completed lookup contributes when the loop has written nothing
    yet: the entry of [updates], the new rows and the line printed. *)
Definition outcome (done : job * value) : state :=
  process_completed (State [] [] []) done.

(** The variables of the loop after a turn that contributes [o] to [st]. *)
Definition gather (row_idx : nat) (st o : state) : state :=
  State (match updates o with
         | [] => updates st
         | up :: _ => dict_set row_idx up.2 (updates st)
         end)
        (new_rows st ++ new_rows o) (printed st ++ printed o).


(** ** The file written *)

(** [os.path.basename] of [posixpath]: what follows the last [/]. A string
    is its UTF-8 bytes here; the byte of [/] belongs to no longer sequence. *)
Fixpoint basename (p : string) : string :=
  match p with
  | EmptyString => EmptyString
  | String _ p' => if is_substring "/" p then basename p' else p
  end.

Fixpoint ends_with (p s : string) : bool :=
  String.eqb p s ||
  match s with
  | EmptyString => false
  | String _ s' => ends_with p s'
  end.

(** [os.path.join(a, b)] of [posixpath]. *)
Definition path_join (a b : string) : string :=
  if starts_with "/" b then b
  else if String.eqb a "" || ends_with "/" a then a +:+ b
  else a +:+ "/" +:+ b.

(** Lines 123-128: the path handed to [df.to_csv]. *)
Definition output_path (input_filename api_type : string) : string :=
  let output_dir := "output" in
  let input_filepath := basename (input_filename +:+ "-" +:+ api_type +:+ ".csv") in
  path_join output_dir input_filepath.


(** ** The map script: its arguments *)

Section Arguments.

(** [int(s)] for a string: the integer, or nothing where Python raises
    [ValueError]. *)
Variable py_int : string → option Z.

(** [s.split('=')] *)
Fixpoint split_eq (s : string) : list string :=
  match s with
  | EmptyString => [EmptyString]
  | String c s' =>
      if decide (String c EmptyString = "=") then EmptyString :: split_eq s'
      else match split_eq s' with
           | [] => [String c EmptyString]
           | field :: fields => String c field :: fields
           end
  end.

(** [l[1]] *)
Definition second (l : list string) : result string :=
  match l !! 1 with
  | Some x => Ok x
  | None => Raise IndexError
  end.

(** The four variables the arguments set (lines 28-31). *)
Record settings : Type := Settings {
  max_markers : option Z;
  use_fast_markers : bool;
  input_filename : string;
  show_help : bool
}.

Definition default_settings : settings :=
  Settings None true "Campo_Mourão_teste_api_pontos.csv" false.

(** The line printed at line 39. *)
Inductive map_line : Type :=
| Invalid_value_for_max (v : string).

(** One turn of the loop of lines 34-45. Only [ValueError] is caught. *)
Definition read_arg (arg : string) (st : settings * list map_line)
  : result (settings * list map_line) :=
  let '(s, out) := st in
  if starts_with "--max=" arg then
    v ← second (split_eq arg);
    match py_int v with
    | Some n =>
        mret (Settings (Some n) (use_fast_markers s) (input_filename s) (show_help s), out)
    | None =>
        v ← second (split_eq arg);
        mret (s, out ++ [Invalid_value_for_max v])
    end
  else if String.eqb arg "--no-fast" then
    mret (Settings (max_markers s) false (input_filename s) (show_help s), out)
  else if starts_with "--file=" arg then
    v ← second (split_eq arg);
    mret (Settings (max_markers s) (use_fast_markers s) v (show_help s), out)
  else if bool_decide (arg ∈ ["--help"; "-h"]) then
    mret (Settings (max_markers s) (use_fast_markers s) (input_filename s) true, out)
  else mret st.

(** Lines 33-45, over [sys.argv[1:]]. *)
Fixpoint read_args (args : list string) (st : settings * list map_line)
  : result (settings * list map_line) :=
  match args with
  | [] => mret st
  | arg :: rest => st' ← read_arg arg st; read_args rest st'
  end.

End Arguments.

(** The file read at line 57 and the file saved at line 123. *)
Definition map_input (s : settings) : string := "output/" +:+ input_filename s.

Definition map_output (s : settings) : string := input_filename s +:+ ".html".


(** ** The map script: the geometry read back *)

(** A character of the class [[\d.]], among the ASCII characters; in a
    Python pattern [\d] also holds the decimal digits of other scripts. *)
Definition digit_or_dot (c : Ascii.ascii) : bool :=
  let n := Ascii.nat_of_ascii c in
  ((48 <=? n) && (n <=? 57) || (n =? 46))%nat.

(** What [[\d.]*] takes at the head of [s], and what it leaves. *)
Fixpoint run (s : string) : string :=
  match s with
  | EmptyString => EmptyString
  | String c s' => if digit_or_dot c then String c (run s') else EmptyString
  end.

Fixpoint after_run (s : string) : string :=
  match s with
  | EmptyString => EmptyString
  | String c s' => if digit_or_dot c then after_run s' else s
  end.

(** [s] without the prefix [p] it starts with. *)
Fixpoint strip_prefix (p s : string) : option string :=
  match p, s with
  | EmptyString, _ => Some s
  | String a p', String b s' => if decide (a = b) then strip_prefix p' s' else None
  | String _ _, EmptyString => None
  end.

(** Line 60 on one string cell: group 1 of the first match of
    [POINT\(([\d.]+)], the leftmost place where the pattern matches. *)
Fixpoint extract_x (s : string) : option string :=
  match s with
  | EmptyString => None
  | String _ s' =>
      match strip_prefix "POINT(" s with
      | Some rest =>
          match run rest with
          | EmptyString => extract_x s'
          | digits => Some digits
          end
      | None => extract_x s'
      end
  end.

(** Line 61 on one string cell: group 1 of the first match of
    [([\d.]+)\)]. A run of the class that no [)] follows matches at none of
    its characters. *)
Fixpoint extract_y (s : string) : option string :=
  match s with
  | EmptyString => None
  | String c s' =>
      if digit_or_dot c && starts_with ")" (after_run s) then Some (run s)
      else extract_y s'
  end.

(** A string of ASCII characters, on which the class above is the class of
    the patterns. *)
Definition ascii_string (s : string) : Prop :=
  forallb is_ascii (String.list_ascii_of_string s) = true.

(** A number written with digits and dots only. *)
Definition plain_number (s : string) : Prop :=
  s ≠ "" ∧ run s = s.

(** The last character of [s] is of the class. *)
Fixpoint ends_in_digit (s : string) : bool :=
  match s with
  | EmptyString => false
  | String c EmptyString => digit_or_dot c
  | String _ s' => ends_in_digit s'
  end.


(** ** The test script *)

(** What the test script prints. *)
Inductive test_line : Type :=
| Testing_Geoapify_API_with_URL (url : string)
| Testing_Google_API_with_URL (url : string)
| API_Response
| Printed (data : value)
| Feature_coordinates (i : nat) (coords : value)
| Feature_has_no_coordinates (i : nat)
| No_features_found_in_response
| Result_location (i : nat) (lat lng : value)
| Result_has_no_location (i : nat)
| No_results_found_in_response
| Error_status (code : Z)
| Exception_line (e : exn).

(** [k in v and v[k]], the test of lines 17 and 44. *)
Definition has_some (k : string) (v : value) : result bool :=
  has ← py_in k v;
  if has : bool then x ← py_getitem v k; mret (truthy x) else mret false.

(** Lines 19-23 for the feature at position [i]: the line printed. *)
Definition report_feature (i : nat) (feature : value) : result test_line :=
  has_geometry ← py_in "geometry" feature;
  has_coordinates ←
    (if has_geometry : bool then
       geometry ← py_getitem feature "geometry"; py_in "coordinates" geometry
     else mret false);
  if has_coordinates : bool then
    geometry ← py_getitem feature "geometry";
    coords ← py_getitem geometry "coordinates";
    mret (Feature_coordinates i coords)
  else mret (Feature_has_no_coordinates i).

(** Lines 46-50 for the result at position [i]. *)
Definition report_result : nat → value → result test_line := λ i result,
  has_geometry ← py_in "geometry" result;
  has_location ←
    (if has_geometry : bool then
       geometry ← py_getitem result "geometry"; py_in "location" geometry
     else mret false);
  if has_location : bool then
    geometry ← py_getitem result "geometry";
    location ← py_getitem geometry "location";
    lat ← py_getitem location "lat";
    lng ← py_getitem location "lng";
    mret (Result_location i lat lng)
  else mret (Result_has_no_location i).

(** A loop of the test script from position [i] on: the lines printed, and
    the exception that stopped the loop, if one did. *)
Fixpoint report_all (report : nat → value → result test_line) (i : nat)
    (items : list value) : list test_line * option exn :=
  match items with
  | [] => ([], None)
  | item :: rest =>
      match report i item with
      | Ok l => let '(ls, e) := report_all report (S i) rest in (l :: ls, e)
      | Raise e => ([], Some e)
      end
  end.

(** Lines 17-25 and 44-52: the lines printed for a decoded body, and the
    exception raised into the handler of the function. *)
Definition report_body (key : string) (report : nat → value → result test_line)
    (nothing_found : test_line) (data : value) : list test_line * option exn :=
  match has_some key data with
  | Raise e => ([], Some e)
  | Ok false => ([nothing_found], None)
  | Ok true =>
      match (items ← py_getitem data key; py_iter items) with
      | Raise e => ([], Some e)
      | Ok items => report_all report 0 items
      end
  end.

(** Lines 9-29 and 36-56. *)
Definition test_api (url : string) (requests_get : string → result response)
    (report : value → list test_line * option exn) : list test_line :=
  match requests_get url with
  | Raise e => [Exception_line e]
  | Ok response =>
      if (status_code response =? 200)%Z then
        match json response with
        | Raise e => [Exception_line e]
        | Ok data =>
            let '(ls, e) := report data in
            API_Response :: Printed data :: ls ++
            match e with
            | Some e => [Exception_line e]
            | None => []
            end
        end
      else [Error_status (status_code response)]
  end.

Definition test_geoapify_api (requests_get : string → result response)
    (endereco : string) : list test_line :=
  let url := "http://localhost:8080/external/geocode-geoapify?address=" +:+ endereco in
  Testing_Geoapify_API_with_URL url ::
  test_api url requests_get
    (report_body "features" report_feature No_features_found_in_response).

Definition test_google_api (requests_get : string → result response)
    (endereco : string) : list test_line :=
  let url := "http://localhost:8080/external/geocode?address=" +:+ endereco in
  Testing_Google_API_with_URL url ::
  test_api url requests_get
    (report_body "results" report_result No_results_found_in_response).

(** The pairs [(lng, lat)] of the results the test script reports a location
    for, in the order of its lines. *)
Definition located (ls : list test_line) : list (value * value) :=
  omap (λ l, match l with
             | Result_location _ lat lng => Some (lng, lat)
             | _ => None
             end) ls.


(** ** Examples to run the model on *)

(** A stand-in for the transformer: a shift of both coordinates. *)
Definition sample_transform (lon lat : value) : result (value * value) :=
  match lon, lat with
  | VInt x, VInt y => Ok (VInt (x + 500000), VInt (y + 10000000))
  | VFloat x, VFloat y => Ok (VFloat (x + 500000), VFloat (y + 10000000))
  | _, _ => Raise (Exception "transform")
  end.

Definition sample_format (v : value) : string :=
  match v with
  | VInt z => pretty z
  | _ => "?"
  end.

Definition sample_unicode (s : string) : bool := false.

Definition sample_feature (lon lat : value) : value :=
  VDict [("type", VStr "Feature");
         ("geometry", VDict [("type", VStr "Point");
                             ("coordinates", VList [lon; lat])])].

Definition sample_one_feature : value :=
  VDict [("type", VStr "FeatureCollection");
         ("features", VList [sample_feature (VFloat (-51.0)) (VFloat (-25.5))])].

Definition sample_two_features : value :=
  VDict [("type", VStr "FeatureCollection");
         ("features", VList [sample_feature (VInt (-51)) (VInt (-25));
                             sample_feature (VInt (-52)) (VInt (-26))])].

Definition sample_malformed : value :=
  VDict [("features", VList [sample_feature (VInt (-51)) (VInt (-25)); VDict []])].

Definition sample_google : value :=
  VDict [("results",
          VList [VDict [("geometry",
                         VDict [("location",
                                 VDict [("lat", VInt (-25)); ("lng", VInt (-51))])])];
                 VDict [("geometry",
                         VDict [("location",
                                 VDict [("lat", VInt (-26)); ("lng", VInt (-52))])])]]);
         ("status", VStr "OK")].

Definition sample_get (body : value) (url : string) : result response :=
  Ok (Response 200 (Ok body)).

Definition sample_down (url : string) : result response :=
  Raise (Exception "ConnectionError").

Definition sample_not_found (url : string) : result response :=
  Ok (Response 404 (Ok VNone)).

Definition sample_garbled (url : string) : result response :=
  Ok (Response 200 (Raise (Exception "JSONDecodeError"))).

(** One record without geometry. *)
Definition sample_one : frame :=
  Frame ["endereco"; "the_geom"] [0] [[CStr "RUA A, 10 - PARANA"; nan_cell]].

(** A record without geometry and a record with one. *)
Definition sample_df : frame :=
  Frame ["inscricao"; "endereco"; "the_geom"] [0; 1]
        [[CInt 7; CStr "RUA A, 10 - PARANA"; nan_cell];
         [CInt 8; CStr "RUA B, 20"; CStr "POINT(1 2)"]].

(** Their named tuples. *)
Definition sample_row_0 : row :=
  [("Index", CInt 0); ("inscricao", CInt 7);
   ("endereco", CStr "RUA A, 10 - PARANA"); ("the_geom", nan_cell)].

Definition sample_row_1 : row :=
  [("Index", CInt 1); ("inscricao", CInt 8);
   ("endereco", CStr "RUA B, 20"); ("the_geom", CStr "POINT(1 2)")].

Definition sample_job : job := (0, sample_row_0, "RUA A, 10  PARANA PARANA").

(** A record that lacks geometry and address alike, and a table with nothing
    left to look up. *)
Definition sample_no_address : frame :=
  Frame ["endereco"; "the_geom"] [0] [[nan_cell; nan_cell]].

Definition sample_resolved : frame :=
  Frame ["endereco"; "the_geom"] [0; 1]
        [[CStr "RUA A, 10"; CStr "POINT(3 4)"]; [CStr "RUA B, 20"; CStr "POINT(1 2)"]].


(** Two records without geometry. *)
Definition sample_pending : frame :=
  Frame ["endereco"; "the_geom"] [0; 1]
        [[CStr "RUA A, 10"; nan_cell]; [CStr "RUA B, 20"; nan_cell]].

(** The two results of [sample_google]. *)
Definition sample_results : list value :=
  [VDict [("geometry",
           VDict [("location", VDict [("lat", VInt (-25)); ("lng", VInt (-51))])])];
   VDict [("geometry",
           VDict [("location", VDict [("lat", VInt (-26)); ("lng", VInt (-52))])])]].

(** What the normaliser makes of [sample_google]. *)
Definition sample_normalised : value :=
  VDict [("features",
          VList [feature_of (VInt (-51), VInt (-25));
                 feature_of (VInt (-52), VInt (-26))])].


(** A record without geometry in a table with a column whose label is no
    identifier, and its named tuple. *)
Definition sample_renamed : frame :=
  Frame ["my col"; "endereco"; "the_geom"] [0] [[CInt 3; CStr "RUA A"; nan_cell]].

Definition sample_renamed_row : row :=
  [("Index", CInt 0); ("_1", CInt 3); ("endereco", CStr "RUA A");
   ("the_geom", nan_cell)].

(** ** Properties *)

Lemma py_in_dict k d x : dict_lookup k d = Some x → py_in k (VDict d) = Ok true.
Proof. intros H. unfold py_in. by rewrite H, bool_decide_eq_true_2. Qed.

Lemma py_in_dict_None k d : dict_lookup k d = None → py_in k (VDict d) = Ok false.
Proof.
  intros H. unfold py_in. rewrite H, bool_decide_eq_false_2; [done|].
  by intros [? ?].
Qed.

Lemma py_getitem_dict k d x : dict_lookup k d = Some x → py_getitem (VDict d) k = Ok x.
Proof. intros H. unfold py_getitem. by rewrite H. Qed.

Lemma py_get_dict k d x v : dict_lookup k d = Some x → py_get (VDict d) k v = Ok x.
Proof. intros H. unfold py_get. by rewrite H. Qed.

Lemma py_get_dict_None k d v : dict_lookup k d = None → py_get (VDict d) k v = Ok v.
Proof. intros H. unfold py_get. by rewrite H. Qed.

Lemma bind_Ok {A B} (a : A) (k : A → result B) : (Ok a ≫= k) = k a.
Proof. done. Qed.

Lemma truthy_dict k d (x : value) : dict_lookup k d = Some x → truthy (VDict d) = true.
Proof. by destruct d. Qed.

Lemma normalize_results_exposed results pairs features :
  Forall2 (λ r p, exposes_location r p.2 p.1) results pairs →
  normalize_results results features = Ok (features ++ map feature_of pairs).
Proof.
  intros H. revert features.
  induction H as [|r p results pairs (d & g & loc & -> & Hg & Hl & Hlat & Hlng) _ IH];
    intros features; cbn [normalize_results map].
  - by rewrite app_nil_r.
  - rewrite (py_in_dict _ _ _ Hg), bind_Ok, !(py_getitem_dict _ _ _ Hg), !bind_Ok.
    rewrite (py_in_dict _ _ _ Hl), bind_Ok, (py_getitem_dict _ _ _ Hl), bind_Ok.
    rewrite (py_getitem_dict _ _ _ Hlng), (py_getitem_dict _ _ _ Hlat), !bind_Ok.
    rewrite IH, <- app_assoc. by destruct p.
Qed.

(** C7. Provider B: when every result exposes a location object with fields
    [lat] and [lng], the normaliser returns one feature per result, in the
    order of the results, whose coordinates are the pair (lng, lat); with no
    result at all it returns [None], the empty result. *)
Theorem normalize_google_response_reorders data results pairs :
  google_body data results →
  Forall2 (λ r p, exposes_location r p.2 p.1) results pairs →
  normalize_google_response data =
    Ok (match pairs with
        | [] => VNone
        | _ => VDict [("features", VList (map feature_of pairs))]
        end).
Proof.
  intros (d & -> & Hres) Hall.
  unfold normalize_google_response.
  rewrite (truthy_dict _ _ _ Hres). cbn [negb].
  rewrite (py_in_dict _ _ _ Hres), bind_Ok. cbn [negb].
  rewrite (py_getitem_dict _ _ _ Hres), bind_Ok.
  destruct Hall as [|r p results pairs Hr Hall]; [done|].
  cbn [truthy negb py_iter]. rewrite bind_Ok.
  by rewrite (normalize_results_exposed (r :: results) (p :: pairs) [])
    by by constructor.
Qed.

Lemma fetch_geocode_cases requests_get endereco api_type :
  fetch_geocode requests_get endereco api_type =
    match requests_get (geocode_url endereco api_type) with
    | Raise e => (VNone, [Error_fetching_geocode_for endereco e])
    | Ok r =>
        if (status_code r =? 200)%Z then
          match json r with
          | Raise e => (VNone, [Error_fetching_geocode_for endereco e])
          | Ok data =>
              if String.eqb (lower api_type) "google" then
                match normalize_google_response data with
                | Ok v => (v, [])
                | Raise e => (VNone, [Error_fetching_geocode_for endereco e])
                end
              else (data, [])
          end
        else (VNone, [])
    end.
Proof.
  unfold fetch_geocode.
  destruct (requests_get _) as [r|e]; [|done]. rewrite bind_Ok.
  destruct (status_code r =? 200)%Z; [|done].
  destruct (json r) as [data|e]; [|done]. rewrite bind_Ok.
  by destruct (String.eqb _ _).
Qed.

(** C10. The client asks the service at one URL only. A tag whose lower-case
    form is not [google] selects the geoapify endpoint, and the body decoded
    from a 200 response is returned as it is; a tag whose lower-case form is
    [google] selects the other endpoint, and the decoded body goes through
    the normaliser. *)
Theorem fetch_geocode_selects_provider requests_get endereco api_type :
  (∀ other, other (geocode_url endereco api_type) =
            requests_get (geocode_url endereco api_type) →
     fetch_geocode other endereco api_type =
     fetch_geocode requests_get endereco api_type) ∧
  (lower api_type ≠ "google" →
     geocode_url endereco api_type =
       "http://localhost:8080/external/geocode-geoapify?address=" +:+ endereco ∧
     ∀ r data, requests_get (geocode_url endereco api_type) = Ok r →
       status_code r = 200%Z → json r = Ok data →
       fetch_geocode requests_get endereco api_type = (data, [])) ∧
  (lower api_type = "google" →
     geocode_url endereco api_type =
       "http://localhost:8080/external/geocode?address=" +:+ endereco ∧
     ∀ r data, requests_get (geocode_url endereco api_type) = Ok r →
       status_code r = 200%Z → json r = Ok data →
       fetch_geocode requests_get endereco api_type =
         match normalize_google_response data with
         | Ok v => (v, [])
         | Raise e => (VNone, [Error_fetching_geocode_for endereco e])
         end).
Proof.
  split; [|split].
  - intros other Heq. by rewrite !fetch_geocode_cases, Heq.
  - intros Hne. apply String.eqb_neq in Hne. split.
    + unfold geocode_url. by rewrite Hne.
    + intros r data Hr Hs Hj. rewrite fetch_geocode_cases, Hr, Hs, Hj, Hne. done.
  - intros Heq. apply String.eqb_eq in Heq. split.
    + unfold geocode_url. by rewrite Heq.
    + intros r data Hr Hs Hj. rewrite fetch_geocode_cases, Hr, Hs, Hj, Heq. done.
Qed.

(** C5. The client returns [None], the empty result, on a status code other
    than 200 (so on every non-success code); when the request raises (a
    connection error, a timeout) or the body cannot be decoded, it prints the
    line that names the query and returns [None]. Whatever the service does,
    the client returns: either it printed nothing, or it printed that one
    line and returned [None]. *)
Theorem fetch_geocode_never_raises requests_get endereco api_type :
  (∀ r, requests_get (geocode_url endereco api_type) = Ok r →
     status_code r ≠ 200%Z →
     fetch_geocode requests_get endereco api_type = (VNone, [])) ∧
  (∀ e, requests_get (geocode_url endereco api_type) = Raise e →
     fetch_geocode requests_get endereco api_type =
       (VNone, [Error_fetching_geocode_for endereco e])) ∧
  (∀ r e, requests_get (geocode_url endereco api_type) = Ok r →
     status_code r = 200%Z → json r = Raise e →
     fetch_geocode requests_get endereco api_type =
       (VNone, [Error_fetching_geocode_for endereco e])) ∧
  ((fetch_geocode requests_get endereco api_type).2 = [] ∨
   ∃ e, fetch_geocode requests_get endereco api_type =
          (VNone, [Error_fetching_geocode_for endereco e])).
Proof.
  rewrite fetch_geocode_cases. repeat split.
  - intros r Hr Hs. rewrite Hr. apply Z.eqb_neq in Hs. by rewrite Hs.
  - intros e He. by rewrite He.
  - intros r e Hr Hs Hj. by rewrite Hr, Hs, Hj.
  - destruct (requests_get _) as [r|e]; [|by eauto].
    destruct (status_code r =? 200)%Z; [|by left].
    destruct (json r) as [data|e]; [|by eauto].
    destruct (String.eqb _ _); [|by left].
    destruct (normalize_google_response data); by eauto.
Qed.

(** *** The loop over the features *)

Lemma py_index_pair lon lat :
  py_index (VList [lon; lat]) 1 = Ok lat ∧ py_index (VList [lon; lat]) 0 = Ok lon.
Proof. done. Qed.

Lemma feature_step_first row_idx r feature lon lat utm st :
  has_coordinates feature lon lat →
  convert_lat_lon_to_UTM lat lon = Ok utm →
  feature_step row_idx r 0 feature st =
    Ok (State (dict_set row_idx utm (updates st)) (new_rows st) (printed st)).
Proof.
  intros (f & g & -> & Hg & Hc) Hutm. unfold feature_step.
  rewrite (py_get_dict _ _ _ _ Hg), bind_Ok, (py_get_dict _ _ _ _ Hc), bind_Ok.
  rewrite decide_True by done.
  destruct (py_index_pair lon lat) as [-> ->]. by rewrite !bind_Ok, Hutm.
Qed.

Lemma feature_step_next row_idx r i feature lon lat utm st :
  has_coordinates feature lon lat →
  convert_lat_lon_to_UTM lat lon = Ok utm →
  feature_step row_idx r (S i) feature st =
    Ok (State (updates st) (new_rows st ++ [clone r utm]) (printed st)).
Proof.
  intros (f & g & -> & Hg & Hc) Hutm. unfold feature_step.
  rewrite (py_get_dict _ _ _ _ Hg), bind_Ok, (py_get_dict _ _ _ _ Hc), bind_Ok.
  rewrite decide_False by done. unfold duplicate_row_with_new_UTM.
  destruct (py_index_pair lon lat) as [-> ->]. by rewrite !bind_Ok, Hutm.
Qed.

Lemma process_features_next row_idx r i features pairs utms st :
  Forall2 (λ f p, has_coordinates f p.1 p.2) features pairs →
  reprojects pairs utms →
  process_features row_idx r (S i) features st =
    (State (updates st) (new_rows st ++ map (clone r) utms) (printed st), None).
Proof.
  intros Hf. revert utms i st.
  induction Hf as [|f p features pairs Hfp _ IH]; intros utms i st Hu.
  - apply Forall2_nil_inv_l in Hu as ->. simpl. rewrite app_nil_r. by destruct st.
  - apply Forall2_cons_inv_l in Hu as (utm & utms' & Hutm & Hu & ->).
    cbn [process_features].
    rewrite (feature_step_next _ _ _ _ _ _ _ _ Hfp Hutm), (IH _ _ _ Hu).
    cbn [updates new_rows printed map]. by rewrite <- app_assoc.
Qed.

Lemma process_completed_pairs st (j : job) data p pairs utm utms :
  geocode_result data (p :: pairs) →
  reprojects (p :: pairs) (utm :: utms) →
  process_completed st (j, data) =
    State (dict_set (row_idx_of j) utm (updates st))
          (new_rows st ++ map (clone j.1.2) utms) (printed st).
Proof.
  destruct j as [[row_idx r] endereco].
  intros (d & features & -> & Hfs & Hall) Hu.
  apply Forall2_cons_inv_r in Hall as (f & fs & Hf & Hall & ->).
  apply Forall2_cons in Hu as [Hutm Hu].
  unfold process_completed.
  rewrite (truthy_dict _ _ _ Hfs), (py_get_dict _ _ _ _ Hfs), bind_Ok.
  cbn [py_iter process_features].
  rewrite (feature_step_first _ _ _ _ _ _ _ Hf Hutm).
  by rewrite (process_features_next _ _ _ _ _ _ _ Hall Hu).
Qed.

Lemma process_completed_empty st j data :
  empty_result data → process_completed st (j, data) = st.
Proof.
  destruct j as [[row_idx r] endereco]. unfold process_completed.
  intros [->|(d & -> & [H|H])]; [done| |].
  - destruct (truthy _); [|done]. by rewrite (py_get_dict_None _ _ _ H).
  - destruct (truthy _); [|done]. by rewrite (py_get_dict _ _ _ _ H).
Qed.

(** *** Dicts *)

Lemma dict_lookup_set {K A} `{EqDecision K} (k : K) (v : A) d :
  dict_lookup k (dict_set k v d) = Some v.
Proof.
  induction d as [|[k' v'] d IH]; simpl.
  - by rewrite decide_True.
  - destruct (decide (k = k')) as [->|Hne]; simpl.
    + by rewrite decide_True.
    + by rewrite decide_False.
Qed.

Lemma dict_lookup_set_ne {K A} `{EqDecision K} (k k' : K) (v : A) d :
  k ≠ k' → dict_lookup k' (dict_set k v d) = dict_lookup k' d.
Proof.
  intros Hne. induction d as [|[k0 v0] d IH]; simpl.
  - by rewrite decide_False.
  - destruct (decide (k = k0)) as [->|]; simpl.
    + by rewrite !decide_False.
    + by rewrite IH.
Qed.

Lemma dict_lookup_Some_elem {K A} `{EqDecision K} (k : K) (v : A) d :
  dict_lookup k d = Some v → (k, v) ∈ d.
Proof.
  induction d as [|[k' v'] d IH]; simpl; [done|].
  destruct (decide (k = k')) as [->|]; intros H.
  - injection H as ->. left.
  - right. by apply IH.
Qed.

Lemma dict_lookup_None {K A} `{EqDecision K} (k : K) (d : list (K * A)) :
  dict_lookup k d = None ↔ k ∉ d.*1.
Proof.
  induction d as [|[k' v'] d IH]; simpl.
  - split; [intros _; apply not_elem_of_nil|done].
  - rewrite not_elem_of_cons. destruct (decide (k = k')) as [->|Hne].
    + split; [done|]. by intros [? _].
    + rewrite IH. split; [by intros ?|by intros [_ ?]].
Qed.

Lemma dict_set_keys {K A} `{EqDecision K} (k : K) (v : A) d :
  (dict_set k v d).*1 = if bool_decide (k ∈ d.*1) then d.*1 else d.*1 ++ [k].
Proof.
  induction d as [|[k' v'] d IH]; csimpl.
  - done.
  - destruct (decide (k = k')) as [->|Hne]; csimpl.
    + by rewrite bool_decide_eq_true_2 by left.
    + rewrite IH. destruct (bool_decide (k ∈ d.*1)) eqn:Hb.
      * apply bool_decide_eq_true in Hb. by rewrite bool_decide_eq_true_2 by by right.
      * apply bool_decide_eq_false in Hb.
        rewrite bool_decide_eq_false_2; [done|]. rewrite not_elem_of_cons. done.
Qed.

Lemma dict_set_NoDup {K A} `{EqDecision K} (k : K) (v : A) d :
  NoDup d.*1 → NoDup (dict_set k v d).*1.
Proof.
  intros Hnd. rewrite dict_set_keys. case_bool_decide as Hk; [done|].
  apply NoDup_app. split_and!; [done| |apply NoDup_singleton].
  intros x Hx Hx'. apply list_elem_of_singleton in Hx' as ->. done.
Qed.

(** *** Columns and cells *)

Lemma position_Some c cols j : position c cols = Some j → cols !! j = Some c.
Proof.
  revert j. induction cols as [|c' cols IH]; intros j; simpl; [done|].
  destruct (decide (c = c')) as [->|].
  - by intros [= <-].
  - destruct (position c cols) as [j'|]; simpl; [|done].
    intros [= <-]. by apply IH.
Qed.

Lemma position_elem c cols : c ∈ cols → is_Some (position c cols).
Proof.
  induction cols as [|c' cols IH]; intros Hin; simpl.
  - by apply elem_of_nil in Hin.
  - destruct (decide (c = c')); [by eexists|].
    apply elem_of_cons in Hin as [?|Hin]; [done|].
    destruct (IH Hin) as [j ->]. by eexists.
Qed.

Lemma position_None c cols : c ∉ cols → position c cols = None.
Proof.
  intros Hc. destruct (position c cols) as [j|] eqn:Hp; [|done].
  apply position_Some in Hp. exfalso. apply Hc. by eapply list_elem_of_lookup_2.
Qed.

Lemma position_NoDup c cols j :
  NoDup cols → cols !! j = Some c → position c cols = Some j.
Proof.
  intros Hnd. revert j. induction Hnd as [|c' cols Hc' Hnd IH]; intros j Hj; [done|].
  simpl. destruct j as [|j]; simpl in Hj.
  - injection Hj as ->. by rewrite decide_True.
  - rewrite decide_False.
    + by rewrite (IH _ Hj).
    + intros ->. apply Hc'. by eapply list_elem_of_lookup_2.
Qed.

Lemma cell_at_map (f : string → cell) c cols :
  c ∈ cols → cell_at cols c (map f cols) = Some (f c).
Proof.
  intros Hin. unfold cell_at. destruct (position_elem _ _ Hin) as [j Hj].
  rewrite Hj. simpl. apply position_Some in Hj.
  change (map f cols) with (f <$> cols). by rewrite list_lookup_fmap, Hj.
Qed.

Lemma cell_at_is_Some c cols (r : list cell) :
  c ∈ cols → length r = length cols → is_Some (cell_at cols c r).
Proof.
  intros Hin Hlen. unfold cell_at. destruct (position_elem _ _ Hin) as [j Hj].
  rewrite Hj. simpl. apply lookup_lt_is_Some. rewrite Hlen.
  apply position_Some in Hj. by eapply lookup_lt_Some.
Qed.

Lemma cell_at_reindex t old new c (r : list cell) x :
  c ∈ new → cell_at old c r = Some x →
  cell_at new c (reindex t old new r) = Some (astype (t c) x).
Proof.
  intros Hin Hx. unfold reindex. rewrite (cell_at_map _ _ _ Hin). by rewrite Hx.
Qed.

(** *** Column types *)

Lemma astype_widened t x : widened x (astype t x).
Proof.
  destruct t, x as [z| | |]; try (by left). right. by exists z.
Qed.

Lemma astype_not_int t x : is_int x = false → astype t x = x.
Proof. by destruct t, x. Qed.

Lemma astype_object x : astype object x = x.
Proof. by destruct x. Qed.

Lemma widened_not_int x y : widened x y → is_int x = false → y = x.
Proof. intros [->|(z & -> & _)]; done. Qed.

Lemma widened_trans x y z : widened x y → widened y z → widened x z.
Proof.
  intros [->|(n & -> & ->)] Hyz; [done|].
  destruct Hyz as [->|(m & [=] & _)]. right. by exists n.
Qed.

Lemma infer_dtype_string cells s : CStr s ∈ cells → infer_dtype cells = object.
Proof.
  intros Hin. unfold infer_dtype.
  assert (existsb is_string cells = true) as ->; [|done].
  apply existsb_exists. exists (CStr s). split; [|done]. by apply list_elem_of_In.
Qed.

Lemma infer_dtype_ints cells :
  cells ≠ [] → Forall (λ x, is_int x = true) cells → infer_dtype cells = int64.
Proof.
  intros Hne Hall. unfold infer_dtype.
  assert (existsb is_string cells = false) as ->.
  { apply not_true_is_false. intros (x & Hx & Hs)%existsb_exists.
    apply list_elem_of_In in Hx. rewrite Forall_forall in Hall.
    specialize (Hall x Hx). by destruct x. }
  assert (existsb is_bool cells = false) as ->.
  { apply not_true_is_false. intros (x & Hx & Hs)%existsb_exists.
    apply list_elem_of_In in Hx. rewrite Forall_forall in Hall.
    specialize (Hall x Hx). by destruct x. }
  assert (forallb is_int cells = true) as ->.
  { apply forallb_forall. intros x Hx%list_elem_of_In.
    rewrite Forall_forall in Hall. by apply Hall. }
  by destruct cells.
Qed.

Lemma common_dtype_object b : common_dtype (Some object) b = object.
Proof. by destruct b as [[]|]. Qed.

Lemma infer_dtype_Permutation l1 l2 : l1 ≡ₚ l2 → infer_dtype l1 = infer_dtype l2.
Proof.
  intros Hp. unfold infer_dtype.
  assert (∀ f : cell → bool, existsb f l1 = existsb f l2) as He.
  { intros f. apply eq_true_iff_eq. rewrite !existsb_exists.
    split; intros (x & Hx & Hf); exists x; (split; [|done]);
      apply list_elem_of_In; apply list_elem_of_In in Hx;
      [by rewrite <- Hp|by rewrite Hp]. }
  assert (∀ f : cell → bool, forallb f l1 = forallb f l2) as Hf.
  { intros f. apply eq_true_iff_eq. rewrite !forallb_forall.
    split; intros H x Hx; apply H; apply list_elem_of_In;
      apply list_elem_of_In in Hx; [by rewrite Hp|by rewrite <- Hp]. }
  rewrite !He, !Hf.
  destruct l1, l2; try done;
    [by apply Permutation_nil_cons in Hp|
     symmetry in Hp; by apply Permutation_nil_cons in Hp].
Qed.

(** *** Writing the updates into the table *)

Lemma zip_with_seq_alter (f : list cell → list cell) label (d : list (list cell)) :
  zip_with (λ l r, if decide (l = label) then f r else r) (seq 0 (length d)) d =
  alter f label d.
Proof.
  apply list_eq. intros i. rewrite lookup_zip_with.
  destruct (d !! i) as [r|] eqn:Hr.
  - rewrite lookup_seq_lt by by eapply lookup_lt_Some. simpl.
    destruct (decide (i = label)) as [->|Hne].
    + by rewrite list_lookup_alter_eq, Hr.
    + by rewrite list_lookup_alter_ne, Hr.
  - rewrite (proj2 (lookup_ge_None (alter f label d) i))
      by (rewrite length_alter; by apply lookup_ge_None).
    by destruct (seq 0 (length d) !! i).
Qed.

Lemma df_at_set_in_range df label v :
  index df = seq 0 (length (values df)) →
  "the_geom" ∈ columns df →
  label < length (values df) →
  df_at_set df label "the_geom" v =
    Frame (columns df) (index df)
          (alter (set_cell (columns df) "the_geom" v) label (values df)).
Proof.
  intros Hidx Hcol Hlt. unfold df_at_set, add_column.
  rewrite bool_decide_eq_true_2 by done. unfold add_label.
  rewrite bool_decide_eq_true_2.
  - by rewrite Hidx, zip_with_seq_alter.
  - rewrite Hidx. apply elem_of_seq. lia.
Qed.

Lemma apply_updates_in_range df ups :
  index df = seq 0 (length (values df)) →
  "the_geom" ∈ columns df →
  Forall (λ up, up.1 < length (values df)) ups →
  apply_updates df ups = Frame (columns df) (index df) (written df ups).
Proof.
  intros Hidx Hcol Hups. unfold apply_updates. revert df Hidx Hcol Hups.
  induction ups as [|up ups IH]; intros df Hidx Hcol Hups.
  - by destruct df.
  - apply Forall_cons in Hups as [Hup Hups]. cbn [fold_left].
    rewrite (df_at_set_in_range _ _ _ Hidx Hcol Hup).
    rewrite IH; cbn [columns index values]; unfold write_geom.
    + done.
    + by rewrite length_alter.
    + done.
    + by rewrite length_alter.
Qed.

Lemma write_all_length cols ups (d : list (list cell)) :
  length (fold_left (λ d up, write_geom cols up d) ups d) = length d.
Proof.
  revert d. induction ups as [|up ups IH]; intros d; [done|].
  cbn [fold_left]. rewrite IH. apply length_alter.
Qed.

Lemma write_all_other cols ups (d : list (list cell)) i :
  i ∉ ups.*1 →
  fold_left (λ d up, write_geom cols up d) ups d !! i = d !! i.
Proof.
  revert d. induction ups as [|up ups IH]; intros d Hi; [done|].
  csimpl in Hi. apply not_elem_of_cons in Hi as [Hne Hi].
  cbn [fold_left]. rewrite (IH _ Hi). unfold write_geom.
  by rewrite list_lookup_alter_ne.
Qed.

Lemma write_all_key cols ups (d : list (list cell)) i utm :
  NoDup ups.*1 → (i, utm) ∈ ups →
  fold_left (λ d up, write_geom cols up d) ups d !! i =
    set_cell cols "the_geom" (CStr utm) <$> d !! i.
Proof.
  revert d. induction ups as [|up ups IH]; intros d Hnd Hin.
  - by apply elem_of_nil in Hin.
  - csimpl in Hnd. apply NoDup_cons in Hnd as [Hup Hnd]. cbn [fold_left].
    apply elem_of_cons in Hin as [<-|Hin].
    + rewrite (write_all_other _ _ _ _ Hup). unfold write_geom.
      by rewrite list_lookup_alter_eq.
    + rewrite (IH _ Hnd Hin). unfold write_geom.
      rewrite list_lookup_alter_ne; [done|].
      intros <-. apply Hup. apply list_elem_of_fmap. by exists (up.1, utm).
Qed.

Lemma cell_at_set_cell cols (r : list cell) v :
  "the_geom" ∈ cols → length r = length cols →
  cell_at cols "the_geom" (set_cell cols "the_geom" v r) = Some v.
Proof.
  intros Hin Hlen. unfold cell_at, set_cell.
  destruct (position_elem _ _ Hin) as [j Hj]. rewrite Hj. simpl.
  apply list_lookup_insert_eq. rewrite Hlen.
  apply position_Some in Hj. by eapply lookup_lt_Some.
Qed.

Lemma cell_at_set_cell_ne cols (r : list cell) c v :
  NoDup cols → c ≠ "the_geom" →
  cell_at cols c (set_cell cols "the_geom" v r) = cell_at cols c r.
Proof.
  intros Hnd Hne. unfold cell_at, set_cell.
  destruct (position "the_geom" cols) as [j|] eqn:Hj; [|done].
  destruct (position c cols) as [j'|] eqn:Hj'; [|done]. simpl.
  apply list_lookup_insert_ne. intros ->.
  apply position_Some in Hj, Hj'. congruence.
Qed.

Lemma set_cell_length cols c v (r : list cell) :
  length (set_cell cols c v r) = length r.
Proof. unfold set_cell. destruct (position c cols); [apply length_insert|done]. Qed.

(** *** Named tuples *)

Lemma dict_lookup_zip c cols (cells : list cell) :
  dict_lookup c (zip cols cells) = cell_at cols c cells.
Proof.
  unfold cell_at. revert cells.
  induction cols as [|c' cols IH]; intros cells; [done|].
  destruct cells as [|x cells]; simpl.
  - destruct (decide (c = c')); [done|]. by destruct (position c cols).
  - destruct (decide (c = c')); [done|]. rewrite IH.
    by destruct (position c cols).
Qed.

Lemma dict_lookup_zip_elem {A} (c : string) cols (vals : list A) x :
  dict_lookup c (zip cols vals) = Some x → c ∈ cols.
Proof.
  revert vals. induction cols as [|c' cols IH]; intros vals; [done|].
  destruct vals as [|v vals]; simpl; [done|].
  destruct (decide (c = c')) as [->|]; [left|]. intros H. right. by eapply IH.
Qed.

Lemma rename_fields_elem idx seen names x :
  x ∈ rename_fields idx seen names → x ∈ names ∨ starts_with "_" x = true.
Proof.
  revert idx seen. induction names as [|name names IH]; intros idx seen; simpl.
  - intros H. by apply elem_of_nil in H.
  - intros [->|H]%elem_of_cons.
    + unfold rename_field. destruct (_ || _); [by right|]. left. left.
    + destruct (IH _ _ H); [left; by right|by right].
Qed.

Lemma rename_fields_length idx seen names :
  length (rename_fields idx seen names) = length names.
Proof.
  revert idx seen. induction names as [|name names IH]; intros idx seen; simpl;
    [done|]. by rewrite IH.
Qed.

Lemma rename_fields_shape idx seen names x :
  x ∈ rename_fields idx seen names →
  (∃ k, idx ≤ k ∧ x = "_" +:+ pretty k) ∨
  (starts_with "_" x = false ∧ x ∈ names ∧ x ∉ seen).
Proof.
  revert idx seen. induction names as [|name names IH]; intros idx seen; simpl.
  - intros H. by apply elem_of_nil in H.
  - intros [->|H]%elem_of_cons.
    + unfold rename_field.
      destruct (negb (isidentifier name)); [left; by exists idx|].
      destruct (iskeyword name); [left; by exists idx|].
      destruct (starts_with "_" name) eqn:Hus; [left; by exists idx|].
      simpl. case_bool_decide as Hseen; [left; by exists idx|].
      right. split; [done|]. split; [left|done].
    + apply IH in H as [(k & Hk & ->)|(Hus & Hin & Hseen)].
      * left. exists k. split; [lia|done].
      * right. apply not_elem_of_cons in Hseen as [_ Hseen].
        split; [done|]. split; [by right|done].
Qed.

(** The field names of a named tuple are distinct. *)
Lemma rename_fields_NoDup idx seen names : NoDup (rename_fields idx seen names).
Proof.
  revert idx seen. induction names as [|name names IH]; intros idx seen; simpl.
  - constructor.
  - apply NoDup_cons. split; [|apply IH]. intros Hin.
    apply rename_fields_shape in Hin as [(k & Hk & Heq)|(Hus & Hin & Hseen)].
    + unfold rename_field in Heq. destruct (_ || _) eqn:Hb.
      * injection Heq as Heq. apply pretty_nat_inj in Heq. lia.
      * rewrite !orb_false_iff in Hb. destruct Hb as [[[_ _] Hus] _].
        rewrite Heq in Hus. done.
    + unfold rename_field in Hus, Hseen. destruct (_ || _) eqn:Hb.
      * done.
      * apply Hseen. left.
Qed.

(** More names than columns: one of them is no column. *)
Lemma fresh_name (names cols : list string) :
  NoDup names → length cols < length names → ∃ x, x ∈ names ∧ x ∉ cols.
Proof.
  intros Hnd Hlen.
  destruct (decide (Forall (λ x, x ∈ cols) names)) as [Hall|Hnot].
  - rewrite Forall_forall in Hall.
    pose proof (submseteq_length _ _ (NoDup_submseteq _ _ Hnd Hall)). lia.
  - apply not_Forall_Exists in Hnot; [|apply _].
    apply Exists_exists in Hnot as (x & Hx & Hnx). by exists x.
Qed.

(** A plain column label is the name of its own field. *)
Lemma dict_lookup_renamed c idx seen names (vals : list cell) :
  isidentifier c && negb (iskeyword c) && negb (starts_with "_" c) = true →
  c ∉ seen →
  dict_lookup c (zip (rename_fields idx seen names) vals) =
  dict_lookup c (zip names vals).
Proof.
  intros Hc. revert idx seen vals.
  induction names as [|name names IH]; intros idx seen vals Hseen; [done|].
  destruct vals as [|v vals]; [done|]. cbn [rename_fields zip zip_with dict_lookup].
  pose proof Hc as [[Hid Hkw]%andb_true_iff Hus]%andb_true_iff.
  apply negb_true_iff in Hkw, Hus.
  destruct (decide (c = name)) as [<-|Hne].
  - unfold rename_field. rewrite Hid, Hkw, Hus. simpl.
    rewrite bool_decide_eq_false_2 by done. by rewrite decide_True.
  - rewrite decide_False.
    + apply IH. apply not_elem_of_cons. by split.
    + unfold rename_field. destruct (_ || _); [|done].
      intros ->. simpl in Hus. done.
Qed.

Lemma getattr_plain c cols i (cells : list cell) :
  plain_name c = true →
  dict_lookup c (zip (fields_of cols) (CInt i :: cells)) = cell_at cols c cells.
Proof.
  intros [Hc Hidx%negb_true_iff]%andb_true_iff. apply String.eqb_neq in Hidx.
  unfold fields_of. rewrite dict_lookup_renamed; [|done|apply not_elem_of_nil].
  cbn [zip zip_with dict_lookup]. rewrite decide_False by done.
  apply dict_lookup_zip.
Qed.

Lemma plain_the_geom : plain_name "the_geom" = true.
Proof. reflexivity. Qed.

Lemma plain_endereco : plain_name "endereco" = true.
Proof. reflexivity. Qed.

Lemma itertuples_lookup df i :
  index df = seq 0 (length (values df)) →
  itertuples df !! i =
    (λ cells, zip (fields_of (columns df)) (CInt (Z.of_nat i) :: cells)) <$> values df !! i.
Proof.
  intros Hidx. unfold itertuples. rewrite lookup_zip_with, Hidx.
  destruct (values df !! i) as [cells|] eqn:Hc.
  - by rewrite lookup_seq_lt by by eapply lookup_lt_Some.
  - by destruct (seq 0 (length (values df)) !! i).
Qed.

Lemma itertuples_getattr df i r c :
  index df = seq 0 (length (values df)) →
  itertuples df !! i = Some r → plain_name c = true →
  getattr r c =
    match cell_of df i c with
    | Some x => Ok x
    | None => Raise AttributeError
    end.
Proof.
  intros Hidx Hr Hc. rewrite (itertuples_lookup _ _ Hidx) in Hr. unfold cell_of.
  destruct (values df !! i) as [cells|]; [|done].
  assert (r = zip (fields_of (columns df)) (CInt (Z.of_nat i) :: cells)) as ->
    by (symmetry; exact (Some_inj _ _ Hr)).
  unfold getattr. by rewrite (getattr_plain _ _ _ _ Hc).
Qed.

Lemma getattr_column df i r name c :
  index df = seq 0 (length (values df)) →
  itertuples df !! i = Some r →
  getattr r name = Ok c → starts_with "_" name = false → name ≠ "Index" →
  name ∈ columns df.
Proof.
  intros Hidx Hr Hget Hus Hne. rewrite (itertuples_lookup _ _ Hidx) in Hr.
  destruct (values df !! i) as [cells|]; [|done]. injection Hr as <-.
  unfold getattr in Hget.
  destruct (dict_lookup name _) as [x|] eqn:Hx; [|done].
  apply (dict_lookup_zip_elem name (fields_of (columns df))
           (CInt (Z.of_nat i) :: cells)) in Hx.
  unfold fields_of in Hx.
  apply rename_fields_elem in Hx as [Hx|Hx]; [|congruence].
  by apply elem_of_cons in Hx as [?|?].
Qed.

(** *** The units of work *)

Lemma rows_to_process_from_job k rows jobs j :
  rows_to_process_from k rows = Ok jobs → j ∈ jobs →
  k ≤ row_idx_of j ∧ rows !! (row_idx_of j - k) = Some j.1.2 ∧
  ∃ g s, getattr j.1.2 "the_geom" = Ok g ∧ pd_isna g = true ∧
         getattr j.1.2 "endereco" = Ok (CStr s) ∧ j.2 = address_query s.
Proof.
  revert k jobs. induction rows as [|r rows IH]; intros k jobs; simpl.
  - intros [= <-] H. by apply elem_of_nil in H.
  - destruct (getattr r "the_geom") as [g|] eqn:Hg; [|done]. rewrite bind_Ok.
    destruct (pd_isna g) eqn:Hna.
    + destruct (getattr r "endereco") as [a|] eqn:Ha; [|done]. rewrite bind_Ok.
      destruct a as [| | |s]; try done. simpl str_of_cell. rewrite bind_Ok.
      destruct (rows_to_process_from (S k) rows) as [jobs'|] eqn:Hrec; [|done].
      rewrite bind_Ok. intros [= <-] [->|Hin]%elem_of_cons.
      * unfold row_idx_of. simpl. rewrite Nat.sub_diag. simpl.
        split; [done|]. split; [done|]. by exists g, s.
      * destruct (IH _ _ Hrec Hin) as (Hle & Hrow & Hrest).
        split; [lia|]. split; [|done].
        replace (row_idx_of j - k) with (S (row_idx_of j - S k)) by lia. done.
    + intros Hrec Hin. destruct (IH _ _ Hrec Hin) as (Hle & Hrow & Hrest).
      split; [lia|]. split; [|done].
      replace (row_idx_of j - k) with (S (row_idx_of j - S k)) by lia. done.
Qed.

Lemma rows_to_process_from_row k rows jobs p r :
  rows_to_process_from k rows = Ok jobs → rows !! p = Some r →
  ∃ g, getattr r "the_geom" = Ok g ∧
       (pd_isna g = true →
        ∃ s, getattr r "endereco" = Ok (CStr s) ∧ (k + p, r, address_query s) ∈ jobs).
Proof.
  revert k jobs p. induction rows as [|r' rows IH]; intros k jobs p; simpl; [done|].
  destruct (getattr r' "the_geom") as [g|] eqn:Hg; [|done]. rewrite bind_Ok.
  destruct (pd_isna g) eqn:Hna.
  - destruct (getattr r' "endereco") as [a|] eqn:Ha; [|done]. rewrite bind_Ok.
    destruct a as [| | |s]; try done. simpl str_of_cell. rewrite bind_Ok.
    destruct (rows_to_process_from (S k) rows) as [jobs'|] eqn:Hrec; [|done].
    rewrite bind_Ok. intros [= <-] Hp. destruct p as [|p]; simpl in Hp.
    + injection Hp as <-. exists g. split; [done|]. intros _. exists s.
      split; [done|]. rewrite Nat.add_0_r. left.
    + destruct (IH _ _ _ Hrec Hp) as (g' & Hg' & Hjob). exists g'. split; [done|].
      intros Hna'. destruct (Hjob Hna') as (s' & Hs' & Hin). exists s'.
      split; [done|]. right. by replace (k + S p) with (S k + p) by lia.
  - intros Hrec Hp. destruct p as [|p]; simpl in Hp.
    + injection Hp as <-. exists g. split; [done|]. congruence.
    + destruct (IH _ _ _ Hrec Hp) as (g' & Hg' & Hjob). exists g'. split; [done|].
      intros Hna'. destruct (Hjob Hna') as (s' & Hs' & Hin). exists s'.
      split; [done|]. by replace (k + S p) with (S k + p) by lia.
Qed.

Lemma rows_to_process_from_NoDup k rows jobs :
  rows_to_process_from k rows = Ok jobs → NoDup (map row_idx_of jobs).
Proof.
  revert k jobs. induction rows as [|r rows IH]; intros k jobs; simpl.
  - intros [= <-]. constructor.
  - destruct (getattr r "the_geom") as [g|] eqn:Hg; [|done]. rewrite bind_Ok.
    destruct (pd_isna g) eqn:Hna; [|by apply IH].
    destruct (getattr r "endereco") as [a|] eqn:Ha; [|done]. rewrite bind_Ok.
    destruct a as [| | |s]; try done. simpl str_of_cell. rewrite bind_Ok.
    destruct (rows_to_process_from (S k) rows) as [jobs'|] eqn:Hrec; [|done].
    rewrite bind_Ok. intros [= <-]. simpl. apply NoDup_cons. split; [|by eapply IH].
    intros (j & Hj & Hin)%list_elem_of_fmap.
    destruct (rows_to_process_from_job _ _ _ _ Hrec Hin) as [Hle _].
    unfold row_idx_of in *. simpl in Hj. lia.
Qed.

Lemma rows_to_process_from_total k rows :
  Forall (λ r, ∃ g, getattr r "the_geom" = Ok g ∧
                    (pd_isna g = true → ∃ s, getattr r "endereco" = Ok (CStr s))) rows →
  ∃ jobs, rows_to_process_from k rows = Ok jobs.
Proof.
  intros H. revert k. induction H as [|r rows (g & Hg & Hs) _ IH]; intros k; simpl.
  - by eexists.
  - rewrite Hg, bind_Ok. destruct (pd_isna g); [|apply IH].
    destruct Hs as [s ->]; [done|]. rewrite bind_Ok. simpl str_of_cell.
    rewrite bind_Ok. destruct (IH (S k)) as [jobs ->]. by eexists.
Qed.

(** *** What one completed lookup can change *)

Lemma feature_step_zero row_idx r f st st1 :
  feature_step row_idx r 0 f st = Ok st1 →
  ∃ utm, st1 = State (dict_set row_idx utm (updates st)) (new_rows st) (printed st).
Proof.
  unfold feature_step.
  destruct (py_get f "geometry" VNone) as [g|]; [|done]. rewrite bind_Ok.
  destruct (py_get g "coordinates" VNone) as [c|]; [|done]. rewrite bind_Ok.
  rewrite decide_True by done.
  destruct (py_index c 1) as [c1|]; [|done]. rewrite bind_Ok.
  destruct (py_index c 0) as [c0|]; [|done]. rewrite bind_Ok.
  destruct (convert_lat_lon_to_UTM c1 c0) as [utm|]; [|done]. rewrite bind_Ok.
  intros [= <-]. by exists utm.
Qed.

Lemma feature_step_later row_idx r i f st st1 :
  feature_step row_idx r (S i) f st = Ok st1 →
  ∃ utm, st1 = State (updates st) (new_rows st ++ [clone r utm]) (printed st).
Proof.
  unfold feature_step.
  destruct (py_get f "geometry" VNone) as [g|]; [|done]. rewrite bind_Ok.
  destruct (py_get g "coordinates" VNone) as [c|]; [|done]. rewrite bind_Ok.
  rewrite decide_False by done. unfold duplicate_row_with_new_UTM.
  destruct (py_index c 1) as [c1|]; [|done]. rewrite bind_Ok.
  destruct (py_index c 0) as [c0|]; [|done]. rewrite bind_Ok.
  destruct (convert_lat_lon_to_UTM c1 c0) as [utm|]; [|done]. rewrite !bind_Ok.
  intros [= <-]. by exists utm.
Qed.

Lemma process_features_later row_idx r i fs st st' oe :
  process_features row_idx r (S i) fs st = (st', oe) →
  ∃ utms, st' = State (updates st) (new_rows st ++ map (clone r) utms) (printed st).
Proof.
  revert i st. induction fs as [|f fs IH]; intros i st; cbn [process_features].
  - intros [= <- <-]. exists []. rewrite app_nil_r. by destruct st.
  - destruct (feature_step row_idx r (S i) f st) as [st1|e] eqn:Hstep.
    + apply feature_step_later in Hstep as [utm ->]. intros Hrest.
      apply IH in Hrest as [utms ->]. exists (utm :: utms).
      cbn [updates new_rows printed map]. by rewrite <- app_assoc.
    + intros [= <- <-]. exists []. rewrite app_nil_r. by destruct st.
Qed.

Lemma process_features_zero row_idx r fs st st' oe :
  process_features row_idx r 0 fs st = (st', oe) →
  st' = st ∨
  ∃ utm utms, st' = State (dict_set row_idx utm (updates st))
                          (new_rows st ++ map (clone r) utms) (printed st).
Proof.
  destruct fs as [|f fs]; cbn [process_features].
  - intros [= <- <-]. by left.
  - destruct (feature_step row_idx r 0 f st) as [st1|e] eqn:Hstep.
    + apply feature_step_zero in Hstep as [utm ->]. intros Hrest.
      apply process_features_later in Hrest as [utms ->]. right. by exists utm, utms.
    + intros [= <- <-]. by left.
Qed.

(** One completed lookup either leaves [updates] and [new_rows] as they are,
    or writes the key of its own record and appends clones of that record. *)
Lemma process_completed_effect st (j : job) data :
  (updates (process_completed st (j, data)) = updates st ∧
   new_rows (process_completed st (j, data)) = new_rows st) ∨
  ∃ utm utms,
    updates (process_completed st (j, data)) =
      dict_set (row_idx_of j) utm (updates st) ∧
    new_rows (process_completed st (j, data)) =
      new_rows st ++ map (clone j.1.2) utms.
Proof.
  destruct j as [[row_idx r] endereco].
  unfold process_completed. destruct (truthy data); [|by left].
  destruct (_ ≫= _) as [fs|e]; [|by left].
  destruct (process_features row_idx r 0 fs st) as [st' oe] eqn:Hfs.
  apply process_features_zero in Hfs as [->|(utm & utms & ->)].
  - destruct oe; by left.
  - right. exists utm, utms. by destruct oe.
Qed.

Lemma process_completed_other st j data i :
  row_idx_of j ≠ i →
  dict_lookup i (updates (process_completed st (j, data))) =
  dict_lookup i (updates st).
Proof.
  intros Hne.
  destruct (process_completed_effect st j data)
    as [[-> _]|(utm & utms & -> & _)]; [done|].
  by apply dict_lookup_set_ne.
Qed.

Lemma process_completed_NoDup st j data :
  NoDup (updates st).*1 → NoDup (updates (process_completed st (j, data))).*1.
Proof.
  intros Hnd.
  destruct (process_completed_effect st j data)
    as [[-> _]|(utm & utms & -> & _)]; [done|].
  by apply dict_set_NoDup.
Qed.

Lemma process_completed_keys st j data k :
  k ∈ (updates (process_completed st (j, data))).*1 →
  k = row_idx_of j ∨ k ∈ (updates st).*1.
Proof.
  destruct (process_completed_effect st j data)
    as [[-> _]|(utm & utms & -> & _)]; [by right|].
  rewrite dict_set_keys. case_bool_decide; [by right|].
  intros [?|Hk]%elem_of_app; [by right|].
  apply list_elem_of_singleton in Hk as ->. by left.
Qed.

(** *** The whole loop *)

Lemma fold_process_NoDup completed st :
  NoDup (updates st).*1 →
  NoDup (updates (fold_left process_completed completed st)).*1.
Proof.
  revert st. induction completed as [|[j data] completed IH]; intros st Hnd; [done|].
  cbn [fold_left]. apply IH. by apply process_completed_NoDup.
Qed.

Lemma fold_process_keys completed st k :
  k ∈ (updates (fold_left process_completed completed st)).*1 →
  k ∈ (updates st).*1 ∨ k ∈ map row_idx_of completed.*1.
Proof.
  revert st. induction completed as [|[j data] completed IH]; intros st; [by left|].
  cbn [fold_left]. intros [Hk|Hk]%IH.
  - apply process_completed_keys in Hk as [->|Hk]; [right; left|by left].
  - right. by right.
Qed.

(** A key is left alone by lookups of other records and by empty results. *)
Lemma fold_process_untouched completed st i :
  (∀ j data, (j, data) ∈ completed → row_idx_of j = i → empty_result data) →
  dict_lookup i (updates (fold_left process_completed completed st)) =
  dict_lookup i (updates st).
Proof.
  revert st. induction completed as [|[j data] completed IH]; intros st H; [done|].
  cbn [fold_left]. rewrite IH.
  - destruct (decide (row_idx_of j = i)) as [Heq|Hne].
    + rewrite process_completed_empty; [done|]. eapply H; [left|done].
    + by apply process_completed_other.
  - intros j' data' Hin. apply H. by right.
Qed.

Lemma fold_process_new_rows completed st :
  ∃ extra, new_rows (fold_left process_completed completed st) = new_rows st ++ extra.
Proof.
  revert st. induction completed as [|[j data] completed IH]; intros st.
  - exists []. by rewrite app_nil_r.
  - cbn [fold_left]. destruct (IH (process_completed st (j, data))) as [extra ->].
    destruct (process_completed_effect st j data)
      as [[_ ->]|(utm & utms & _ & ->)]; [by eexists|].
    eexists. by rewrite <- app_assoc.
Qed.

(** *** The final merge *)

Lemma union_keys_seen seen dicts k : k ∈ seen → k ∈ union_keys seen dicts.
Proof.
  revert seen. induction dicts as [|d dicts IH]; intros seen Hk; [done|].
  simpl. apply IH. apply elem_of_app. by left.
Qed.

Lemma union_keys_elem seen dicts (d : row) k :
  d ∈ dicts → k ∈ d.*1 → k ∈ union_keys seen dicts.
Proof.
  revert seen. induction dicts as [|d' dicts IH]; intros seen Hd Hk.
  - by apply elem_of_nil in Hd.
  - simpl. apply elem_of_cons in Hd as [<-|Hd]; [|by apply IH].
    apply union_keys_seen. apply elem_of_app.
    destruct (decide (k ∈ seen)) as [?|Hn]; [by left|right].
    apply list_elem_of_filter. split; [done|]. by apply elem_of_remove_dups.
Qed.

Lemma written_length df ups : length (written df ups) = length (values df).
Proof. apply write_all_length. Qed.

Lemma written_row_length df ups :
  Forall (λ r, length r = length (columns df)) (values df) →
  Forall (λ r, length r = length (columns df)) (written df ups).
Proof.
  unfold written. generalize (values df).
  induction ups as [|up ups IH]; intros d Hd; [done|].
  cbn [fold_left]. apply IH. unfold write_geom.
  apply Forall_lookup. intros i r Hr.
  destruct (decide (up.1 = i)) as [<-|Hne].
  - rewrite list_lookup_alter_eq in Hr.
    destruct (d !! up.1) as [r0|] eqn:Hr0; [|done]. injection Hr as <-.
    rewrite set_cell_length. by eapply (Forall_lookup_1 _ _ _ _ Hd).
  - rewrite list_lookup_alter_ne in Hr by done. by eapply (Forall_lookup_1 _ _ _ _ Hd).
Qed.

Lemma merge_in_range df st :
  index df = seq 0 (length (values df)) →
  "the_geom" ∈ columns df →
  Forall (λ up, up.1 < length (values df)) (updates st) →
  merge df st =
    match new_rows st with
    | [] => Frame (columns df) (index df) (written df (updates st))
    | _ => pd_concat (Frame (columns df) (index df) (written df (updates st)))
                     (pd_DataFrame (new_rows st))
    end.
Proof.
  intros Hidx Hcol Hups. unfold merge.
  by rewrite (apply_updates_in_range _ _ Hidx Hcol Hups).
Qed.

Lemma merge_columns df st :
  index df = seq 0 (length (values df)) →
  "the_geom" ∈ columns df →
  Forall (λ up, up.1 < length (values df)) (updates st) →
  columns (merge df st) =
    match new_rows st with
    | [] => columns df
    | _ => columns df ++ filter (λ c, c ∉ columns df) (union_keys [] (new_rows st))
    end.
Proof.
  intros Hidx Hcol Hups. rewrite (merge_in_range _ _ Hidx Hcol Hups).
  by destruct (new_rows st).
Qed.

Lemma merge_length df st :
  index df = seq 0 (length (values df)) →
  "the_geom" ∈ columns df →
  Forall (λ up, up.1 < length (values df)) (updates st) →
  length (values (merge df st)) = length (values df) + length (new_rows st).
Proof.
  intros Hidx Hcol Hups. rewrite (merge_in_range _ _ Hidx Hcol Hups).
  destruct (new_rows st) as [|d ds] eqn:Hn.
  - cbn [values length]. rewrite written_length. lia.
  - unfold pd_concat, pd_DataFrame. cbn [values columns].
    rewrite length_app, !length_map, written_length. done.
Qed.

(** A record of the table read keeps its position, and each of its cells is
    the cell of the row once the updates are written, taken into the dtype
    of its column when rows are appended. *)
Lemma merge_cell df st i c w :
  read_csv_frame df →
  "the_geom" ∈ columns df →
  Forall (λ up, up.1 < length (values df)) (updates st) →
  c ∈ columns df →
  written df (updates st) !! i = Some w →
  cell_of (merge df st) i c = taken df st c <$> cell_at (columns df) c w.
Proof.
  intros (Hnd & Hidx & Hlen) Hcol Hups Hc Hw.
  rewrite (merge_in_range _ _ Hidx Hcol Hups). unfold cell_of, taken.
  assert (length w = length (columns df)) as Hwl.
  { eapply (Forall_lookup_1 _ _ _ _ (written_row_length _ _ Hlen)). exact Hw. }
  destruct (cell_at_is_Some c (columns df) w Hc Hwl) as [x Hx].
  destruct (new_rows st) as [|d ds] eqn:Hn; cbn [values columns].
  - by rewrite Hw, Hx.
  - unfold pd_concat. cbn [values columns].
    rewrite lookup_app_l by (rewrite length_map; by eapply lookup_lt_Some).
    change (map ?f (written df (updates st))) with (f <$> written df (updates st)).
    rewrite list_lookup_fmap, Hw, Hx. cbn [fmap option_fmap option_map mbind option_bind].
    unfold merged_dtype. rewrite Hn.
    apply cell_at_reindex; [|done]. apply elem_of_app. by left.
Qed.

Lemma taken_widened df st c x : widened x (taken df st c x).
Proof. unfold taken. destruct (new_rows st); [by left|apply astype_widened]. Qed.

(** The rows appended: one per new row, after the records of the table read;
    each holds, under every column of the table written, the value the new
    row has under that key, or NaN, taken into the dtype of the column. *)
Lemma merge_new_row df st p :
  index df = seq 0 (length (values df)) →
  "the_geom" ∈ columns df →
  Forall (λ up, up.1 < length (values df)) (updates st) →
  values (merge df st) !! (length (values df) + p) =
    (λ d, map (λ c, astype (merged_dtype df st c)
                      (astype (infer_dtype (map (value_of c) (new_rows st)))
                              (value_of c d)))
              (columns (merge df st)))
      <$> new_rows st !! p.
Proof.
  intros Hidx Hcol Hups. unfold merged_dtype.
  rewrite (merge_in_range _ _ Hidx Hcol Hups).
  destruct (new_rows st) as [|d0 ds] eqn:Hn.
  - cbn [values columns]. rewrite lookup_nil. apply lookup_ge_None.
    rewrite written_length. lia.
  - rewrite <- Hn. assert (Hcols : ∀ d k, d ∈ new_rows st → k ∈ d.*1 →
                             k ∈ union_keys [] (new_rows st)).
    { intros d k. apply union_keys_elem. }
    set (a := Frame (columns df) (index df) (written df (updates st))).
    set (b := pd_DataFrame (new_rows st)).
    set (colsB := union_keys [] (new_rows st)) in *.
    assert (columns b = colsB) as Hcb by done.
    assert (values b =
            (λ d, map (λ c, astype (infer_dtype (map (value_of c) (new_rows st)))
                                   (value_of c d)) colsB) <$> new_rows st) as Hvb by done.
    unfold pd_concat. cbn [values columns]. rewrite Hcb, Hvb.
    change (values a) with (written df (updates st)).
    change (columns a) with (columns df).
    set (cols' := columns df ++ filter (λ c, c ∉ columns df) colsB).
    rewrite lookup_app_r by (rewrite length_map, written_length; lia).
    rewrite length_map, written_length.
    replace (length (values df) + p - length (values df)) with p by lia.
    change (map ?f (?g <$> new_rows st)) with (f <$> (g <$> new_rows st)).
    rewrite !list_lookup_fmap.
    assert (∃ o, new_rows st !! p = o) as [o Hd] by by eexists.
    unfold row in *. rewrite Hd. destruct o as [d|]; [|reflexivity].
    cbn [fmap option_fmap option_map]. f_equal.
    unfold reindex. apply map_ext_in. intros c _. f_equal.
    destruct (decide (c ∈ colsB)) as [Hin|Hout].
    + by rewrite (cell_at_map _ _ _ Hin).
    + unfold cell_at at 1. rewrite (position_None _ _ Hout).
      cbn [mbind option_bind default]. unfold value_of.
      rewrite (proj2 (dict_lookup_None c d)); [by destruct (infer_dtype _)|].
      intros Hk. apply Hout. eapply Hcols; [|done]. by eapply list_elem_of_lookup_2.
Qed.

(** The cells of a column of [pd.DataFrame(dicts)]. *)
Lemma column_pd_DataFrame (dicts : list row) c :
  c ∈ union_keys [] dicts →
  column (pd_DataFrame dicts) c =
    Some (map (λ d, astype (infer_dtype (map (value_of c) dicts)) (value_of c d)) dicts).
Proof.
  intros Hc. unfold column, pd_DataFrame. cbn [columns values].
  destruct (position_elem _ _ Hc) as [k Hk]. rewrite Hk.
  cbn [mbind option_bind]. f_equal. rewrite map_map. apply map_ext. intros d.
  pose proof (position_Some _ _ _ Hk) as Hck.
  change (map ?f (union_keys [] dicts)) with (f <$> union_keys [] dicts).
  by rewrite list_lookup_fmap, Hck.
Qed.

Lemma column_None df c : c ∉ columns df → column df c = None.
Proof. intros Hc. unfold column. by rewrite (position_None _ _ Hc). Qed.

(** A cell of an appended row. *)
Lemma merge_appended_cell df st p d c :
  index df = seq 0 (length (values df)) →
  "the_geom" ∈ columns df →
  Forall (λ up, up.1 < length (values df)) (updates st) →
  new_rows st !! p = Some d →
  c ∈ columns (merge df st) →
  cell_of (merge df st) (length (values df) + p) c =
    Some (astype (merged_dtype df st c)
            (astype (infer_dtype (map (value_of c) (new_rows st))) (value_of c d))).
Proof.
  intros Hidx Hgeom Hrange Hd Hc. unfold cell_of.
  pose proof (merge_new_row df st p Hidx Hgeom Hrange) as Hrow.
  unfold row in *. rewrite Hd in Hrow. rewrite Hrow.
  cbn [fmap option_fmap option_map mbind option_bind].
  by rewrite (cell_at_map _ _ _ Hc).
Qed.

(** *** Units of work and the table they come from *)

Lemma job_row df jobs j :
  index df = seq 0 (length (values df)) →
  rows_to_process df = Ok jobs → j ∈ jobs →
  itertuples df !! row_idx_of j = Some j.1.2 ∧
  row_idx_of j < length (values df) ∧ "the_geom" ∈ columns df.
Proof.
  intros Hidx Hjobs Hj.
  destruct (rows_to_process_from_job _ _ _ _ Hjobs Hj)
    as (_ & Hrow & g & s & Hg & _).
  rewrite Nat.sub_0_r in Hrow. split; [done|]. split.
  - rewrite (itertuples_lookup _ _ Hidx) in Hrow.
    destruct (values df !! row_idx_of j) eqn:Hd; [|done]. by eapply lookup_lt_Some.
  - by eapply (getattr_column df _ _ "the_geom" g Hidx Hrow Hg).
Qed.

Lemma reconcile_in_range df jobs completed :
  index df = seq 0 (length (values df)) →
  rows_to_process df = Ok jobs →
  (∀ j, j ∈ completed.*1 → j ∈ jobs) →
  Forall (λ up, up.1 < length (values df)) (updates (reconcile completed)).
Proof.
  intros Hidx Hjobs Hsub. apply Forall_forall. intros up Hup.
  assert (up.1 ∈ (updates (reconcile completed)).*1) as Hk
    by by apply list_elem_of_fmap_2.
  apply fold_process_keys in Hk as [Hk|Hk]; [by apply elem_of_nil in Hk|].
  apply list_elem_of_fmap in Hk as (j & -> & Hj).
  by destruct (job_row _ _ _ Hidx Hjobs (Hsub _ Hj)) as (_ & ? & _).
Qed.

Lemma reconcile_nil_merge df : merge df (reconcile []) = df.
Proof. by destruct df. Qed.

(** Rows are appended only by a lookup that also writes an entry. *)
Lemma reconcile_new_rows_updates completed :
  new_rows (reconcile completed) = [] ∨ updates (reconcile completed) ≠ [].
Proof.
  unfold reconcile.
  assert (∀ st, new_rows st = [] ∨ updates st ≠ [] →
            new_rows (fold_left process_completed completed st) = [] ∨
            updates (fold_left process_completed completed st) ≠ []) as H;
    [|apply H; by left].
  induction completed as [|[j data] completed IH]; intros st Hst; [done|].
  cbn [fold_left]. apply IH.
  destruct (process_completed_effect st j data)
    as [[-> ->]|(utm & utms & -> & _)]; [done|].
  right. clear. by destruct (updates st) as [|[k v] d]; cbn; [|case_decide].
Qed.

(** Once an entry is written, the geometry column holds a string. *)
Lemma written_geom_column df ups i utm :
  read_csv_frame df → "the_geom" ∈ columns df →
  NoDup ups.*1 → (i, utm) ∈ ups → i < length (values df) →
  ∃ cells,
    column (Frame (columns df) (index df) (written df ups)) "the_geom" = Some cells ∧
    CStr utm ∈ cells.
Proof.
  intros (Hnd & Hidx & Hlen) Hgeom Hups Hin Hlt.
  destruct (position_elem _ _ Hgeom) as [k Hk].
  destruct (lookup_lt_is_Some_2 (values df) i Hlt) as [r0 Hr0].
  eexists. split.
  { unfold column. cbn [columns values]. by rewrite Hk. }
  apply list_elem_of_fmap.
  exists (set_cell (columns df) "the_geom" (CStr utm) r0). split.
  - unfold set_cell. rewrite Hk, list_lookup_insert_eq; [done|].
    rewrite (Forall_lookup_1 _ _ _ _ Hlen Hr0).
    apply position_Some in Hk. by eapply lookup_lt_Some.
  - apply (list_elem_of_lookup_2 _ i). unfold written.
    by rewrite (write_all_key _ _ _ _ _ Hups Hin), Hr0.
Qed.

(** So the geometry column of the table written is an [object] column, and
    its cells are taken as they are. *)
Lemma taken_geom df jobs completed x :
  read_csv_frame df →
  rows_to_process df = Ok jobs →
  (∀ j, j ∈ completed.*1 → j ∈ jobs) →
  "the_geom" ∈ columns df →
  taken df (reconcile completed) "the_geom" x = x.
Proof.
  intros Hwf Hjobs Hsub Hgeom. pose proof Hwf as (Hcols & Hidx & Hlen).
  unfold taken. destruct (new_rows (reconcile completed)) as [|d ds] eqn:Hn; [done|].
  destruct (reconcile_new_rows_updates completed) as [Hnil|Hup]; [congruence|].
  destruct (updates (reconcile completed)) as [|[i utm] ups] eqn:Hu; [done|].
  pose proof (reconcile_in_range _ _ _ Hidx Hjobs Hsub) as Hrange.
  pose proof (fold_process_NoDup completed (State [] [] []) (NoDup_nil_2 : NoDup []))
    as Hkeys. fold (reconcile completed) in Hkeys.
  rewrite Hu in Hrange, Hkeys. apply Forall_cons in Hrange as [Hlt _].
  destruct (written_geom_column df ((i, utm) :: ups) i utm Hwf Hgeom Hkeys)
    as (cells & Hcol & Hin); [left|done|].
  unfold merged_dtype, concat_dtype. rewrite Hu, Hcol.
  cbn [fmap option_fmap option_map].
  rewrite (infer_dtype_string _ _ Hin), common_dtype_object. apply astype_object.
Qed.

(** A record no lookup writes is found again in the table written: its
    geometry as it was, every other cell as it was or, an integer, as the
    float its column now holds. *)
Lemma merge_untouched df jobs completed i c :
  read_csv_frame df →
  rows_to_process df = Ok jobs →
  (∀ j, j ∈ completed.*1 → j ∈ jobs) →
  i ∉ (updates (reconcile completed)).*1 →
  i < length (values df) → c ∈ columns df →
  ∃ x, cell_of df i c = Some x ∧
       cell_of (merge df (reconcile completed)) i c =
         Some (taken df (reconcile completed) c x).
Proof.
  intros Hwf Hjobs Hsub Hi Hlt Hc. pose proof Hwf as (Hnd & Hidx & Hlen).
  destruct (lookup_lt_is_Some_2 (values df) i Hlt) as [cells Hcells].
  destruct (cell_at_is_Some c (columns df) cells Hc) as [x Hx].
  { by eapply (Forall_lookup_1 _ _ _ _ Hlen). }
  exists x. split; [unfold cell_of; by rewrite Hcells|].
  destruct completed as [|[j0 data0] completed'] eqn:Hcompl.
  { rewrite reconcile_nil_merge. unfold cell_of, taken. cbn. by rewrite Hcells. }
  rewrite <- Hcompl in *.
  assert (j0 ∈ jobs) as Hj0. { apply Hsub. rewrite Hcompl. left. }
  destruct (job_row _ _ _ Hidx Hjobs Hj0) as (_ & _ & Hgeom).
  pose proof (reconcile_in_range _ _ _ Hidx Hjobs Hsub) as Hrange.
  rewrite (merge_cell df _ i c cells Hwf Hgeom Hrange Hc); [by rewrite Hx|].
  unfold written. by rewrite write_all_other.
Qed.

Lemma merge_untouched_geom df jobs completed i :
  read_csv_frame df →
  rows_to_process df = Ok jobs →
  (∀ j, j ∈ completed.*1 → j ∈ jobs) →
  i ∉ (updates (reconcile completed)).*1 →
  i < length (values df) → "the_geom" ∈ columns df →
  cell_of (merge df (reconcile completed)) i "the_geom" = cell_of df i "the_geom".
Proof.
  intros Hwf Hjobs Hsub Hi Hlt Hgeom.
  destruct (merge_untouched _ _ _ _ _ Hwf Hjobs Hsub Hi Hlt Hgeom) as (x & -> & ->).
  by rewrite (taken_geom _ _ _ _ Hwf Hjobs Hsub Hgeom).
Qed.

(** The whole record is the same when no row was appended. *)
Lemma merge_untouched_row df jobs completed i :
  read_csv_frame df →
  rows_to_process df = Ok jobs →
  (∀ j, j ∈ completed.*1 → j ∈ jobs) →
  i ∉ (updates (reconcile completed)).*1 →
  new_rows (reconcile completed) = [] →
  values (merge df (reconcile completed)) !! i = values df !! i.
Proof.
  intros Hwf Hjobs Hsub Hi Hnew.
  destruct completed as [|[j0 data0] completed'] eqn:Hcompl.
  { by rewrite reconcile_nil_merge. }
  rewrite <- Hcompl in *.
  assert (j0 ∈ jobs) as Hj0. { apply Hsub. rewrite Hcompl. left. }
  destruct Hwf as (Hnd & Hidx & Hlen).
  destruct (job_row _ _ _ Hidx Hjobs Hj0) as (_ & _ & Hgeom).
  pose proof (reconcile_in_range _ _ _ Hidx Hjobs Hsub) as Hrange.
  rewrite (merge_in_range _ _ Hidx Hgeom Hrange), Hnew. cbn [values].
  unfold written. by rewrite write_all_other.
Qed.

Lemma no_job_for_geometry df jobs i r g :
  rows_to_process df = Ok jobs →
  itertuples df !! i = Some r → getattr r "the_geom" = Ok g → pd_isna g = false →
  i ∉ map row_idx_of jobs.
Proof.
  intros Hjobs Hr Hg Hna (j & -> & Hj)%list_elem_of_fmap.
  destruct (rows_to_process_from_job _ _ _ _ Hjobs Hj)
    as (_ & Hrow & g' & s & Hg' & Hna' & _).
  rewrite Nat.sub_0_r in Hrow. congruence.
Qed.

Lemma NoDup_fmap_eq {A B} (f : A → B) (l : list A) x y :
  NoDup (f <$> l) → x ∈ l → y ∈ l → f x = f y → x = y.
Proof.
  induction l as [|a l IH]; csimpl; intros Hnd Hx Hy Hf.
  - by apply elem_of_nil in Hx.
  - apply NoDup_cons in Hnd as [Ha Hnd].
    apply elem_of_cons in Hx as [->|Hx]; apply elem_of_cons in Hy as [->|Hy].
    + done.
    + exfalso. apply Ha. rewrite Hf. by apply list_elem_of_fmap_2.
    + exfalso. apply Ha. rewrite <- Hf. by apply list_elem_of_fmap_2.
    + by apply IH.
Qed.

(** X17. A record whose geometry is not missing gets no unit of work, so no
    lookup is dispatched for it; whatever the lookups of the other records
    return and in whatever order they complete, its label is never a key of
    [updates] and its geometry cell is the same in the table written; every
    other cell it has under a column of the table read is the same too, or
    is the same integer as a float when rows were appended; and the record
    is the same row when no row was appended. *)
Theorem geometry_kept df jobs i r g :
  read_csv_frame df →
  rows_to_process df = Ok jobs →
  itertuples df !! i = Some r →
  getattr r "the_geom" = Ok g → pd_isna g = false →
  (i ∉ map row_idx_of jobs) ∧
  ∀ completed,
    (∀ j, j ∈ completed.*1 → j ∈ jobs) →
    (i ∉ (updates (reconcile completed)).*1) ∧
    cell_of (merge df (reconcile completed)) i "the_geom" = Some g ∧
    (∀ c, c ∈ columns df →
       ∃ x y, cell_of df i c = Some x ∧
              cell_of (merge df (reconcile completed)) i c = Some y ∧
              widened x y ∧
              (new_rows (reconcile completed) = [] → y = x)) ∧
    (new_rows (reconcile completed) = [] →
       values (merge df (reconcile completed)) !! i = values df !! i).
Proof.
  intros Hwf Hjobs Hr Hg Hna. pose proof Hwf as (_ & Hidx & _).
  pose proof (no_job_for_geometry _ _ _ _ _ Hjobs Hr Hg Hna) as Hnojob.
  split; [done|]. intros completed Hsub.
  assert (i ∉ (updates (reconcile completed)).*1) as Hi.
  { intros [Hk|Hk]%fold_process_keys; [by apply elem_of_nil in Hk|].
    apply Hnojob. apply list_elem_of_fmap in Hk as (j & -> & Hj).
    apply list_elem_of_fmap_2. by apply Hsub. }
  assert (i < length (values df)) as Hlt.
  { rewrite (itertuples_lookup _ _ Hidx) in Hr.
    destruct (values df !! i) eqn:Hd; [|done]. by eapply lookup_lt_Some. }
  assert ("the_geom" ∈ columns df) as Hgeom
    by by eapply (getattr_column df _ _ "the_geom" g Hidx Hr Hg).
  split; [done|]. split; [|split].
  - rewrite (merge_untouched_geom _ _ _ _ Hwf Hjobs Hsub Hi Hlt Hgeom).
    rewrite (itertuples_getattr _ _ _ _ Hidx Hr plain_the_geom) in Hg.
    by destruct (cell_of df i "the_geom"); simplify_eq.
  - intros c Hc.
    destruct (merge_untouched _ _ _ _ _ Hwf Hjobs Hsub Hi Hlt Hc) as (x & Hx & Hy).
    exists x, (taken df (reconcile completed) c x).
    split_and!; [done|done|apply taken_widened|].
    intros Hnew. unfold taken. by rewrite Hnew.
  - intros Hnew. by eapply merge_untouched_row.
Qed.

Lemma fold_process_all_empty completed st :
  Forall (λ jd, empty_result jd.2) completed →
  fold_left process_completed completed st = st.
Proof.
  intros H. revert st. induction H as [|[j data] completed Hjd _ IH]; intros st; [done|].
  cbn [fold_left]. by rewrite process_completed_empty, IH.
Qed.

(** C4. A lookup whose result is empty changes neither [updates] nor
    [new_rows], and the loop prints no line for it, so it ends in the state it would
    reach without that lookup; in the table written the record it was made
    for still has its missing geometry, and every other cell it had, an
    integer possibly as a float when another lookup appended rows. When
    every lookup of a run returns an empty result, the table written is the
    table read. *)
Theorem empty_result_changes_nothing st j data :
  empty_result data →
  process_completed st (j, data) = st ∧
  (∀ before after,
     reconcile (before ++ (j, data) :: after) = reconcile (before ++ after)) ∧
  (∀ requests_get api_type schedule df jobs,
     rows_to_process df = Ok jobs →
     Forall (λ j', empty_result (fetch_geocode requests_get j'.2 api_type).1)
            (schedule jobs) →
     ∃ lines, main requests_get api_type schedule df = Ok (df, lines)) ∧
  ∀ df jobs completed,
    read_csv_frame df →
    rows_to_process df = Ok jobs →
    (∀ j', j' ∈ completed.*1 → j' ∈ jobs) →
    NoDup (map row_idx_of completed.*1) →
    (j, data) ∈ completed →
    (∃ g, cell_of df (row_idx_of j) "the_geom" = Some g ∧
          cell_of (merge df (reconcile completed)) (row_idx_of j) "the_geom" = Some g ∧
          pd_isna g = true) ∧
    ∀ c, c ∈ columns df →
      ∃ x y, cell_of df (row_idx_of j) c = Some x ∧
             cell_of (merge df (reconcile completed)) (row_idx_of j) c = Some y ∧
             widened x y ∧
             (new_rows (reconcile completed) = [] → y = x).
Proof.
  intros Hempty. split; [by apply process_completed_empty|]. split.
  { intros before after. unfold reconcile. rewrite !fold_left_app. cbn [fold_left].
    by rewrite process_completed_empty. }
  split.
  { intros requests_get api_type schedule df jobs Hjobs Hall.
    unfold main. rewrite Hjobs, bind_Ok. unfold as_completed, reconcile.
    rewrite fold_process_all_empty.
    - change (State [] [] []) with (reconcile []).
      rewrite (reconcile_nil_merge df). by eexists.
    - rewrite !Forall_map. eapply Forall_impl; [exact Hall|]. by intros j'. }
  intros df jobs completed Hwf Hjobs Hsub Hnd Hin.
  assert (j ∈ jobs) as Hj.
  { apply Hsub. apply list_elem_of_fmap. by exists (j, data). }
  pose proof Hwf as (Hcols & Hidx & Hlen).
  destruct (job_row _ _ _ Hidx Hjobs Hj) as (Hrow & Hlt & Hgeom).
  assert (row_idx_of j ∉ (updates (reconcile completed)).*1) as Hkey.
  { apply dict_lookup_None. unfold reconcile.
    rewrite fold_process_untouched; [done|]. intros j' data' Hin' Hidx'.
    assert ((j', data') = (j, data)) as [= -> ->]; [|done].
    apply (NoDup_fmap_eq (row_idx_of ∘ fst) completed); try done.
    by rewrite list_fmap_compose. }
  split.
  - rewrite (merge_untouched_geom _ _ _ _ Hwf Hjobs Hsub Hkey Hlt Hgeom).
    destruct (rows_to_process_from_job _ _ _ _ Hjobs Hj)
      as (_ & _ & g & s & Hg & Hna & _).
    exists g.
    rewrite (itertuples_getattr _ _ _ _ Hidx Hrow plain_the_geom) in Hg.
    by destruct (cell_of df (row_idx_of j) "the_geom"); simplify_eq.
  - intros c Hc.
    destruct (merge_untouched _ _ _ _ _ Hwf Hjobs Hsub Hkey Hlt Hc) as (x & Hx & Hy).
    exists x, (taken df (reconcile completed) c x).
    split_and!; [done|done|apply taken_widened|].
    intros Hnew. unfold taken. by rewrite Hnew.
Qed.

(** *** Clones *)

Lemma clone_geom r u : dict_lookup "the_geom" (clone r u) = Some (CStr u).
Proof. apply dict_lookup_set. Qed.

Lemma clone_other r u k :
  k ≠ "the_geom" → dict_lookup k (clone r u) = dict_lookup k r.
Proof. intros Hk. unfold clone, asdict. by apply dict_lookup_set_ne. Qed.

Lemma clone_keys (r : row) u : "the_geom" ∈ r.*1 → (clone r u).*1 = r.*1.
Proof.
  intros Hin. unfold clone, asdict. rewrite dict_set_keys.
  by rewrite bool_decide_eq_true_2.
Qed.

Lemma reconcile_split before x after :
  reconcile (before ++ x :: after) =
  fold_left process_completed after (process_completed (reconcile before) x).
Proof. unfold reconcile. by rewrite fold_left_app. Qed.

(** *** The label field *)

Lemma itertuples_Index df i r :
  index df = seq 0 (length (values df)) →
  itertuples df !! i = Some r →
  dict_lookup "Index" r = Some (CInt (Z.of_nat i)).
Proof.
  intros Hidx Hr. rewrite (itertuples_lookup _ _ Hidx) in Hr.
  destruct (values df !! i) as [cells|]; [|done].
  by assert (r = zip (fields_of (columns df)) (CInt (Z.of_nat i) :: cells)) as ->
    by (symmetry; exact (Some_inj _ _ Hr)).
Qed.

Lemma duplicate_row_is_clone (r : row) coordinates new_row :
  duplicate_row_with_new_UTM r coordinates = Ok new_row →
  ∃ utm, new_row = clone r utm.
Proof.
  unfold duplicate_row_with_new_UTM.
  destruct (py_index coordinates 1) as [c1|]; [|done]. rewrite bind_Ok.
  destruct (py_index coordinates 0) as [c0|]; [|done]. rewrite bind_Ok.
  destruct (convert_lat_lon_to_UTM c1 c0) as [utm|]; [|done]. rewrite bind_Ok.
  intros [= <-]. by exists utm.
Qed.

Lemma dict_lookup_key {A} (k : string) (d : list (string * A)) v :
  dict_lookup k d = Some v → k ∈ d.*1.
Proof.
  intros H%dict_lookup_Some_elem. apply list_elem_of_fmap. by exists (k, v).
Qed.


(** *** Reprojection *)

Lemma convert_point lon lat x y :
  transform lon lat = Ok (x, y) →
  convert_lat_lon_to_UTM lat lon =
    Ok ("POINT(" +:+ py_format x +:+ " " +:+ py_format y +:+ ")").
Proof. intros H. unfold convert_lat_lon_to_UTM. by rewrite H. Qed.

Lemma rows_to_process_one df cells s g :
  read_csv_frame df →
  values df = [cells] →
  cell_of df 0 "endereco" = Some (CStr s) →
  cell_of df 0 "the_geom" = Some g → pd_isna g = true →
  ∃ r, itertuples df = [r] ∧
       rows_to_process df = Ok [(0, r, address_query s)].
Proof.
  intros (Hcols & Hidx & Hlen) Hvalues Haddr Hgeom Hna.
  exists (zip (fields_of (columns df)) (CInt 0 :: cells)).
  assert (itertuples df = [zip (fields_of (columns df)) (CInt 0 :: cells)]) as Hit.
  { unfold itertuples. by rewrite Hidx, Hvalues. }
  split; [done|]. unfold rows_to_process. rewrite Hit.
  assert (itertuples df !! 0 = Some (zip (fields_of (columns df)) (CInt 0 :: cells)))
    as Hr by by rewrite Hit.
  cbn [rows_to_process_from].
  rewrite (itertuples_getattr _ _ _ _ Hidx Hr plain_the_geom), Hgeom, bind_Ok, Hna.
  rewrite (itertuples_getattr _ _ _ _ Hidx Hr plain_endereco), Haddr, bind_Ok.
  done.
Qed.

(** C2. The geometry written for a pair [[lon, lat]] of a response is the
    string [POINT(x y)], where [(x, y)] is what the transformer returns for
    [(lon, lat)]: in [updates] for the first feature, in the clone for a later
    one. For the table of one record with a missing geometry and the address
    [RUA A, 10 - PARANA], when the geoapify endpoint answers with one feature
    at [[-51.0, -25.5]], the table written is the table read with that string
    in the geometry cell of the record, and no row more. *)
Theorem geometry_is_projected_point :
  (∀ lon lat x y,
     transform lon lat = Ok (x, y) →
     convert_lat_lon_to_UTM lat lon =
       Ok ("POINT(" +:+ py_format x +:+ " " +:+ py_format y +:+ ")")) ∧
  (∀ row_idx r i feature st lon lat x y,
     has_coordinates feature lon lat →
     transform lon lat = Ok (x, y) →
     let point := "POINT(" +:+ py_format x +:+ " " +:+ py_format y +:+ ")" in
     feature_step row_idx r i feature st =
       Ok (if decide (i = 0)
           then State (dict_set row_idx point (updates st)) (new_rows st) (printed st)
           else State (updates st) (new_rows st ++ [clone r point]) (printed st))) ∧
  (∀ df cells g requests_get schedule data x y,
     read_csv_frame df →
     values df = [cells] →
     cell_of df 0 "endereco" = Some (CStr "RUA A, 10 - PARANA") →
     cell_of df 0 "the_geom" = Some g → pd_isna g = true →
     (∀ j : job, schedule [j] = [j]) →
     requests_get
       "http://localhost:8080/external/geocode-geoapify?address=RUA A, 10  PARANA PARANA"
       = Ok (Response 200 (Ok data)) →
     geocode_result data [(VFloat (-51.0), VFloat (-25.5))] →
     transform (VFloat (-51.0)) (VFloat (-25.5)) = Ok (x, y) →
     let point := "POINT(" +:+ py_format x +:+ " " +:+ py_format y +:+ ")" in
     main requests_get "geoapify" schedule df =
       Ok (Frame (columns df) [0]
                 [set_cell (columns df) "the_geom" (CStr point) cells], []) ∧
     cell_at (columns df) "the_geom"
             (set_cell (columns df) "the_geom" (CStr point) cells) =
       Some (CStr point)).
Proof.
  split; [apply convert_point|]. split.
  - intros row_idx r i feature st lon lat x y Hf Ht point.
    pose proof (convert_point _ _ _ _ Ht) as Hc. destruct i as [|i].
    + by apply feature_step_first with lon lat.
    + by apply feature_step_next with lon lat.
  - intros df cells g requests_get schedule data x y Hwf Hvalues Haddr Hgeom Hna
      Hsched Hget Hdata Ht point.
    pose proof (convert_point _ _ _ _ Ht) as Hc. fold point in Hc.
    destruct (rows_to_process_one _ _ _ _ Hwf Hvalues Haddr Hgeom Hna)
      as (r & Hit & Hjobs).
    pose proof Hwf as (Hcols & Hidx & Hlen).
    assert ("the_geom" ∈ columns df) as Hcol.
    { unfold cell_of, cell_at in Hgeom. rewrite Hvalues in Hgeom. simpl in Hgeom.
      destruct (position "the_geom" (columns df)) as [k|] eqn:Hk; [|done].
      apply position_Some in Hk. by eapply list_elem_of_lookup_2. }
    split.
    + unfold main. rewrite Hjobs, bind_Ok. unfold as_completed.
      rewrite Hsched. cbn [map fst snd].
      change (address_query "RUA A, 10 - PARANA") with "RUA A, 10  PARANA PARANA".
      rewrite fetch_geocode_cases.
      change (geocode_url "RUA A, 10  PARANA PARANA" "geoapify") with
        "http://localhost:8080/external/geocode-geoapify?address=RUA A, 10  PARANA PARANA".
      rewrite Hget. cbn [status_code json Z.eqb Pos.eqb]. cbn [concat app snd fst].
      change (String.eqb (lower "geoapify") "google") with false. cbn iota.
      unfold reconcile. cbn [fold_left fst snd].
      rewrite (process_completed_pairs _ _ _ _ [] point [] Hdata)
        by (constructor; [exact Hc|constructor]).
      cbn [updates new_rows printed map app dict_set row_idx_of fst].
      unfold merge. cbn [new_rows updates]. unfold apply_updates. cbn [fold_left fst snd].
      rewrite df_at_set_in_range; [|done|done|rewrite Hvalues; simpl; lia].
      by rewrite Hidx, Hvalues.
    + apply cell_at_set_cell; [done|].
      eapply (Forall_lookup_1 _ _ 0 _ Hlen). by rewrite Hvalues.
Qed.

(** *** Malformed bodies *)

Lemma no_geometry_raises f :
  dict_lookup "geometry" f = None → raises_at (VDict f) AttributeError.
Proof.
  intros Hg row_idx r i st. unfold feature_step.
  by rewrite (py_get_dict_None _ _ _ Hg).
Qed.

Lemma process_features_app row_idx r i good tail pairs utms st :
  Forall2 (λ f p, has_coordinates f p.1 p.2) good pairs →
  reprojects pairs utms →
  process_features row_idx r (S i) (good ++ tail) st =
  process_features row_idx r (S i + length good) tail
    (State (updates st) (new_rows st ++ map (clone r) utms) (printed st)).
Proof.
  intros Hf. revert utms i st.
  induction Hf as [|f p good pairs Hfp _ IH]; intros utms i st Hu.
  - apply Forall2_nil_inv_l in Hu as ->. simpl.
    rewrite app_nil_r, Nat.add_0_r. by destruct st.
  - apply Forall2_cons_inv_l in Hu as (utm & utms' & Hutm & Hu & ->).
    cbn [app process_features].
    rewrite (feature_step_next _ _ _ _ _ _ _ _ Hfp Hutm), (IH _ _ _ Hu).
    cbn [updates new_rows printed map length]. rewrite <- app_assoc.
    by replace (S (S i) + length good) with (S i + S (length good)) by lia.
Qed.

Lemma skip_result d rest features :
  (dict_lookup "geometry" d = None ∨
   ∃ g, dict_lookup "geometry" d = Some (VDict g) ∧ dict_lookup "location" g = None) →
  normalize_results (VDict d :: rest) features = normalize_results rest features.
Proof.
  intros [Hg|(g & Hg & Hl)]; cbn [normalize_results].
  - by rewrite (py_in_dict_None _ _ Hg).
  - rewrite (py_in_dict _ _ _ Hg), bind_Ok, (py_getitem_dict _ _ _ Hg), !bind_Ok.
    by rewrite (py_in_dict_None _ _ Hl).
Qed.

(** C6, as amended. A body without its container key, or with an empty
    collection, is an empty result: nothing is written, nothing is raised.
    A malformed structure is contained, but not always turned into an empty
    sequence. With provider B the normaliser skips a result that has no
    geometry or no location, and an exception it raises is caught by the
    client, which prints the line naming the query and returns [None]. With
    provider A the body reaches the loop as it is; a malformed feature
    raises there, the loop catches the exception and prints a line, and what
    the features before it wrote stays written. The body of the loop always
    ends, adding at most one line. *)
Theorem malformed_bodies_are_contained :
  (∀ st j d,
     dict_lookup "features" d = None ∨ dict_lookup "features" d = Some (VList []) →
     process_completed st (j, VDict d) = st) ∧
  (∀ d,
     dict_lookup "results" d = None ∨
     (∃ v, dict_lookup "results" d = Some v ∧ truthy v = false) →
     normalize_google_response (VDict d) = Ok VNone) ∧
  (∀ d rest features,
     (dict_lookup "geometry" d = None ∨
      ∃ g, dict_lookup "geometry" d = Some (VDict g) ∧
           dict_lookup "location" g = None) →
     normalize_results (VDict d :: rest) features = normalize_results rest features) ∧
  (∀ requests_get endereco api_type r data e,
     lower api_type = "google" →
     requests_get (geocode_url endereco api_type) = Ok r →
     status_code r = 200%Z → json r = Ok data →
     normalize_google_response data = Raise e →
     fetch_geocode requests_get endereco api_type =
       (VNone, [Error_fetching_geocode_for endereco e])) ∧
  (∀ f, dict_lookup "geometry" f = None → raises_at (VDict f) AttributeError) ∧
  (∀ st (j : job) d good bad rest p pairs utm utms e,
     dict_lookup "features" d = Some (VList (good ++ bad :: rest)) →
     Forall2 (λ f p, has_coordinates f p.1 p.2) good (p :: pairs) →
     reprojects (p :: pairs) (utm :: utms) →
     raises_at bad e →
     process_completed st (j, VDict d) =
       State (dict_set (row_idx_of j) utm (updates st))
             (new_rows st ++ map (clone j.1.2) utms)
             (printed st ++ [Error_processing j.2 e])) ∧
  (∀ st (j : job) data,
     ∃ rows lines,
       new_rows (process_completed st (j, data)) = new_rows st ++ rows ∧
       printed (process_completed st (j, data)) = printed st ++ lines ∧
       (lines = [] ∨ ∃ e, lines = [Error_processing j.2 e]) ∧
       (updates (process_completed st (j, data)) = updates st ∨
        ∃ utm, updates (process_completed st (j, data)) =
                 dict_set (row_idx_of j) utm (updates st))).
Proof.
  split_and!.
  - intros st j d H. apply process_completed_empty. right. by exists d.
  - intros d [Hr|(v & Hr & Hv)]; unfold normalize_google_response.
    + destruct (truthy (VDict d)); [|done]. cbn [negb].
      by rewrite (py_in_dict_None _ _ Hr).
    + rewrite (truthy_dict _ _ _ Hr). cbn [negb].
      rewrite (py_in_dict _ _ _ Hr), bind_Ok. cbn [negb].
      by rewrite (py_getitem_dict _ _ _ Hr), bind_Ok, Hv.
  - apply skip_result.
  - intros requests_get endereco api_type r data e Hg Hr Hs Hj Hn.
    apply String.eqb_eq in Hg. by rewrite fetch_geocode_cases, Hr, Hs, Hj, Hg, Hn.
  - apply no_geometry_raises.
  - intros st [[row_idx r] endereco] d good bad rest p pairs utm utms e
      Hfs Hgood Hutms Hbad.
    apply Forall2_cons_inv_r in Hgood as (f & fs & Hf & Hgood & ->).
    apply Forall2_cons in Hutms as [Hutm Hutms].
    unfold process_completed.
    rewrite (truthy_dict _ _ _ Hfs), (py_get_dict _ _ _ _ Hfs), bind_Ok.
    cbn [py_iter app process_features].
    rewrite (feature_step_first _ _ _ _ _ _ _ Hf Hutm).
    rewrite (process_features_app _ _ _ _ _ _ _ _ Hgood Hutms).
    cbn [process_features]. by rewrite Hbad.
  - intros st [[row_idx r] endereco] data. unfold process_completed.
    destruct (truthy data).
    2:{ exists [], []. rewrite !app_nil_r. by auto. }
    destruct (_ ≫= _) as [fs|e].
    2:{ exists [], [Error_processing endereco e]. rewrite app_nil_r.
        split_and!; by eauto. }
    destruct (process_features row_idx r 0 fs st) as [st' oe] eqn:Hfs.
    apply process_features_zero in Hfs as [->|(utm & utms & ->)].
    + destruct oe as [e|].
      * exists [], [Error_processing endereco e]. rewrite app_nil_r.
        split_and!; by eauto.
      * exists [], []. rewrite !app_nil_r. by auto.
    + destruct oe as [e|].
      * exists (map (clone r) utms), [Error_processing endereco e].
        split_and!; by eauto.
      * exists (map (clone r) utms), []. rewrite app_nil_r. split_and!; by eauto.
Qed.

(** *** What the normaliser keeps *)

Lemma py_getitem_Ok v k x :
  py_getitem v k = Ok x → ∃ d, v = VDict d ∧ dict_lookup k d = Some x.
Proof.
  destruct v as [| | | | | |d]; try done. simpl.
  destruct (dict_lookup k d) as [y|] eqn:Hy; [|done]. intros [= <-]. by exists d.
Qed.

Lemma normalize_results_step_Some d g loc lat lng rest features :
  dict_lookup "geometry" d = Some (VDict g) →
  dict_lookup "location" g = Some (VDict loc) →
  dict_lookup "lat" loc = Some lat → dict_lookup "lng" loc = Some lng →
  normalize_results (VDict d :: rest) features =
  normalize_results rest (features ++ [feature_of (lng, lat)]).
Proof.
  intros Hg Hl Hlat Hlng. cbn [normalize_results].
  rewrite (py_in_dict _ _ _ Hg), bind_Ok, !(py_getitem_dict _ _ _ Hg), !bind_Ok.
  rewrite (py_in_dict _ _ _ Hl), bind_Ok, (py_getitem_dict _ _ _ Hl), bind_Ok.
  by rewrite (py_getitem_dict _ _ _ Hlng), (py_getitem_dict _ _ _ Hlat), !bind_Ok.
Qed.

Lemma normalize_results_step_None r rest features :
  passed_over r →
  normalize_results (r :: rest) features = normalize_results rest features.
Proof.
  intros [Hg|(g & Hg & Hgg & Hl)]; cbn [normalize_results].
  - by rewrite Hg.
  - by rewrite Hg, bind_Ok, Hgg, !bind_Ok, Hl.
Qed.

Lemma normalize_results_iff items features fs :
  normalize_results items features = Ok fs ↔
  ∃ marks, Forall2 normalises_to items marks ∧
           fs = features ++ map feature_of (omap id marks).
Proof.
  split.
  - revert features. induction items as [|r items IH]; intros features.
    + intros [= <-]. exists []. split; [constructor|]. by rewrite app_nil_r.
    + cbn [normalize_results].
      destruct (py_in "geometry" r) as [[|]|] eqn:Hin; [| |done]; rewrite bind_Ok.
      * destruct (py_getitem r "geometry") as [g|] eqn:Hg; [|done]. rewrite !bind_Ok.
        destruct (py_in "location" g) as [[|]|] eqn:Hloc; [| |done]; rewrite bind_Ok.
        -- destruct (py_getitem g "location") as [loc|] eqn:Hl; [|done]. rewrite bind_Ok.
           destruct (py_getitem loc "lng") as [lng|] eqn:Hlng; [|done]. rewrite bind_Ok.
           destruct (py_getitem loc "lat") as [lat|] eqn:Hlat; [|done]. rewrite bind_Ok.
           intros (marks & Hmarks & ->)%IH.
           exists (Some (lng, lat) :: marks). split.
           ++ constructor; [|done]. simpl.
              apply py_getitem_Ok in Hg as (d & -> & Hd).
              apply py_getitem_Ok in Hl as (gd & -> & Hgd).
              apply py_getitem_Ok in Hlng as (ld & -> & Hld).
              apply py_getitem_Ok in Hlat as (ld' & [= <-] & Hld').
              by exists d, gd, ld.
           ++ simpl. by rewrite <- app_assoc.
        -- intros (marks & Hmarks & ->)%IH. exists (None :: marks). split; [|done].
           constructor; [|done]. right. by exists g.
      * intros (marks & Hmarks & ->)%IH. exists (None :: marks). split; [|done].
        constructor; [|done]. by left.
  - intros (marks & Hmarks & ->). revert features.
    induction Hmarks as [|r m items marks Hr _ IH]; intros features.
    + simpl. by rewrite app_nil_r.
    + destruct m as [[lng lat]|]; simpl in Hr.
      * destruct Hr as (d & g & loc & -> & Hg & Hl & Hlat & Hlng).
        rewrite (normalize_results_step_Some _ _ _ _ _ _ _ Hg Hl Hlat Hlng), IH.
        simpl. by rewrite <- app_assoc.
      * by rewrite (normalize_results_step_None _ _ _ Hr), IH.
Qed.

Lemma feature_of_has_coordinates p : has_coordinates (feature_of p) p.1 p.2.
Proof. by do 2 eexists. Qed.

(** X1. Whenever the normaliser returns, it returns [None] or a dict with the
    one key [features], each feature holding a two-element coordinate list
    under [geometry]: a shape every feature of which the loop of [main] can
    read. So a normalised body whose pairs reproject is processed without a
    line printed. *)
Theorem normalize_google_response_shape data v :
  normalize_google_response data = Ok v →
  v = VNone ∨
  ∃ pairs,
    v = VDict [("features", VList (map feature_of pairs))] ∧
    geocode_result v pairs ∧
    ∀ st (j : job) utms,
      reprojects pairs utms →
      printed (process_completed st (j, v)) = printed st.
Proof.
  unfold normalize_google_response.
  destruct (truthy data); cbn [negb]; [|intros [= <-]; by left].
  destruct (py_in "results" data) as [[|]|]; [| |done]; rewrite bind_Ok; cbn [negb];
    [|intros [= <-]; by left].
  destruct (py_getitem data "results") as [results|]; [|done]. rewrite bind_Ok.
  destruct (truthy results); cbn [negb]; [|intros [= <-]; by left].
  destruct (py_iter results) as [items|]; [|done]. rewrite bind_Ok.
  destruct (normalize_results items []) as [fs|] eqn:Hfs; [|done]. rewrite bind_Ok.
  intros [= <-]. right.
  apply normalize_results_iff in Hfs as (marks & _ & ->). cbn [app].
  exists (omap id marks).
  assert (geocode_result (VDict [("features", VList (map feature_of (omap id marks)))])
            (omap id marks)) as Hshape.
  { do 2 eexists. split; [done|]. split; [done|].
    apply Forall2_fmap_l, Forall_Forall2_diag, Forall_forall.
    intros p _. apply feature_of_has_coordinates. }
  split; [done|]. split; [done|].
  intros st j utms Hutms. destruct (omap id marks) as [|p pairs] eqn:Hpairs.
  - rewrite process_completed_empty; [done|]. right. eexists. split; [done|]. by right.
  - destruct utms as [|utm utms]; [by apply Forall2_cons_nil_inv in Hutms|].
    by rewrite (process_completed_pairs _ _ _ _ _ _ _ Hshape Hutms).
Qed.

(** X2. For a body whose [results] is a non-empty list, the normaliser
    returns exactly when every result either exposes a location or is passed
    over by its test; what it returns is the dict of the features of the
    located results, in their order, the others left out. *)
Theorem normalize_google_response_located data items v :
  google_body data items → items ≠ [] →
  normalize_google_response data = Ok v ↔
  ∃ marks, Forall2 normalises_to items marks ∧
           v = VDict [("features", VList (map feature_of (omap id marks)))].
Proof.
  intros (d & -> & Hres) Hne. unfold normalize_google_response.
  rewrite (truthy_dict _ _ _ Hres). cbn [negb].
  rewrite (py_in_dict _ _ _ Hres), bind_Ok. cbn [negb].
  rewrite (py_getitem_dict _ _ _ Hres), bind_Ok.
  destruct items as [|r items]; [done|]. cbn [truthy negb py_iter]. rewrite bind_Ok.
  split.
  - destruct (normalize_results (r :: items) []) as [fs|] eqn:Hfs; [|done].
    rewrite bind_Ok. intros [= <-].
    apply normalize_results_iff in Hfs as (marks & Hmarks & ->). by exists marks.
  - intros (marks & Hmarks & ->).
    assert (normalize_results (r :: items) [] = Ok (map feature_of (omap id marks)))
      as -> by (apply normalize_results_iff; by exists marks).
    done.
Qed.


(** *** Runs that look nothing up, runs that stop *)

Lemma rows_to_process_from_Raise k rows e :
  rows_to_process_from k rows = Raise e → e = AttributeError.
Proof.
  revert k. induction rows as [|r rows IH]; intros k; simpl; [done|].
  unfold getattr. destruct (dict_lookup "the_geom" r) as [g|]; [|by intros [= <-]].
  rewrite bind_Ok. destruct (pd_isna g); [|apply IH].
  destruct (dict_lookup "endereco" r) as [a|]; [|by intros [= <-]]. rewrite bind_Ok.
  destruct a as [| | |s]; try (by intros [= <-]). simpl str_of_cell. rewrite bind_Ok.
  destruct (rows_to_process_from (S k) rows) as [jobs|e'] eqn:Hrec; [done|].
  intros [= <-]. by eapply IH.
Qed.

Lemma rows_to_process_from_workable k rows jobs :
  rows_to_process_from k rows = Ok jobs → Forall workable rows.
Proof.
  intros Hjobs. apply Forall_lookup. intros p r Hr.
  destruct (rows_to_process_from_row _ _ _ _ _ Hjobs Hr) as (g & Hg & Hs).
  exists g. split; [done|]. intros Hna. destruct (Hs Hna) as (s & Hs' & _). by exists s.
Qed.

Lemma rows_to_process_from_resolved k rows :
  Forall resolved rows → rows_to_process_from k rows = Ok [].
Proof.
  intros H. revert k. induction H as [|r rows (g & Hg & Hna) _ IH]; intros k; [done|].
  simpl. by rewrite Hg, bind_Ok, Hna.
Qed.

(** C8, as amended. The loop of lines 85-88 runs through when every row
    has a geometry field and every row lacking geometry has a string
    address; otherwise it raises an [AttributeError] that nothing catches,
    and the script stops there, whatever the service. When it runs through,
    no two units of work are for the same record; a record whose geometry
    is missing gets one unit of work, and so exactly one, whose query is its
    address with every [-] removed, then every [P/] removed, followed by
    [ PARANA]; a record with a geometry gets none. *)
Theorem one_query_per_missing_geometry df :
  (Forall (λ r, ∃ g, getattr r "the_geom" = Ok g ∧
                     (pd_isna g = true → ∃ s, getattr r "endereco" = Ok (CStr s)))
          (itertuples df) →
   ∃ jobs, rows_to_process df = Ok jobs) ∧
  (¬ Forall (λ r, ∃ g, getattr r "the_geom" = Ok g ∧
                       (pd_isna g = true → ∃ s, getattr r "endereco" = Ok (CStr s)))
            (itertuples df) →
   rows_to_process df = Raise AttributeError ∧
   ∀ requests_get api_type schedule,
     main requests_get api_type schedule df = Raise AttributeError) ∧
  ∀ jobs i r g,
    rows_to_process df = Ok jobs →
    itertuples df !! i = Some r →
    getattr r "the_geom" = Ok g →
    NoDup (map row_idx_of jobs) ∧
    if pd_isna g then
      ∃ s, getattr r "endereco" = Ok (CStr s) ∧
           (i, r, replace (replace s "-" "") "P/" "" +:+ " PARANA") ∈ jobs ∧
           ∀ j, j ∈ jobs → row_idx_of j = i →
                j = (i, r, replace (replace s "-" "") "P/" "" +:+ " PARANA")
    else ∀ j, j ∈ jobs → row_idx_of j ≠ i.
Proof.
  split; [apply rows_to_process_from_total|]. split.
  { intros Hno.
    assert (rows_to_process df = Raise AttributeError) as Hraise.
    { unfold rows_to_process.
      destruct (rows_to_process_from 0 (itertuples df)) as [jobs|e] eqn:Hjobs.
      - exfalso. apply Hno. by eapply rows_to_process_from_workable.
      - by rewrite (rows_to_process_from_Raise _ _ _ Hjobs). }
    split; [done|]. intros requests_get api_type schedule.
    unfold main. by rewrite Hraise. }
  intros jobs i r g Hjobs Hr Hg.
  split; [by eapply rows_to_process_from_NoDup|].
  destruct (pd_isna g) eqn:Hna.
  - destruct (rows_to_process_from_row _ _ _ _ _ Hjobs Hr) as (g' & Hg' & Hjob).
    assert (g' = g) as -> by congruence.
    destruct (Hjob Hna) as (s & Hs & Hin). exists s. split; [done|].
    split; [done|]. intros j Hj Hidx.
    apply (NoDup_fmap_eq row_idx_of jobs); try done.
    by eapply rows_to_process_from_NoDup.
  - intros j Hj Hidx.
    apply (no_job_for_geometry _ _ _ _ _ Hjobs Hr Hg Hna).
    rewrite <- Hidx. by apply list_elem_of_fmap_2.
Qed.

(** X3. On a table where every record has a geometry, the script creates no
    unit of work and writes the table as it read it, printing no error
    line, whatever the service would answer and whichever provider is
    selected. *)
Theorem resolved_table_is_written_as_read requests_get api_type schedule df :
  Forall resolved (itertuples df) →
  schedule [] = [] →
  rows_to_process df = Ok [] ∧
  main requests_get api_type schedule df = Ok (df, []).
Proof.
  intros Hres Hsched.
  pose proof (rows_to_process_from_resolved 0 _ Hres) as Hjobs.
  split; [done|]. unfold main, rows_to_process. rewrite Hjobs, bind_Ok.
  unfold as_completed. rewrite Hsched. cbn [map concat app].
  by rewrite reconcile_nil_merge.
Qed.

(** X4. The script gets past the loop of lines 85-88 exactly when every row
    has a geometry field and every row lacking geometry has a string address;
    it then runs to the end. Otherwise it stops with an [AttributeError] that
    nothing catches, before any request is made: the outcome does not depend
    on the service. *)
Theorem run_stops_on_unworkable_row requests_get api_type schedule df :
  (Forall workable (itertuples df) ↔ ∃ jobs, rows_to_process df = Ok jobs) ∧
  (Forall workable (itertuples df) →
   ∃ out lines, main requests_get api_type schedule df = Ok (out, lines)) ∧
  (¬ Forall workable (itertuples df) →
   main requests_get api_type schedule df = Raise AttributeError).
Proof.
  split; [|split].
  - split; [apply rows_to_process_from_total|].
    intros [jobs Hjobs]. by eapply rows_to_process_from_workable.
  - intros H. destruct (rows_to_process_from_total 0 _ H) as [jobs Hjobs].
    unfold main, rows_to_process. rewrite Hjobs, bind_Ok. by do 2 eexists.
  - intros H. unfold main, rows_to_process.
    destruct (rows_to_process_from 0 (itertuples df)) as [jobs|e] eqn:Hjobs.
    + exfalso. apply H. by eapply rows_to_process_from_workable.
    + by rewrite (rows_to_process_from_Raise _ _ _ Hjobs).
Qed.


(** *** The query string *)

Lemma is_substring_char_cons c a s :
  is_substring (String c "") (String a s) =
  bool_decide (c = a) || is_substring (String c "") s.
Proof.
  cbn [is_substring starts_with]. destruct (decide (c = a)) as [->|Hne].
  - by rewrite bool_decide_eq_true_2.
  - by rewrite bool_decide_eq_false_2.
Qed.

Lemma is_substring_char_app c s t :
  is_substring (String c "") (s +:+ t) =
  is_substring (String c "") s || is_substring (String c "") t.
Proof.
  induction s as [|a s IH].
  - by destruct t.
  - change (String a s +:+ t) with (String a (s +:+ t)).
    rewrite !is_substring_char_cons, IH. by rewrite orb_assoc.
Qed.

Lemma replace_char_gone c s :
  is_substring (String c "") (replace s (String c "") "") = false.
Proof.
  unfold replace. induction s as [|a s IH]; [done|].
  cbn [replace_from starts_with]. destruct (decide (c = a)) as [->|Hne].
  - destruct s; exact IH.
  - rewrite is_substring_char_cons, IH. by rewrite bool_decide_eq_false_2.
Qed.

Lemma removal_keeps_no_char c old k s :
  old ≠ "" →
  is_substring (String c "") s = false →
  is_substring (String c "") (replace_from old "" k s) = false.
Proof.
  intros Hold. revert k. induction s as [|a s IH]; intros k Hs.
  - by destruct old.
  - rewrite is_substring_char_cons in Hs. apply orb_false_iff in Hs as [Ha Hs].
    cbn [replace_from]. destruct k as [|k]; [|by apply IH].
    destruct (starts_with old (String a s)).
    + destruct old as [|b old']; [done|]. by apply IH.
    + by rewrite is_substring_char_cons, Ha, IH.
Qed.

Lemma replace_absent old new s :
  old ≠ "" → is_substring old s = false → replace s old new = s.
Proof.
  intros Hold. unfold replace. induction s as [|a s IH]; intros Hs.
  - by destruct old.
  - cbn [is_substring] in Hs. apply orb_false_iff in Hs as [Hstart Hs].
    cbn [replace_from]. by rewrite Hstart, IH.
Qed.

(** X5. The query sent for an address never contains a hyphen, and an
    address with no hyphen and no [P/] in it is sent as it stands, followed
    by [ PARANA]. *)
Theorem address_query_hyphens s :
  is_substring "-" (address_query s) = false ∧
  (is_substring "-" s = false → is_substring "P/" s = false →
   address_query s = s +:+ " PARANA").
Proof.
  split.
  - unfold address_query. rewrite is_substring_char_app.
    apply orb_false_iff. split; [|done].
    apply removal_keeps_no_char; [done|]. apply replace_char_gone.
  - intros Hh Hp. unfold address_query.
    by rewrite (replace_absent "-" "" s), (replace_absent "P/" "" s).
Qed.


(** *** Each lookup on its own *)

Lemma gather_nothing row_idx st : gather row_idx st (State [] [] []) = st.
Proof. destruct st. unfold gather. cbn. by rewrite !app_nil_r. Qed.

Lemma feature_step_local row_idx r i f st :
  feature_step row_idx r i f st =
  match feature_step row_idx r i f (State [] [] []) with
  | Ok o => Ok (gather row_idx st o)
  | Raise e => Raise e
  end.
Proof.
  unfold feature_step.
  destruct (py_get f "geometry" VNone) as [g|]; [|done]. rewrite !bind_Ok.
  destruct (py_get g "coordinates" VNone) as [c|]; [|done]. rewrite !bind_Ok.
  destruct (decide (i = 0)) as [->|Hi].
  - destruct (py_index c 1) as [c1|]; [|done]. rewrite !bind_Ok.
    destruct (py_index c 0) as [c0|]; [|done]. rewrite !bind_Ok.
    destruct (convert_lat_lon_to_UTM c1 c0) as [utm|]; [|done]. rewrite !bind_Ok.
    unfold gather. cbn. by rewrite !app_nil_r.
  - destruct (duplicate_row_with_new_UTM r c) as [new_row|]; [|done].
    rewrite !bind_Ok. unfold gather. cbn. by rewrite !app_nil_r.
Qed.

Lemma process_features_later_local row_idx r i fs st :
  process_features row_idx r (S i) fs st =
  let res := process_features row_idx r (S i) fs (State [] [] []) in
  (State (updates st) (new_rows st ++ new_rows res.1) (printed st), res.2).
Proof.
  revert i st. induction fs as [|f fs IH]; intros i st.
  - cbn. rewrite app_nil_r. by destruct st.
  - cbn [process_features]. rewrite (feature_step_local _ _ _ _ st).
    destruct (feature_step row_idx r (S i) f (State [] [] [])) as [o|e] eqn:Ho.
    + apply feature_step_later in Ho as [utm ->].
      cbn [updates new_rows printed app].
      rewrite (IH (S i) (gather _ _ _)), (IH (S i) (State [] [clone r utm] [])).
      unfold gather. cbn. by rewrite !app_nil_r, <- app_assoc.
    + cbn. rewrite app_nil_r. by destruct st.
Qed.

Lemma process_features_local row_idx r fs st :
  process_features row_idx r 0 fs st =
  let res := process_features row_idx r 0 fs (State [] [] []) in
  (gather row_idx st res.1, res.2).
Proof.
  destruct fs as [|f fs].
  - cbn [process_features]. cbv zeta. cbn [fst snd]. by rewrite gather_nothing.
  - cbn [process_features]. rewrite (feature_step_local _ _ _ _ st).
    destruct (feature_step row_idx r 0 f (State [] [] [])) as [o|e] eqn:Ho.
    + apply feature_step_zero in Ho as [utm ->].
      cbn [updates new_rows printed dict_set].
      rewrite (process_features_later_local _ _ _ _ (gather _ _ _)),
              (process_features_later_local _ _ _ _ (State [(row_idx, utm)] [] [])).
      unfold gather. cbn. by rewrite !app_nil_r.
    + cbv zeta. cbn [fst snd]. by rewrite gather_nothing.
Qed.

(** What a turn of the loop adds does not depend on what the turns before
    it wrote. *)
Lemma process_completed_local st (j : job) data :
  process_completed st (j, data) = gather (row_idx_of j) st (outcome (j, data)).
Proof.
  destruct j as [[row_idx r] endereco]. unfold outcome, process_completed.
  destruct (truthy data); [|by rewrite gather_nothing].
  destruct (_ ≫= _) as [fs|e].
  - rewrite (process_features_local _ _ _ st). cbv zeta.
    destruct (process_features row_idx r 0 fs (State [] [] [])) as [o [e|]];
      cbn [fst snd]; [|done].
    unfold gather, print. cbn. by rewrite app_assoc.
  - unfold gather, print. cbn. by rewrite app_nil_r.
Qed.


Lemma outcome_shape (j : job) data :
  ((updates (outcome (j, data)) = [] ∧ new_rows (outcome (j, data)) = []) ∨
   ∃ utm utms, updates (outcome (j, data)) = [(row_idx_of j, utm)] ∧
               new_rows (outcome (j, data)) = map (clone j.1.2) utms) ∧
  (printed (outcome (j, data)) = [] ∨
   ∃ e, truthy data = true ∧ printed (outcome (j, data)) = [Error_processing j.2 e]).
Proof.
  split.
  - destruct (process_completed_effect (State [] [] []) j data)
      as [[Hu Hn]|(utm & utms & Hu & Hn)]; [by left|right].
    by exists utm, utms.
  - destruct j as [[row_idx r] endereco]. unfold outcome, process_completed.
    destruct (truthy data); [|by left].
    destruct (_ ≫= _) as [fs|e]; [|right; by exists e].
    destruct (process_features row_idx r 0 fs (State [] [] [])) as [st' oe] eqn:Hfs.
    apply process_features_zero in Hfs as [->|(utm & utms & ->)];
      (destruct oe as [e|]; [right; by exists e|by left]).
Qed.

Lemma dict_set_fresh {K A} `{EqDecision K} (k : K) (v : A) d :
  k ∉ d.*1 → dict_set k v d = d ++ [(k, v)].
Proof.
  induction d as [|[k' v'] d IH]; intros Hk; [done|].
  csimpl in Hk. apply not_elem_of_cons in Hk as [Hne Hk].
  cbn [dict_set]. rewrite decide_False by done. by rewrite IH.
Qed.

(** The new rows and the lines of the loop are those of its turns, one
    after the other. *)
Lemma fold_process_rows_lines completed st :
  new_rows (fold_left process_completed completed st) =
    new_rows st ++ concat (map (λ jd, new_rows (outcome jd)) completed) ∧
  printed (fold_left process_completed completed st) =
    printed st ++ concat (map (λ jd, printed (outcome jd)) completed).
Proof.
  revert st. induction completed as [|[j data] completed IH]; intros st.
  - cbn. by rewrite !app_nil_r.
  - cbn [fold_left map concat]. destruct (IH (process_completed st (j, data))) as [-> ->].
    rewrite process_completed_local. unfold gather. cbn [new_rows printed].
    by rewrite <- !app_assoc.
Qed.

Lemma fold_process_updates completed st :
  NoDup (map row_idx_of completed.*1) →
  (∀ j, j ∈ completed.*1 → row_idx_of j ∉ (updates st).*1) →
  updates (fold_left process_completed completed st) =
    updates st ++ concat (map (λ jd, updates (outcome jd)) completed).
Proof.
  revert st. induction completed as [|[j data] completed IH]; intros st Hnd Hfresh.
  - cbn. by rewrite app_nil_r.
  - csimpl in Hnd. apply NoDup_cons in Hnd as [Hj Hnd].
    assert (updates (process_completed st (j, data)) =
            updates st ++ updates (outcome (j, data))) as Hstep.
    { rewrite process_completed_local. unfold gather. cbn [updates].
      destruct (outcome_shape j data) as [[[-> _]|(utm & utms & -> & _)] _].
      - by rewrite app_nil_r.
      - apply dict_set_fresh. apply Hfresh. csimpl. left. }
    cbn [fold_left map concat]. rewrite IH, Hstep; [by rewrite <- app_assoc|done|].
    intros j' Hj'. rewrite Hstep, fmap_app. intros [Hin|Hin]%elem_of_app.
    + eapply Hfresh; [|done]. csimpl. by right.
    + destruct (outcome_shape j data) as [[[Hu _]|(utm & utms & Hu & _)] _];
        rewrite Hu in Hin; csimpl in Hin; [by apply elem_of_nil in Hin|].
      apply list_elem_of_singleton in Hin. apply Hj. rewrite <- Hin.
      change (map row_idx_of completed.*1) with (row_idx_of <$> completed.*1).
      by apply list_elem_of_fmap_2.
Qed.

Lemma reconcile_concat completed :
  NoDup (map row_idx_of completed.*1) →
  reconcile completed =
    State (concat (map (λ jd, updates (outcome jd)) completed))
          (concat (map (λ jd, new_rows (outcome jd)) completed))
          (concat (map (λ jd, printed (outcome jd)) completed)).
Proof.
  intros Hnd. unfold reconcile.
  destruct (fold_process_rows_lines completed (State [] [] [])) as [Hn Hp].
  pose proof (fold_process_updates completed (State [] [] []) Hnd) as Hu.
  destruct (fold_left process_completed completed (State [] [] [])) as [u n p].
  cbn in Hn, Hp, Hu. rewrite Hn, Hp, Hu; [done|].
  intros j _ Hin. by apply elem_of_nil in Hin.
Qed.

(** X6. When no record is looked up twice, the loop ends with the entries,
    the new rows and the lines of its turns, each as the turn would leave
    them on its own, in the order the lookups completed; a turn writes at
    most the entry of its own record and appends clones of that record only
    after it, and prints at most one line, naming its query. *)
Theorem reconcile_gathers completed :
  NoDup (map row_idx_of completed.*1) →
  reconcile completed =
    State (concat (map (λ jd, updates (outcome jd)) completed))
          (concat (map (λ jd, new_rows (outcome jd)) completed))
          (concat (map (λ jd, printed (outcome jd)) completed)) ∧
  Forall (λ jd : job * value,
    ((updates (outcome jd) = [] ∧ new_rows (outcome jd) = []) ∨
     ∃ utm utms, updates (outcome jd) = [(row_idx_of jd.1, utm)] ∧
                 new_rows (outcome jd) = map (clone jd.1.1.2) utms) ∧
    (printed (outcome jd) = [] ∨
     ∃ e, printed (outcome jd) = [Error_processing jd.1.2 e])) completed.
Proof.
  intros Hnd. split.
  - unfold reconcile.
    destruct (fold_process_rows_lines completed (State [] [] [])) as [Hn Hp].
    pose proof (fold_process_updates completed (State [] [] []) Hnd) as Hu.
    destruct (fold_left process_completed completed (State [] [] [])) as [u n p].
    cbn in Hn, Hp, Hu. rewrite Hn, Hp, Hu; [done|].
    intros j _ Hin. by apply elem_of_nil in Hin.
  - apply Forall_forall. intros [j data] _.
    destruct (outcome_shape j data) as [Hu Hp]. split; [exact Hu|].
    destruct Hp as [Hp|(e & _ & Hp)]; [by left|right; by exists e].
Qed.


(** *** The order in which the lookups complete *)

Lemma concat_map_Permutation {A B} (f : A → list B) l l' :
  l ≡ₚ l' → concat (map f l) ≡ₚ concat (map f l').
Proof.
  induction 1 as [|x l l' _ IH|x y l|l l' l'' _ IH1 _ IH2]; cbn [map concat].
  - done.
  - by rewrite IH.
  - rewrite !app_assoc. f_equiv. apply Permutation_app_comm.
  - by etransitivity.
Qed.

Lemma elem_of_concat_map {A B} (f : A → list B) l x :
  x ∈ concat (map f l) → ∃ a, a ∈ l ∧ x ∈ f a.
Proof.
  induction l as [|a l IH]; cbn [map concat].
  - intros []%elem_of_nil.
  - intros [Hx|Hx]%elem_of_app.
    + exists a. split; [left|done].
    + destruct (IH Hx) as (a' & Ha' & Hx'). exists a'. split; [by right|done].
Qed.

Lemma written_Permutation df ups ups' :
  NoDup ups.*1 → ups ≡ₚ ups' → written df ups = written df ups'.
Proof.
  intros Hnd Hp. apply list_eq. intros i. unfold written.
  assert (NoDup ups'.*1) as Hnd' by by rewrite <- Hp.
  destruct (decide (i ∈ ups.*1)) as [Hin|Hout].
  - apply list_elem_of_fmap in Hin as ([i' utm] & -> & Hin). cbn [fst].
    rewrite (write_all_key _ _ _ _ utm Hnd Hin).
    rewrite (write_all_key _ ups' _ _ utm Hnd'); [done|]. by rewrite <- Hp.
  - rewrite !write_all_other; [done| |done]. by rewrite <- Hp.
Qed.

Lemma filter_none {A} (P : A → Prop) `{∀ x, Decision (P x)} (l : list A) :
  Forall (λ x, ¬ P x) l → filter P l = [].
Proof. induction 1; [done|]. by rewrite filter_cons_False. Qed.

Lemma filter_all {A} (P : A → Prop) `{∀ x, Decision (P x)} (l : list A) :
  Forall P l → filter P l = l.
Proof. induction 1 as [|x l Hx _ IH]; [done|]. by rewrite filter_cons_True, IH. Qed.

Lemma union_keys_absorb seen (rows : list row) :
  Forall (λ d : row, ∀ k, k ∈ d.*1 → k ∈ seen) rows → union_keys seen rows = seen.
Proof.
  induction 1 as [|d rows Hd _ IH]; [done|]. cbn [union_keys].
  rewrite filter_none; [by rewrite app_nil_r|].
  apply Forall_forall. intros k Hk Hn. apply Hn, Hd. exact (proj1 (elem_of_remove_dups _ _) Hk).
Qed.

(** Dicts with the same keys make a table with these keys as columns. *)
Lemma union_keys_uniform K (rows : list row) :
  rows ≠ [] → Forall (λ d : row, d.*1 = K) rows →
  union_keys [] rows = remove_dups K.
Proof.
  intros Hne Hrows. destruct rows as [|d rows]; [done|].
  apply Forall_cons in Hrows as [Hd Hrows]. cbn [union_keys app].
  change (map fst d) with (d.*1). rewrite Hd, filter_all.
  - apply union_keys_absorb. eapply Forall_impl; [exact Hrows|].
    intros d' -> k Hk. by apply elem_of_remove_dups.
  - apply Forall_forall. intros k _. apply not_elem_of_nil.
Qed.

Lemma itertuples_keys df i r :
  read_csv_frame df → itertuples df !! i = Some r → r.*1 = fields_of (columns df).
Proof.
  intros (_ & Hidx & Hlen) Hr. rewrite (itertuples_lookup _ _ Hidx) in Hr.
  destruct (values df !! i) as [cells|] eqn:Hcells; [|done].
  rewrite <- (Some_inj _ _ Hr). apply fst_zip. unfold fields_of.
  rewrite rename_fields_length. cbn [length].
  by rewrite (Forall_lookup_1 _ _ _ _ Hlen Hcells).
Qed.

(** Every new row has the fields of a row of the table as its keys. *)
Lemma new_rows_keys df jobs completed :
  read_csv_frame df →
  rows_to_process df = Ok jobs →
  (∀ j, j ∈ completed.*1 → j ∈ jobs) →
  Forall (λ d : row, d.*1 = fields_of (columns df)) (new_rows (reconcile completed)).
Proof.
  intros Hwf Hjobs Hsub. pose proof Hwf as (_ & Hidx & _).
  apply Forall_forall. intros d Hd. unfold reconcile in Hd.
  rewrite (proj1 (fold_process_rows_lines _ _)) in Hd. cbn [new_rows app] in Hd.
  apply elem_of_concat_map in Hd as ([j data] & Hin & Hd).
  assert (j ∈ jobs) as Hj.
  { apply Hsub. apply list_elem_of_fmap. by exists (j, data). }
  destruct (outcome_shape j data) as [[[_ Hn]|(utm & utms & _ & Hn)] _];
    rewrite Hn in Hd; [by apply elem_of_nil in Hd|].
  apply list_elem_of_fmap in Hd as (u & -> & _).
  destruct (job_row _ _ _ Hidx Hjobs Hj) as (Hrow & _ & _).
  destruct (rows_to_process_from_job _ _ _ _ Hjobs Hj) as (_ & _ & g & s & Hg & _).
  rewrite clone_keys; [by eapply itertuples_keys|].
  unfold getattr in Hg. destruct (dict_lookup "the_geom" j.1.2) as [x|] eqn:Hx; [|done].
  by eapply dict_lookup_key.
Qed.

(** Every new row is the clone of the named tuple of a unit of work. *)
Lemma new_rows_cloned df jobs completed (d : row) :
  rows_to_process df = Ok jobs →
  (∀ j, j ∈ completed.*1 → j ∈ jobs) →
  d ∈ new_rows (reconcile completed) →
  ∃ j u, j ∈ jobs ∧ d = clone j.1.2 u.
Proof.
  intros Hjobs Hsub Hd. unfold reconcile in Hd.
  rewrite (proj1 (fold_process_rows_lines _ _)) in Hd. cbn [new_rows app] in Hd.
  apply elem_of_concat_map in Hd as ([j data] & Hin & Hd).
  assert (j ∈ jobs) as Hj.
  { apply Hsub. apply list_elem_of_fmap. by exists (j, data). }
  destruct (outcome_shape j data) as [[[_ Hn]|(utm & utms & _ & Hn)] _];
    rewrite Hn in Hd; [by apply elem_of_nil in Hd|].
  apply list_elem_of_fmap in Hd as (u & -> & _). by exists j, u.
Qed.

(** So every new row holds, under [Index], the label of a record. *)
Lemma new_rows_Index df jobs completed :
  read_csv_frame df →
  rows_to_process df = Ok jobs →
  (∀ j, j ∈ completed.*1 → j ∈ jobs) →
  Forall (λ d : row, ∃ i, i < length (values df) ∧
                          value_of "Index" d = CInt (Z.of_nat i))
         (new_rows (reconcile completed)).
Proof.
  intros (_ & Hidx & _) Hjobs Hsub. apply Forall_forall. intros d Hd.
  destruct (new_rows_cloned _ _ _ _ Hjobs Hsub Hd) as (j & u & Hj & ->).
  destruct (job_row _ _ _ Hidx Hjobs Hj) as (Hrow & Hlt & _).
  exists (row_idx_of j). split; [done|]. unfold value_of.
  rewrite clone_other by done. by rewrite (itertuples_Index _ _ _ Hidx Hrow).
Qed.

(** The column [Index] that the new rows bring is a column of integers,
    which the table written holds as floats next to the NaN of the records
    of the table read. *)
Lemma merged_dtype_Index df jobs completed :
  read_csv_frame df →
  rows_to_process df = Ok jobs →
  (∀ j, j ∈ completed.*1 → j ∈ jobs) →
  "Index" ∉ columns df →
  new_rows (reconcile completed) ≠ [] →
  infer_dtype (map (value_of "Index") (new_rows (reconcile completed))) = int64 ∧
  merged_dtype df (reconcile completed) "Index" = float64.
Proof.
  intros Hwf Hjobs Hsub Hno Hne.
  pose proof (new_rows_Index _ _ _ Hwf Hjobs Hsub) as Hall.
  pose proof (new_rows_keys _ _ _ Hwf Hjobs Hsub) as Hkeys.
  assert (infer_dtype (map (value_of "Index") (new_rows (reconcile completed))) = int64)
    as Hint.
  { apply infer_dtype_ints.
    - intros Hnil. apply Hne. by destruct (new_rows (reconcile completed)).
    - apply Forall_forall. intros x Hx.
      change (map ?f ?l) with (f <$> l) in Hx.
      apply list_elem_of_fmap in Hx as (d & -> & Hd).
      rewrite Forall_forall in Hall. by destruct (Hall d Hd) as (i & _ & ->). }
  split; [done|]. unfold merged_dtype, concat_dtype.
  rewrite column_None by done. rewrite column_pd_DataFrame.
  - cbn [fmap option_fmap option_map]. rewrite Hint.
    rewrite (infer_dtype_ints (map _ _)); [done| |].
    + intros Hnil. apply Hne. by destruct (new_rows (reconcile completed)).
    + apply Forall_forall. intros x Hx.
      change (map ?f ?l) with (f <$> l) in Hx.
      apply list_elem_of_fmap in Hx as (d & -> & Hd).
      rewrite Forall_forall in Hall. by destruct (Hall d Hd) as (i & _ & ->).
  - destruct (new_rows (reconcile completed)) as [|d ds] eqn:Hn; [done|].
    apply (union_keys_elem [] _ d); [left|].
    apply Forall_cons in Hkeys as [-> _]. unfold fields_of. cbn. left.
Qed.

(** A record of the table read holds NaN under a column that the new rows
    bring. *)
Lemma merge_new_column df st i c :
  read_csv_frame df →
  "the_geom" ∈ columns df →
  Forall (λ up, up.1 < length (values df)) (updates st) →
  c ∉ columns df → c ∈ columns (merge df st) →
  i < length (values df) →
  cell_of (merge df st) i c = Some nan_cell.
Proof.
  intros (Hnd & Hidx & Hlen) Hgeom Hups Hno Hc Hlt. revert Hc.
  rewrite (merge_in_range _ _ Hidx Hgeom Hups). unfold cell_of.
  destruct (new_rows st) as [|d ds] eqn:Hn; cbn [columns values]; [done|].
  intros Hc. unfold pd_concat. cbn [columns values].
  rewrite lookup_app_l by (by rewrite length_map, written_length).
  change (map ?f (written df (updates st))) with (f <$> written df (updates st)).
  rewrite list_lookup_fmap.
  destruct (lookup_lt_is_Some_2 (written df (updates st)) i) as [w ->].
  { by rewrite written_length. }
  cbn [fmap option_fmap option_map mbind option_bind]. unfold reindex.
  rewrite (cell_at_map _ _ _ Hc). unfold cell_at.
  rewrite (position_None _ _ Hno). cbn. by destruct (concat_dtype _ _ _).
Qed.

(** *** A lookup with several pairs, in the table written *)

(** A key of a new row is a column of the table written. *)
Lemma merge_columns_key df st (d : row) k :
  index df = seq 0 (length (values df)) →
  "the_geom" ∈ columns df →
  Forall (λ up, up.1 < length (values df)) (updates st) →
  d ∈ new_rows st → k ∈ d.*1 → k ∈ columns (merge df st).
Proof.
  intros Hidx Hgeom Hups Hd Hk. rewrite (merge_columns _ _ Hidx Hgeom Hups).
  destruct (new_rows st) as [|d0 ds] eqn:Hn; [by apply elem_of_nil in Hd|].
  rewrite <- Hn in *. apply elem_of_app.
  destruct (decide (k ∈ columns df)) as [?|Hno]; [by left|right].
  apply list_elem_of_filter. split; [done|]. by eapply union_keys_elem.
Qed.

(** X18. A lookup that returns the pairs [p :: pairs], all of which
    reproject, writes the reprojection of [p] under the label of its record
    and appends one clone of the named tuple of the record per pair of
    [pairs], in order; a clone has the fields of the named tuple with the
    same values, except for [the_geom], which holds the reprojection of its
    pair. When every unit of work is one of the table and none is completed
    twice, the table written has that first reprojection in the geometry
    cell of the record and, in its other cells, the values it had, an
    integer possibly as the float of the same number. It has one row more
    per new row, and the clones stand, in order, among the rows appended
    after the records of the table read. The row of a clone holds the
    reprojection of its pair in the geometry cell; under a column whose
    label is a field name, the value of the record, an integer possibly as a
    float; under a column whose label is no field of the named tuple, NaN;
    and under [Index] the label of the record, as a float when the table
    read has no column of that name. *)
Theorem pairs_update_and_clone st row_idx r endereco data p pairs utm utms :
  geocode_result data (p :: pairs) →
  reprojects (p :: pairs) (utm :: utms) →
  process_completed st ((row_idx, r, endereco) : job, data) =
    State (dict_set row_idx utm (updates st))
          (new_rows st ++ map (clone r) utms) (printed st) ∧
  length (map (clone r) utms) = length pairs ∧
  (∀ u, dict_lookup "the_geom" (clone r u) = Some (CStr u) ∧
        ∀ k, k ≠ "the_geom" → dict_lookup k (clone r u) = dict_lookup k r) ∧
  ∀ df jobs before after,
    read_csv_frame df →
    rows_to_process df = Ok jobs →
    (∀ j, j ∈ (before ++ ((row_idx, r, endereco) : job, data) :: after).*1 → j ∈ jobs) →
    NoDup (map row_idx_of (before ++ ((row_idx, r, endereco) : job, data) :: after).*1) →
    let out := merge df (reconcile (before ++ ((row_idx, r, endereco) : job, data) :: after)) in
    cell_of out row_idx "the_geom" = Some (CStr utm) ∧
    (∀ c, c ∈ columns df → c ≠ "the_geom" →
       ∃ x y, cell_of df row_idx c = Some x ∧ cell_of out row_idx c = Some y ∧
              widened x y) ∧
    length (values out) =
      length (values df) +
      length (new_rows (reconcile (before ++ ((row_idx, r, endereco) : job, data) :: after))) ∧
    ∃ pos, length (values df) ≤ pos ∧
      ∀ m u, utms !! m = Some u →
        cell_of out (pos + m) "the_geom" = Some (CStr u) ∧
        (∀ c, c ∈ columns df → c ≠ "the_geom" →
           ∃ y, cell_of out (pos + m) c = Some y ∧
                (plain_name c = true →
                 ∃ x, cell_of df row_idx c = Some x ∧ widened x y) ∧
                (c ∉ r.*1 → y = nan_cell)) ∧
        ∃ y, cell_of out (pos + m) "Index" = Some y ∧
             widened (CInt (Z.of_nat row_idx)) y ∧
             ("Index" ∉ columns df → y = CFloat (float_of_Z (Z.of_nat row_idx))).
Proof.
  intros Hdata Hutms.
  split.
  { apply (process_completed_pairs st (row_idx, r, endereco) _ _ _ _ _ Hdata Hutms). }
  split.
  { rewrite length_map. apply Forall2_length in Hutms. simpl in Hutms. lia. }
  split.
  { intros u. split; [apply clone_geom|]. intros k. apply clone_other. }
  intros df jobs before after Hwf Hjobs Hsub Hnd out.
  set (j := ((row_idx, r, endereco) : job)) in *.
  set (completed := before ++ (j, data) :: after) in *.
  pose proof Hwf as (Hcols & Hidx & Hlen).
  assert (j ∈ jobs) as Hj.
  { apply Hsub. apply list_elem_of_fmap. exists (j, data). split; [done|].
    apply elem_of_app. right. left. }
  destruct (job_row _ _ _ Hidx Hjobs Hj) as (Hrow & Hlt & Hgeom).
  change (row_idx_of j) with row_idx in Hrow, Hlt. change (j.1.2) with r in Hrow.
  pose proof (reconcile_in_range _ _ _ Hidx Hjobs Hsub) as Hrange.
  (* the key of the record holds the first reprojection at the end *)
  assert (dict_lookup row_idx (updates (reconcile completed)) = Some utm) as Hkey.
  { unfold completed. rewrite reconcile_split, fold_process_untouched.
    - rewrite (process_completed_pairs _ _ _ _ _ _ _ Hdata Hutms).
      apply dict_lookup_set.
    - intros j' data' Hin' Hidx'. exfalso.
      unfold completed in Hnd. rewrite fmap_app, map_app in Hnd.
      apply NoDup_app in Hnd as (_ & _ & Hnd). csimpl in Hnd.
      apply NoDup_cons in Hnd as [Hnd _]. apply Hnd.
      change (row_idx_of j) with row_idx. rewrite <- Hidx'.
      apply list_elem_of_fmap_2. apply list_elem_of_fmap. by exists (j', data'). }
  destruct (lookup_lt_is_Some_2 (values df) row_idx Hlt) as [cells Hcells].
  assert (written df (updates (reconcile completed)) !! row_idx =
          Some (set_cell (columns df) "the_geom" (CStr utm) cells)) as Hw.
  { unfold written. rewrite (write_all_key _ _ _ row_idx utm), Hcells; [done| |].
    - apply fold_process_NoDup. constructor.
    - by apply dict_lookup_Some_elem. }
  assert (length cells = length (columns df)) as Hcl
    by by eapply (Forall_lookup_1 _ _ _ _ Hlen).
  assert (∀ c, c ∈ columns df → ∃ x, cell_of df row_idx c = Some x) as Hsome.
  { intros c Hc. unfold cell_of. rewrite Hcells. cbn [mbind option_bind].
    by apply cell_at_is_Some. }
  split; [|split; [|split]].
  - unfold out. rewrite (merge_cell _ _ _ _ _ Hwf Hgeom Hrange Hgeom Hw).
    rewrite cell_at_set_cell by done. cbn [fmap option_fmap option_map].
    by rewrite (taken_geom _ _ _ _ Hwf Hjobs Hsub Hgeom).
  - intros c Hc Hne. unfold out. destruct (Hsome c Hc) as [x Hx].
    exists x, (taken df (reconcile completed) c x).
    split; [done|]. split; [|apply taken_widened].
    rewrite (merge_cell _ _ _ _ _ Hwf Hgeom Hrange Hc Hw).
    rewrite cell_at_set_cell_ne by done.
    unfold cell_of in Hx. rewrite Hcells in Hx. cbn [mbind option_bind] in Hx.
    by rewrite Hx.
  - by apply merge_length.
  - exists (length (values df) + length (new_rows (reconcile before))).
    split; [lia|]. intros m u Hu.
    assert (new_rows (reconcile completed)
              !! (length (new_rows (reconcile before)) + m) = Some (clone r u)) as Hd.
    { unfold completed. rewrite reconcile_split.
      destruct (fold_process_new_rows after (process_completed (reconcile before) (j, data)))
        as [extra ->].
      rewrite (process_completed_pairs _ _ _ _ _ _ _ Hdata Hutms). cbn [new_rows].
      change (j.1.2) with r.
      rewrite <- app_assoc.
      rewrite (lookup_app_r (new_rows (reconcile before))) by lia.
      replace (length (new_rows (reconcile before)) + m
               - length (new_rows (reconcile before))) with m by lia.
      rewrite lookup_app_l.
      + change (map (clone r) utms) with (clone r <$> utms).
        by rewrite list_lookup_fmap, Hu.
      + rewrite length_map. by eapply lookup_lt_Some. }
    assert (new_rows (reconcile completed) ≠ []) as Hne.
    { intros Hnil. by rewrite Hnil in Hd. }
    assert (∀ c, c ∈ columns df → c ∈ columns (merge df (reconcile completed))) as Hpre.
    { intros c Hc. rewrite (merge_columns _ _ Hidx Hgeom Hrange).
      destruct (new_rows (reconcile completed)); [done|]. apply elem_of_app. by left. }
    rewrite <- Nat.add_assoc. unfold out.
    split; [|split].
    + rewrite (merge_appended_cell _ _ _ _ _ Hidx Hgeom Hrange Hd (Hpre _ Hgeom)).
      unfold value_of. rewrite clone_geom. cbn [default].
      by destruct (merged_dtype _ _ _), (infer_dtype _).
    + intros c Hc Hcg.
      rewrite (merge_appended_cell _ _ _ _ _ Hidx Hgeom Hrange Hd (Hpre _ Hc)).
      eexists. split; [done|]. unfold value_of. rewrite clone_other by done. split.
      * intros Hplain. destruct (Hsome c Hc) as [x Hx]. exists x. split; [done|].
        pose proof (itertuples_getattr _ _ _ _ Hidx Hrow Hplain) as Hget.
        rewrite Hx in Hget. unfold getattr in Hget.
        destruct (dict_lookup c r) as [x'|]; [|done]. injection Hget as ->.
        cbn [default]. eapply widened_trans; apply astype_widened.
      * intros Hno. apply dict_lookup_None in Hno. rewrite Hno. cbn [default].
        by destruct (merged_dtype _ _ _), (infer_dtype _).
    + assert ("Index" ∈ columns (merge df (reconcile completed))) as HI.
      { apply (merge_columns_key _ _ (clone r u) _ Hidx Hgeom Hrange).
        - by eapply list_elem_of_lookup_2.
        - eapply dict_lookup_key. rewrite clone_other by done.
          by eapply itertuples_Index. }
      rewrite (merge_appended_cell _ _ _ _ _ Hidx Hgeom Hrange Hd HI).
      eexists. split; [done|]. unfold value_of. rewrite clone_other by done.
      rewrite (itertuples_Index _ _ _ Hidx Hrow). cbn [default]. split.
      * eapply widened_trans; apply astype_widened.
      * intros Hno.
        destruct (merged_dtype_Index _ _ _ Hwf Hjobs Hsub Hno Hne) as [H1 H2].
        unfold value_of in H1. by rewrite H1, H2.
Qed.

(** *** The label field in the table written *)

(** C9, as amended. The dict [duplicate_row_with_new_UTM] returns for a row
    of the table has the key [Index], holding the label of the row, which is
    its position, next to every field of the named tuple of the row; a field
    other than [the_geom] keeps its value. A column whose label is a field
    name (an identifier that is no keyword, does not start with an
    underscore and is not [Index]) is such a field, holding the cell of the
    record. So when a lookup returns two pairs or more, the table written has
    more rows than the table read and a column that the table read lacks,
    under which the records of the table read hold NaN: the column [Index],
    unless the table read has a column of that name, under which every
    appended row holds the label of a record, as a float. *)
Theorem clone_carries_Index df :
  read_csv_frame df →
  (∀ i r coordinates new_row,
     itertuples df !! i = Some r →
     duplicate_row_with_new_UTM r coordinates = Ok new_row →
     dict_lookup "Index" new_row = Some (CInt (Z.of_nat i)) ∧
     (∀ k, k ∈ r.*1 → k ∈ new_row.*1) ∧
     (∀ k, k ≠ "the_geom" → dict_lookup k new_row = dict_lookup k r) ∧
     ∀ c, c ∈ columns df → plain_name c = true →
       is_Some (dict_lookup c new_row) ∧
       (c ≠ "the_geom" → dict_lookup c new_row = cell_of df i c)) ∧
  (∀ jobs completed j data p1 p2 pairs utms,
     rows_to_process df = Ok jobs →
     (∀ j', j' ∈ completed.*1 → j' ∈ jobs) →
     (j, data) ∈ completed →
     geocode_result data (p1 :: p2 :: pairs) →
     reprojects (p1 :: p2 :: pairs) utms →
     let out := merge df (reconcile completed) in
     (∃ c, c ∈ columns out ∧ c ∉ columns df) ∧
     length (values df) < length (values out) ∧
     (∀ c i, c ∈ columns out → c ∉ columns df → i < length (values df) →
        cell_of out i c = Some nan_cell) ∧
     ("Index" ∉ columns df →
      "Index" ∈ columns out ∧
      ∀ i, length (values df) ≤ i < length (values out) →
        ∃ l, l < length (values df) ∧
             cell_of out i "Index" = Some (CFloat (float_of_Z (Z.of_nat l))))).
Proof.
  intros Hwf. pose proof Hwf as (Hcols & Hidx & Hlen). split.
  - intros i r coordinates new_row Hr Hdup.
    apply duplicate_row_is_clone in Hdup as [utm ->]. split.
    { rewrite clone_other by done. by eapply itertuples_Index. }
    split.
    { intros k Hk. unfold clone, asdict. rewrite dict_set_keys.
      case_bool_decide; [done|]. apply elem_of_app. by left. }
    split.
    { intros k. apply clone_other. }
    intros c Hc Hplain.
    pose proof (itertuples_getattr _ _ _ _ Hidx Hr Hplain) as Hget.
    unfold getattr in Hget.
    assert (is_Some (cell_of df i c)) as [x Hx].
    { rewrite (itertuples_lookup _ _ Hidx) in Hr. unfold cell_of.
      destruct (values df !! i) as [cells|] eqn:Hcells; [|done]. simpl.
      apply cell_at_is_Some; [done|]. by eapply (Forall_lookup_1 _ _ _ _ Hlen). }
    rewrite Hx in Hget.
    assert (dict_lookup c r = Some x) as Hcr
      by (destruct (dict_lookup c r); by simplify_eq).
    split.
    + destruct (decide (c = "the_geom")) as [->|Hne].
      * rewrite clone_geom. by eexists.
      * rewrite clone_other, Hcr by done. by eexists.
    + intros Hne. by rewrite clone_other, Hcr, Hx.
  - intros jobs completed j data p1 p2 pairs utms Hjobs Hsub Hin Hdata Hutms out.
    assert (j ∈ jobs) as Hj.
    { apply Hsub. apply list_elem_of_fmap. by exists (j, data). }
    destruct (job_row _ _ _ Hidx Hjobs Hj) as (Hrow & Hlt & Hgeom).
    pose proof (reconcile_in_range _ _ _ Hidx Hjobs Hsub) as Hrange.
    apply Forall2_cons_inv_l in Hutms as (u1 & utms1 & Hu1 & Hutms & ->).
    apply Forall2_cons_inv_l in Hutms as (u2 & utms2 & Hu2 & Hutms & ->).
    assert (reprojects (p1 :: p2 :: pairs) (u1 :: u2 :: utms2)) as Hall
      by by repeat constructor.
    assert (clone j.1.2 u2 ∈ new_rows (reconcile completed)) as Hclone.
    { apply list_elem_of_split in Hin as (before & after & ->).
      rewrite reconcile_split.
      destruct (fold_process_new_rows after (process_completed (reconcile before) (j, data)))
        as [extra ->].
      rewrite (process_completed_pairs _ _ _ _ _ _ _ Hdata Hall). cbn [new_rows map].
      apply elem_of_app. left. apply elem_of_app. right. left. }
    assert (new_rows (reconcile completed) ≠ []) as Hne.
    { intros Hnil. rewrite Hnil in Hclone. by apply elem_of_nil in Hclone. }
    assert (∀ k, k ∈ (j.1.2).*1 → k ∈ columns out) as Hkeys.
    { intros k Hk. apply (merge_columns_key _ _ _ _ Hidx Hgeom Hrange Hclone).
      unfold clone, asdict. rewrite dict_set_keys.
      case_bool_decide; [done|]. apply elem_of_app. by left. }
    pose proof (merge_length _ _ Hidx Hgeom Hrange) as Hlength.
    fold out in Hlength.
    split; [|split; [|split]].
    + (* the fields are one more than the columns *)
      rewrite (itertuples_lookup _ _ Hidx) in Hrow.
      destruct (values df !! row_idx_of j) as [cells|] eqn:Hcells; [|done].
      assert (length cells = length (columns df)) as Hcl
        by by eapply (Forall_lookup_1 _ _ _ _ Hlen).
      assert ((j.1.2).*1 = fields_of (columns df)) as Hfields.
      { rewrite <- (Some_inj _ _ Hrow). apply fst_zip. unfold fields_of.
        rewrite rename_fields_length. simpl. lia. }
      destruct (fresh_name (fields_of (columns df)) (columns df)) as (x & Hx & Hnx).
      { apply rename_fields_NoDup. }
      { unfold fields_of. rewrite rename_fields_length. simpl. lia. }
      exists x. split; [|done]. apply Hkeys. by rewrite Hfields.
    + rewrite Hlength. destruct (new_rows (reconcile completed)); [done|].
      cbn [length]. lia.
    + intros c i Hc Hno Hi. by apply merge_new_column.
    + intros Hno. split.
      { apply Hkeys. eapply dict_lookup_key. by eapply itertuples_Index. }
      intros i [Hge Hi]. rewrite Hlength in Hi.
      assert (∃ q, i = length (values df) + q ∧
                   q < length (new_rows (reconcile completed)))
        as (q & -> & Hq) by (exists (i - length (values df)); lia).
      destruct (lookup_lt_is_Some_2 _ _ Hq) as [d Hd].
      pose proof (new_rows_Index _ _ _ Hwf Hjobs Hsub) as HI.
      rewrite Forall_forall in HI.
      destruct (HI d (list_elem_of_lookup_2 _ _ _ Hd)) as (l & Hl & Hv).
      exists l. split; [done|]. unfold out.
      rewrite (merge_appended_cell _ _ _ _ _ Hidx Hgeom Hrange Hd).
      * destruct (merged_dtype_Index _ _ _ Hwf Hjobs Hsub Hno Hne) as [H1 H2].
        by rewrite H1, H2, Hv.
      * apply Hkeys. eapply dict_lookup_key. by eapply itertuples_Index.
Qed.

Lemma as_completed_jobs requests_get api_type schedule jobs :
  (map (λ jf : job * (value * list line), (jf.1, jf.2.1))
       (as_completed requests_get api_type schedule jobs)).*1 = schedule jobs.
Proof.
  unfold as_completed. induction (schedule jobs) as [|j l IH]; [done|].
  csimpl. by rewrite IH.
Qed.


(** [pd.DataFrame] of the same dicts in another order: the same columns
    with the same dtypes, the same rows in another order. *)
Lemma pd_DataFrame_Permutation (l1 l2 : list row) :
  l1 ≡ₚ l2 → union_keys [] l1 = union_keys [] l2 →
  columns (pd_DataFrame l1) = columns (pd_DataFrame l2) ∧
  values (pd_DataFrame l1) ≡ₚ values (pd_DataFrame l2) ∧
  ∀ a c, concat_dtype a (pd_DataFrame l1) c = concat_dtype a (pd_DataFrame l2) c.
Proof.
  intros Hp Hk.
  assert (∀ c, infer_dtype (map (value_of c) l1) = infer_dtype (map (value_of c) l2))
    as Ht.
  { intros c. apply infer_dtype_Permutation. by apply Permutation_map. }
  assert (∀ d : row,
            map (λ c, astype (infer_dtype (map (value_of c) l1)) (value_of c d))
                (union_keys [] l1) =
            map (λ c, astype (infer_dtype (map (value_of c) l2)) (value_of c d))
                (union_keys [] l2)) as Hrow.
  { intros d. rewrite Hk. apply map_ext. intros c. by rewrite Ht. }
  split; [exact Hk|]. split.
  { unfold pd_DataFrame. cbn [values].
    rewrite (map_ext _ _ Hrow). by apply Permutation_map. }
  intros a c. unfold concat_dtype. f_equal.
  destruct (decide (c ∈ union_keys [] l1)) as [Hc|Hc].
  - rewrite !column_pd_DataFrame by by rewrite <- ?Hk.
    cbn [fmap option_fmap option_map]. f_equal.
    rewrite (map_ext (λ d, astype (infer_dtype (map (value_of c) l1)) (value_of c d))
                     (λ d, astype (infer_dtype (map (value_of c) l2)) (value_of c d)))
      by (intros d; by rewrite Ht).
    apply infer_dtype_Permutation. by apply Permutation_map.
  - rewrite !column_None; [done|cbn [columns pd_DataFrame]; by rewrite <- ?Hk..].
Qed.

Lemma pd_concat_Permutation a b1 b2 :
  columns b1 = columns b2 → values b1 ≡ₚ values b2 →
  (∀ c, concat_dtype a b1 c = concat_dtype a b2 c) →
  columns (pd_concat a b1) = columns (pd_concat a b2) ∧
  index (pd_concat a b1) = index (pd_concat a b2) ∧
  take (length (values a)) (values (pd_concat a b1)) =
    take (length (values a)) (values (pd_concat a b2)) ∧
  drop (length (values a)) (values (pd_concat a b1)) ≡ₚ
    drop (length (values a)) (values (pd_concat a b2)).
Proof.
  intros Hc Hv Ht. unfold pd_concat. cbn [columns index values]. rewrite Hc.
  assert (∀ old new r, reindex (concat_dtype a b1) old new r =
                       reindex (concat_dtype a b2) old new r) as Hre.
  { intros old new r. unfold reindex. apply map_ext. intros c. by rewrite Ht. }
  split; [done|]. split.
  { do 2 f_equal. exact (Permutation_length Hv). }
  split.
  - rewrite !take_app_length' by by rewrite length_map.
    apply map_ext. intros r. apply Hre.
  - rewrite !drop_app_length' by by rewrite length_map.
    rewrite (map_ext _ _ (Hre (columns b2) _)). by apply Permutation_map.
Qed.

Lemma merge_Permutation df jobs c1 c2 :
  read_csv_frame df →
  rows_to_process df = Ok jobs →
  c1.*1 ≡ₚ jobs → c1 ≡ₚ c2 →
  columns (merge df (reconcile c1)) = columns (merge df (reconcile c2)) ∧
  index (merge df (reconcile c1)) = index (merge df (reconcile c2)) ∧
  take (length (values df)) (values (merge df (reconcile c1))) =
    take (length (values df)) (values (merge df (reconcile c2))) ∧
  drop (length (values df)) (values (merge df (reconcile c1))) ≡ₚ
    drop (length (values df)) (values (merge df (reconcile c2))) ∧
  printed (reconcile c1) ≡ₚ printed (reconcile c2).
Proof.
  intros Hwf Hjobs Hc1 Hc. pose proof Hwf as (Hcols & Hidx & Hlen).
  destruct c1 as [|[j0 data0] c1'] eqn:Ec1.
  { apply Permutation_nil in Hc as ->. repeat split; done. }
  assert (∀ c : list (job * value), c.*1 ≡ₚ jobs → ∀ j, j ∈ c.*1 → j ∈ jobs) as Hsub.
  { intros c Hp j Hj. by rewrite <- Hp. }
  assert ("the_geom" ∈ columns df) as Hgeom.
  { assert (j0 ∈ jobs) as Hj0 by (apply (Hsub _ Hc1); left).
    by destruct (job_row _ _ _ Hidx Hjobs Hj0) as (_ & _ & ?). }
  rewrite <- Ec1 in *. clear c1' Ec1.
  assert (c2.*1 ≡ₚ jobs) as Hc2 by by rewrite <- Hc.
  assert (∀ c : list (job * value), c.*1 ≡ₚ jobs → NoDup (map row_idx_of c.*1)) as Hids.
  { intros c Hp. change (map row_idx_of c.*1) with (row_idx_of <$> c.*1).
    rewrite Hp. exact (rows_to_process_from_NoDup _ _ _ Hjobs). }
  pose proof (reconcile_in_range _ _ _ Hidx Hjobs (Hsub _ Hc1)) as Hr1.
  pose proof (reconcile_in_range _ _ _ Hidx Hjobs (Hsub _ Hc2)) as Hr2.
  pose proof (new_rows_keys _ _ _ Hwf Hjobs (Hsub _ Hc1)) as Hk1.
  pose proof (new_rows_keys _ _ _ Hwf Hjobs (Hsub _ Hc2)) as Hk2.
  pose proof (fold_process_NoDup c1 (State [] [] []) (NoDup_nil_2 : NoDup []))
    as Hnd.
  fold (reconcile c1) in Hnd.
  assert (updates (reconcile c1) ≡ₚ updates (reconcile c2) ∧
          new_rows (reconcile c1) ≡ₚ new_rows (reconcile c2) ∧
          printed (reconcile c1) ≡ₚ printed (reconcile c2)) as (Hu & Hn & Hp).
  { rewrite (reconcile_concat c1 (Hids _ Hc1)), (reconcile_concat c2 (Hids _ Hc2)).
    cbn [updates new_rows printed]. repeat split; by apply concat_map_Permutation. }
  rewrite (merge_in_range _ _ Hidx Hgeom Hr1), (merge_in_range _ _ Hidx Hgeom Hr2).
  rewrite <- (written_Permutation df _ _ Hnd Hu).
  destruct (new_rows (reconcile c1)) as [|d1 n1] eqn:Hn1.
  { apply Permutation_nil in Hn as ->. done. }
  destruct (new_rows (reconcile c2)) as [|d2 n2] eqn:Hn2.
  { symmetry in Hn. by apply Permutation_nil in Hn. }
  assert (union_keys [] (d1 :: n1) = union_keys [] (d2 :: n2)) as Hkeys.
  { by rewrite (union_keys_uniform _ (d1 :: n1) ltac:(done) Hk1),
               (union_keys_uniform _ (d2 :: n2) ltac:(done) Hk2). }
  destruct (pd_DataFrame_Permutation _ _ Hn Hkeys) as (Hc12 & Hv12 & Ht12).
  destruct (pd_concat_Permutation
              (Frame (columns df) (index df) (written df (updates (reconcile c1))))
              _ _ Hc12 Hv12 (Ht12 _)) as (H1 & H2 & H3 & H4).
  cbn [values] in H3, H4. rewrite written_length in H3, H4. done.
Qed.


(** X7. The order in which the lookups complete matters only to the order
    of the rows appended and of the lines printed. Two runs over the same
    table with the same service, whose pools hand back every lookup once
    but in different orders, write tables with the same columns and the same
    row labels, in which the records of the table read are the same rows,
    and in which the appended rows are the same up to their order; the lines
    printed are the same up to their order. *)
Theorem completion_order_is_immaterial requests_get api_type s1 s2 df
    out1 lines1 out2 lines2 :
  read_csv_frame df →
  (∀ jobs, s1 jobs ≡ₚ jobs) → (∀ jobs, s2 jobs ≡ₚ jobs) →
  main requests_get api_type s1 df = Ok (out1, lines1) →
  main requests_get api_type s2 df = Ok (out2, lines2) →
  columns out1 = columns out2 ∧ index out1 = index out2 ∧
  take (length (values df)) (values out1) =
    take (length (values df)) (values out2) ∧
  drop (length (values df)) (values out1) ≡ₚ
    drop (length (values df)) (values out2) ∧
  lines1 ≡ₚ lines2.
Proof.
  intros Hwf Hs1 Hs2. unfold main.
  destruct (rows_to_process df) as [jobs|] eqn:Hjobs; [|done]. rewrite !bind_Ok.
  intros H1 H2. injection H1 as <- <-. injection H2 as <- <-.
  assert (as_completed requests_get api_type s1 jobs ≡ₚ
          as_completed requests_get api_type s2 jobs) as Hf.
  { unfold as_completed. apply Permutation_map. by rewrite Hs1, Hs2. }
  destruct (merge_Permutation df jobs
              (map (λ jf : job * (value * list line), (jf.1, jf.2.1))
                   (as_completed requests_get api_type s1 jobs))
              (map (λ jf : job * (value * list line), (jf.1, jf.2.1))
                   (as_completed requests_get api_type s2 jobs)) Hwf Hjobs)
    as (Hc & Hi & Ht & Hd & Hp).
  - rewrite as_completed_jobs. apply Hs1.
  - by apply Permutation_map.
  - split_and!; [done..|]. apply Permutation_app; [|done].
    by apply concat_map_Permutation.
Qed.


(** *** The lines of a run *)

Lemma fetch_geocode_lines requests_get endereco api_type :
  (fetch_geocode requests_get endereco api_type).2 = [] ∨
  ∃ e, fetch_geocode requests_get endereco api_type =
         (VNone, [Error_fetching_geocode_for endereco e]).
Proof.
  rewrite fetch_geocode_cases.
  destruct (requests_get _) as [r|e]; [|by eauto].
  destruct (status_code r =? 200)%Z; [|by left].
  destruct (json r) as [data|e]; [|by eauto].
  destruct (String.eqb _ _); [|by left].
  destruct (normalize_google_response data); by eauto.
Qed.

(** A lookup the client gave up on is not heard of again in the loop. *)
Lemma lookup_lines requests_get api_type (j : job) :
  ∃ ls, (fetch_geocode requests_get j.2 api_type).2 ++
        printed (outcome (j, (fetch_geocode requests_get j.2 api_type).1)) = ls ∧
        length ls ≤ 1 ∧
        ∀ l, l ∈ ls →
          ∃ e, l = Error_fetching_geocode_for j.2 e ∨ l = Error_processing j.2 e.
Proof.
  eexists. split; [done|].
  destruct (fetch_geocode_lines requests_get j.2 api_type) as [Hf|[e Hf]].
  - rewrite Hf. cbn [app].
    destruct (outcome_shape j (fetch_geocode requests_get j.2 api_type).1)
      as [_ [->|(e & _ & ->)]].
    + split; [cbn; lia|]. intros l []%elem_of_nil.
    + split; [done|]. intros l ->%list_elem_of_singleton. eauto.
  - rewrite Hf. cbn [fst snd].
    destruct (outcome_shape j VNone) as [_ [->|(e' & Ht & _)]]; [|done].
    split; [done|]. intros l ->%list_elem_of_singleton. eauto.
Qed.

(** X8. A run prints no more lines than it looks up records, and each line
    names the query of such a record: it is the line of the client, printed
    when the request, the decoding or the normaliser raised, or the line of
    the loop, printed when the result could not be used. *)
Theorem one_line_per_lookup requests_get api_type schedule df jobs out lines :
  rows_to_process df = Ok jobs →
  schedule jobs ≡ₚ jobs →
  main requests_get api_type schedule df = Ok (out, lines) →
  length lines ≤ length jobs ∧
  ∀ l, l ∈ lines →
    ∃ j e, j ∈ jobs ∧
      (l = Error_fetching_geocode_for j.2 e ∨ l = Error_processing j.2 e).
Proof.
  intros Hjobs Hs. unfold main. rewrite Hjobs, bind_Ok.
  intros H. injection H as _ <-. unfold reconcile.
  rewrite (proj2 (fold_process_rows_lines _ _)). cbn [printed app].
  unfold as_completed. rewrite <- (Permutation_length Hs).
  assert (∀ l, l ∈ schedule jobs → l ∈ jobs) as Hsub.
  { intros l Hl. by rewrite <- Hs. }
  clear Hs. induction (schedule jobs) as [|j js IH].
  - split; [done|]. intros l []%elem_of_nil.
  - destruct IH as [IHlen IHin]. { intros l Hl. apply Hsub. by right. }
    cbn [map concat fst snd] in *. rewrite !length_app in *.
    destruct (lookup_lines requests_get api_type j) as (ls & Hls & Hlen & Hin).
    pose proof (f_equal length Hls) as Hl. rewrite length_app in Hl.
    split; [cbn [length]; lia|]. intros l Hl'.
    assert (l ∈ ls ∨
            l ∈ concat (map (λ jf : job * (value * list line), jf.2.2)
                         (map (λ j, (j, fetch_geocode requests_get j.2 api_type)) js))
                ++ concat (map (λ jd, printed (outcome jd))
                            (map (λ jf : job * (value * list line), (jf.1, jf.2.1))
                              (map (λ j, (j, fetch_geocode requests_get j.2 api_type)) js))))
      as [Hhere|Hthere].
    { rewrite <- Hls. rewrite !elem_of_app in *. tauto. }
    + destruct (Hin l Hhere) as [e He]. exists j, e. split; [|done].
      apply Hsub. left.
    + by apply IHin.
Qed.


(** *** The table written, as a table *)

Lemma union_keys_NoDup seen (rows : list row) :
  NoDup seen → NoDup (union_keys seen rows).
Proof.
  revert seen. induction rows as [|d rows IH]; intros seen Hnd; [done|].
  cbn [union_keys]. apply IH. apply NoDup_app. split; [done|]. split.
  - intros k Hk [Hn _]%list_elem_of_filter. by apply Hn.
  - apply NoDup_filter, NoDup_remove_dups.
Qed.

Lemma written_other_cell df ups i w c :
  NoDup (columns df) → c ≠ "the_geom" →
  written df ups !! i = Some w →
  ∃ r, values df !! i = Some r ∧ cell_at (columns df) c w = cell_at (columns df) c r.
Proof.
  intros Hnd Hc. unfold written. generalize (values df). revert w.
  induction ups as [|up ups IH] using rev_ind; intros w d Hw.
  - by exists w.
  - rewrite fold_left_app in Hw. cbn [fold_left] in Hw. unfold write_geom at 1 in Hw.
    destruct (decide (up.1 = i)) as [<-|Hne].
    + rewrite list_lookup_alter_eq in Hw.
      destruct (fold_left _ ups d !! up.1) as [w0|] eqn:Hw0; [|done].
      destruct (IH _ _ Hw0) as (r & Hr & Heq). exists r. split; [done|].
      rewrite <- (Some_inj _ _ Hw), <- Heq. by apply cell_at_set_cell_ne.
    + rewrite list_lookup_alter_ne in Hw by done. by apply IH.
Qed.

Lemma merge_extends df jobs completed :
  read_csv_frame df →
  rows_to_process df = Ok jobs →
  (∀ j, j ∈ completed.*1 → j ∈ jobs) →
  read_csv_frame (merge df (reconcile completed)) ∧
  columns df `prefix_of` columns (merge df (reconcile completed)) ∧
  length (values (merge df (reconcile completed))) =
    length (values df) + length (new_rows (reconcile completed)) ∧
  ∀ i c, i < length (values df) → c ∈ columns df → c ≠ "the_geom" →
    ∃ x y, cell_of df i c = Some x ∧
           cell_of (merge df (reconcile completed)) i c = Some y ∧
           widened x y ∧ (new_rows (reconcile completed) = [] → y = x).
Proof.
  intros Hwf Hjobs Hsub. pose proof Hwf as (Hcols & Hidx & Hlen).
  assert (∀ i c, i < length (values df) → c ∈ columns df →
            is_Some (cell_of df i c)) as Hsome.
  { intros i c Hi Hc. unfold cell_of.
    destruct (lookup_lt_is_Some_2 (values df) i Hi) as [cells Hcells].
    rewrite Hcells. cbn. apply cell_at_is_Some; [done|].
    by eapply (Forall_lookup_1 _ _ _ _ Hlen). }
  destruct completed as [|[j0 data0] rest] eqn:Ec.
  { rewrite reconcile_nil_merge. cbn. split_and!; [done|done|lia|].
    intros i c Hi Hc _. destruct (Hsome i c Hi Hc) as [x Hx].
    exists x, x. split_and!; [done|done|by left|done]. }
  assert ("the_geom" ∈ columns df) as Hgeom.
  { assert (j0 ∈ jobs) as Hj0 by (apply Hsub; left).
    by destruct (job_row _ _ _ Hidx Hjobs Hj0) as (_ & _ & ?). }
  rewrite <- Ec in *. clear Ec.
  pose proof (reconcile_in_range _ _ _ Hidx Hjobs Hsub) as Hrange.
  split_and!.
  - rewrite (merge_in_range _ _ Hidx Hgeom Hrange).
    destruct (new_rows (reconcile completed)) as [|d ds].
    + split_and!; cbn [columns index values]; [done| |by apply written_row_length].
      by rewrite written_length.
    + unfold pd_concat, pd_DataFrame, read_csv_frame. cbn [columns index values].
      split_and!.
      * apply NoDup_app. split; [done|]. split.
        -- intros k Hk [Hn _]%list_elem_of_filter. by apply Hn.
        -- apply NoDup_filter, union_keys_NoDup, NoDup_nil_2.
      * by rewrite length_app, !length_map.
      * apply Forall_app. split; apply Forall_forall;
          intros r (x & -> & _)%list_elem_of_fmap; unfold reindex;
          by rewrite length_map.
  - rewrite (merge_columns _ _ Hidx Hgeom Hrange).
    destruct (new_rows (reconcile completed)); [done|]. by apply prefix_app_r.
  - by apply merge_length.
  - intros i c Hi Hc Hne.
    destruct (lookup_lt_is_Some_2 (written df (updates (reconcile completed))) i)
      as [w Hw]; [by rewrite written_length|].
    rewrite (merge_cell _ _ _ _ _ Hwf Hgeom Hrange Hc Hw).
    destruct (written_other_cell _ _ _ _ _ Hcols Hne Hw) as (r & Hr & ->).
    destruct (Hsome i c Hi Hc) as [x Hx]. rewrite Hx.
    unfold cell_of in Hx. rewrite Hr in Hx. cbn [mbind option_bind] in Hx.
    rewrite Hx. exists x, (taken df (reconcile completed) c x).
    split_and!; [done|done|apply taken_widened|].
    intros Hn. unfold taken. by rewrite Hn.
Qed.


(** X9. The table a run writes is again a table as [pd.read_csv] returns
    one: distinct column labels, rows labelled by their positions, one cell
    per column in every row. It begins with the columns of the table read, in
    their order, has no fewer rows, and each record of the table read stands
    where it stood, each cell outside the geometry column holding the value
    it held: the same cell when the run appends no row, and otherwise the
    same cell or, for an integer, the float of the same number, as the
    column of a table with appended rows may have become a column of floats.
    The run only writes geometry cells, appends rows and appends columns. *)
Theorem written_table_extends_read_table requests_get api_type schedule df
    out lines :
  read_csv_frame df →
  (∀ jobs j, j ∈ schedule jobs → j ∈ jobs) →
  main requests_get api_type schedule df = Ok (out, lines) →
  read_csv_frame out ∧
  columns df `prefix_of` columns out ∧
  length (values df) ≤ length (values out) ∧
  ∀ i c, i < length (values df) → c ∈ columns df → c ≠ "the_geom" →
    ∃ x y, cell_of df i c = Some x ∧ cell_of out i c = Some y ∧
           widened x y ∧ (length (values out) = length (values df) → y = x).
Proof.
  intros Hwf Hs. unfold main.
  destruct (rows_to_process df) as [jobs|] eqn:Hjobs; [|done]. rewrite bind_Ok.
  intros H. injection H as <- _.
  destruct (merge_extends df jobs
              (map (λ jf : job * (value * list line), (jf.1, jf.2.1))
                   (as_completed requests_get api_type schedule jobs)) Hwf Hjobs)
    as (Hout & Hpre & Hlen & Hcell).
  - intros j. rewrite as_completed_jobs. apply Hs.
  - split_and!; [done|done|lia|].
    intros i c Hi Hc Hne. destruct (Hcell i c Hi Hc Hne) as (x & y & Hx & Hy & Hw & Hsame).
    exists x, y. split_and!; [done|done|done|].
    intros Heq. apply Hsame. apply length_zero_iff_nil. lia.
Qed.


(** *** The file written *)

Lemma basename_no_slash p : is_substring "/" (basename p) = false.
Proof.
  induction p as [|c p IH]; [done|]. cbn [basename].
  by destruct (is_substring "/" (String c p)) eqn:Hs.
Qed.

Lemma basename_plain p : is_substring "/" p = false → basename p = p.
Proof. destruct p as [|c p]; [done|]. cbn [basename]. by intros ->. Qed.

Lemma basename_app s t :
  is_substring "/" t = false → basename (s +:+ t) = basename s +:+ t.
Proof.
  intros Ht. induction s as [|c s IH]; [by apply basename_plain|].
  change (String c s +:+ t) with (String c (s +:+ t)). cbn [basename].
  change (String c (s +:+ t)) with (String c s +:+ t).
  rewrite is_substring_char_app, Ht, orb_false_r.
  destruct (is_substring "/" (String c s)); [exact IH|done].
Qed.

Lemma append_length s t : String.length (s +:+ t) = String.length s + String.length t.
Proof.
  induction s as [|c s IH]; [done|].
  change (S (String.length (s +:+ t)) = S (String.length s + String.length t)).
  by rewrite IH.
Qed.

Lemma append_inj_r s1 s2 t : s1 +:+ t = s2 +:+ t → s1 = s2.
Proof.
  revert s2. induction s1 as [|c s1 IH]; intros [|c' s2] H.
  - done.
  - apply (f_equal String.length) in H. rewrite !append_length in H. cbn in H. lia.
  - apply (f_equal String.length) in H. rewrite !append_length in H. cbn in H. lia.
  - injection H as -> H. by rewrite (IH _ H).
Qed.

Lemma path_join_output name :
  is_substring "/" name = false → path_join "output" name = "output/" +:+ name.
Proof.
  intros Hn. unfold path_join.
  destruct name as [|c name]; [done|].
  cbn [is_substring] in Hn. apply orb_false_iff in Hn as [-> _]. done.
Qed.

Lemma output_path_eq input api_type :
  output_path input api_type =
  "output/" +:+ basename (input +:+ "-" +:+ api_type +:+ ".csv").
Proof. unfold output_path. cbv zeta. apply path_join_output, basename_no_slash. Qed.

Lemma output_name_eq input api_type :
  is_substring "/" api_type = false →
  basename (input +:+ "-" +:+ api_type +:+ ".csv") =
  basename input +:+ "-" +:+ api_type +:+ ".csv".
Proof. intros Ha. apply basename_app. by rewrite !is_substring_char_app, Ha. Qed.

(** X10. The table is written directly into the directory [output], under
    the name of the input file, its directories dropped, followed by the
    provider tag and [.csv]: inputs with the same file name in different
    directories are written to the same file, while the two providers never
    write to the same file. *)
Theorem output_path_in_output_dir input api_type :
  ∃ name,
    output_path input api_type = "output/" +:+ name ∧
    is_substring "/" name = false ∧
    (is_substring "/" api_type = false →
     name = basename input +:+ "-" +:+ api_type +:+ ".csv" ∧
     (∀ input', basename input' = basename input →
        output_path input' api_type = output_path input api_type) ∧
     (∀ api_type', is_substring "/" api_type' = false →
        output_path input api_type' = output_path input api_type →
        api_type' = api_type)).
Proof.
  pose proof output_path_eq as Hpath. pose proof output_name_eq as Hname.
  eexists. split; [apply Hpath|]. split; [apply basename_no_slash|].
  intros Ha. split; [by apply Hname|]. split.
  - intros input' Hb. by rewrite !Hpath, !Hname, Hb.
  - intros api' Ha' Heq. rewrite !Hpath, !Hname in Heq by done.
    apply (inj (String.app "output/")) in Heq.
    apply (inj (String.app (basename input))) in Heq.
    apply (inj (String.app "-")) in Heq. by apply append_inj_r in Heq.
Qed.


(** *** The geometry read back by the map script *)

Lemma run_plain_cons c d : run (String c d) = String c d → digit_or_dot c = true ∧ run d = d.
Proof. cbn [run]. destruct (digit_or_dot c); [|done]. by intros [= ->]. Qed.

Lemma run_app d t : run d = d → run (d +:+ t) = d +:+ run t.
Proof.
  induction d as [|c d IH]; [done|]. intros [Hc Hd]%run_plain_cons.
  change (String c d +:+ ?u) with (String c (d +:+ u)). cbn [run].
  by rewrite Hc, IH.
Qed.

Lemma after_run_app d t : run d = d → after_run (d +:+ t) = after_run t.
Proof.
  induction d as [|c d IH]; [done|]. intros [Hc Hd]%run_plain_cons.
  change (String c d +:+ ?u) with (String c (d +:+ u)). cbn [after_run].
  by rewrite Hc, IH.
Qed.

Lemma extract_x_point fx rest :
  extract_x ("POINT(" +:+ fx +:+ rest) =
  match run (fx +:+ rest) with
  | EmptyString => extract_x (fx +:+ rest)
  | digits => Some digits
  end.
Proof. reflexivity. Qed.

Lemma extract_x_no_P s : is_substring "P" s = false → extract_x s = None.
Proof.
  induction s as [|c s IH]; [done|]. rewrite is_substring_char_cons.
  intros [Hc Hs]%orb_false_iff. cbn [extract_x strip_prefix].
  destruct (decide (_ = c)) as [<-|_]; [by rewrite bool_decide_eq_true_2 in Hc|].
  by apply IH.
Qed.

(** A run of the class that ends inside [any], before a character other
    than [)], is passed over. *)
Lemma after_run_inside a any t :
  digit_or_dot a = true →
  ends_in_digit (String a any) = false →
  is_substring ")" (String a any) = false →
  starts_with ")" (after_run (String a any +:+ t)) = false.
Proof.
  revert a. induction any as [|b any IH]; intros a Ha Hend Hno.
  - cbn [ends_in_digit] in Hend. congruence.
  - change (String a (String b any) +:+ t) with (String a (String b any +:+ t)).
    cbn [after_run]. rewrite Ha.
    rewrite is_substring_char_cons in Hno. apply orb_false_iff in Hno as [_ Hno].
    destruct (digit_or_dot b) eqn:Hb.
    + by apply IH.
    + change (String b any +:+ t) with (String b (any +:+ t)). cbn [after_run].
      rewrite Hb. cbn [starts_with].
      rewrite is_substring_char_cons in Hno. apply orb_false_iff in Hno as [Hc _].
      destruct (decide (_ = b)) as [<-|_]; [by rewrite bool_decide_eq_true_2 in Hc|done].
Qed.

Lemma append_nil_r s : s +:+ "" = s.
Proof.
  induction s as [|c s IH]; [done|].
  change (String c s +:+ "") with (String c (s +:+ "")). by rewrite IH.
Qed.

Lemma extract_y_last any d :
  is_substring ")" any = false → ends_in_digit any = false →
  plain_number d →
  extract_y (any +:+ d +:+ ")") = Some d.
Proof.
  intros Hno Hend [Hd Hrun]. induction any as [|a any IH].
  - destruct d as [|c d]; [done|]. clear Hd.
    destruct (run_plain_cons _ _ Hrun) as [Hc _].
    change ("" +:+ ?u) with u.
    change (String c d +:+ ")") with (String c (d +:+ ")")) at 1. cbn [extract_y].
    change (String c (d +:+ ")")) with (String c d +:+ ")").
    rewrite Hc, after_run_app, run_app by done.
    change (run ")") with "". change (after_run ")") with ")".
    change (starts_with ")" ")") with true. cbn [andb].
    by rewrite append_nil_r.
  - change (String a any +:+ ?u) with (String a (any +:+ u)) at 1. cbn [extract_y].
    change (String a (any +:+ ?u)) with (String a any +:+ u).
    assert (is_substring ")" any = false ∧ (digit_or_dot a = true → ends_in_digit any = false
              ∧ any ≠ "")) as [Hno' Hend'].
    { rewrite is_substring_char_cons in Hno. apply orb_false_iff in Hno as [_ Hno].
      split; [done|]. intros Ha. destruct any; [cbn in Hend; congruence|done]. }
    destruct (digit_or_dot a) eqn:Ha.
    + rewrite (after_run_inside a any _ Ha Hend Hno). cbn [andb].
      apply IH; [done|]. by apply Hend'.
    + cbn [andb]. apply IH; [done|]. destruct any; [done|exact Hend].
Qed.

Lemma ends_in_digit_app s c :
  ends_in_digit (s +:+ String c "") = digit_or_dot c.
Proof.
  induction s as [|a s IH]; [done|].
  change (String a s +:+ ?u) with (String a (s +:+ u)). cbn [ends_in_digit].
  rewrite IH. destruct s; done.
Qed.


Lemma append_assoc s t u : (s +:+ t) +:+ u = s +:+ t +:+ u.
Proof.
  induction s as [|c s IH]; [done|].
  change (String c (s +:+ t) +:+ u = String c (s +:+ t +:+ u)).
  change (String c ((s +:+ t) +:+ u) = String c (s +:+ t +:+ u)). by rewrite IH.
Qed.

Lemma ends_in_digit_app_r s t : t ≠ "" → ends_in_digit (s +:+ t) = ends_in_digit t.
Proof.
  intros Ht. induction s as [|a s IH]; [done|].
  change (String a s +:+ t) with (String a (s +:+ t)). cbn [ends_in_digit].
  rewrite IH. destruct (s +:+ t) eqn:E; [|done]. by destruct s, t.
Qed.

Lemma run_no_paren d : run d = d → is_substring ")" d = false.
Proof.
  induction d as [|c d IH]; [done|]. intros [Hc Hd]%run_plain_cons.
  rewrite is_substring_char_cons, (IH Hd), orb_false_r.
  apply bool_decide_eq_false_2. intros <-. by vm_compute in Hc.
Qed.

(** X11. What the map script reads back from a geometry the geocoding
    script wrote, the coordinates being printed in ASCII. When both are
    printed with digits and dots only, the two patterns give back the two
    printed coordinates. Otherwise
    the first pattern gives the digits and dots that the printed easting
    begins with, so what follows them (an exponent, say) is lost, and finds
    nothing when it begins with none (a sign, [inf], [nan]); the second
    gives the digits and dots that the printed northing ends with, so a sign
    or whatever else stands before them is lost. *)
Theorem geometry_read_back lat lon x y utm :
  transform lon lat = Ok (x, y) →
  convert_lat_lon_to_UTM lat lon = Ok utm →
  ascii_string (py_format x) → ascii_string (py_format y) →
  (plain_number (py_format x) → plain_number (py_format y) →
   extract_x utm = Some (py_format x) ∧ extract_y utm = Some (py_format y)) ∧
  (run (py_format x) ≠ "" → extract_x utm = Some (run (py_format x))) ∧
  (run (py_format x) = "" → is_substring "P" (py_format x +:+ py_format y) = false →
   extract_x utm = None) ∧
  (∀ pre d, py_format y = pre +:+ d → plain_number d →
     ends_in_digit pre = false → is_substring ")" (py_format x +:+ pre) = false →
     extract_y utm = Some d).
Proof.
  intros Ht Hutm _ _. rewrite (convert_point _ _ _ _ Ht) in Hutm. injection Hutm as <-.
  set (fx := py_format x). set (fy := py_format y).
  assert (∀ rest, run (fx +:+ " " +:+ rest) = run fx) as Hrun.
  { intros rest. clear. induction fx as [|c s IH]; [done|].
    change (String c s +:+ ?u) with (String c (s +:+ u)). cbn [run].
    by rewrite IH. }
  assert (run fx ≠ "" → extract_x ("POINT(" +:+ fx +:+ " " +:+ fy +:+ ")") = Some (run fx))
    as Hx.
  { intros Hne. rewrite extract_x_point, Hrun. by destruct (run fx). }
  assert (∀ pre d, fy = pre +:+ d → plain_number d →
            ends_in_digit pre = false → is_substring ")" (fx +:+ pre) = false →
            extract_y ("POINT(" +:+ fx +:+ " " +:+ fy +:+ ")") = Some d) as Hy.
  { intros pre d -> Hd Hend Hno.
    rewrite is_substring_char_app in Hno. apply orb_false_iff in Hno as [Hnx Hnp].
    replace ("POINT(" +:+ fx +:+ " " +:+ (pre +:+ d) +:+ ")")
      with (("POINT(" +:+ fx +:+ " " +:+ pre) +:+ d +:+ ")")
      by by rewrite !append_assoc.
    apply extract_y_last; [|
    |done].
    - by rewrite !is_substring_char_app, Hnx, Hnp.
    - destruct pre as [|c pre].
      + replace ("POINT(" +:+ fx +:+ " " +:+ "") with (("POINT(" +:+ fx) +:+ " ")
          by by rewrite !append_assoc.
        by rewrite ends_in_digit_app.
      + replace ("POINT(" +:+ fx +:+ " " +:+ String c pre)
          with (("POINT(" +:+ fx +:+ " ") +:+ String c pre)
          by by rewrite !append_assoc.
        by rewrite ends_in_digit_app_r. }
  split_and!.
  - intros [Hnx Hrx] Hpy. split.
    + rewrite Hx; rewrite Hrx; done.
    + apply (Hy "" fy); [done..|].
      rewrite append_nil_r. by apply run_no_paren.
  - exact Hx.
  - intros Hr Hno. rewrite extract_x_point, Hrun, Hr. apply extract_x_no_P.
    rewrite is_substring_char_app in Hno. apply orb_false_iff in Hno as [Hnx Hny].
    by rewrite !is_substring_char_app, Hnx, Hny.
  - exact Hy.
Qed.


(** *** The test script and the loop *)

Lemma report_all_elem report k items ls e l :
  report_all report k items = (ls, e) → l ∈ ls →
  ∃ p f, items !! p = Some f ∧ report (k + p) f = Ok l.
Proof.
  revert k ls. induction items as [|f items IH]; intros k ls; cbn [report_all].
  - intros [= <- <-] []%elem_of_nil.
  - destruct (report k f) as [l0|e0] eqn:Hl0.
    + destruct (report_all report (S k) items) as [ls' e'] eqn:Hrest.
      intros [= <- <-] [->|Hin]%elem_of_cons.
      * exists 0, f. by rewrite Nat.add_0_r.
      * destruct (IH _ _ Hrest Hin) as (p & f' & Hp & Hf'). exists (S p), f'.
        split; [done|]. by replace (k + S p) with (S k + p) by lia.
    + intros [= <- <-] []%elem_of_nil.
Qed.

(** The line printed for a feature says how the feature is made. *)
Lemma report_feature_Ok i f l :
  report_feature i f = Ok l →
  (∃ d g coords, l = Feature_coordinates i coords ∧ f = VDict d ∧
     dict_lookup "geometry" d = Some (VDict g) ∧
     dict_lookup "coordinates" g = Some coords) ∨
  (l = Feature_has_no_coordinates i ∧
   (py_in "geometry" f = Ok false ∨
    ∃ g, py_in "geometry" f = Ok true ∧ py_getitem f "geometry" = Ok g ∧
         py_in "coordinates" g = Ok false)).
Proof.
  unfold report_feature.
  destruct (py_in "geometry" f) as [[|]|] eqn:Hin; [| |done]; rewrite bind_Ok.
  - destruct (py_getitem f "geometry") as [g|] eqn:Hg; [|done]. rewrite !bind_Ok.
    destruct (py_in "coordinates" g) as [[|]|] eqn:Hc; [| |done]; rewrite bind_Ok.
    + destruct (py_getitem g "coordinates") as [coords|] eqn:Hcs; [|done].
      rewrite bind_Ok. intros [= <-]. left.
      apply py_getitem_Ok in Hg as (d & -> & Hd).
      apply py_getitem_Ok in Hcs as (gd & -> & Hgd). by exists d, gd, coords.
    + intros [= <-]. right. split; [done|]. right. by exists g.
  - intros [= <-]. right. split; [done|]. by left.
Qed.

(** A feature the test script finds without coordinates stops the loop of
    the geocoding script. *)
Lemma no_coordinates_raises f :
  (py_in "geometry" f = Ok false ∨
   ∃ g, py_in "geometry" f = Ok true ∧ py_getitem f "geometry" = Ok g ∧
        py_in "coordinates" g = Ok false) →
  ∃ e, raises_at f e.
Proof.
  intros [Hin|(g & Hin & Hg & Hc)].
  - destruct f as [| | | | |l|d]; try done.
    + by exists AttributeError.
    + by exists AttributeError.
    + exists AttributeError. intros row_idx r i st. unfold feature_step.
      cbn [py_in] in Hin. injection Hin as Hin.
      apply bool_decide_eq_false_1 in Hin.
      destruct (dict_lookup "geometry" d) as [x|] eqn:Hd; [by destruct Hin|].
      by rewrite (py_get_dict_None _ _ _ Hd).
  - apply py_getitem_Ok in Hg as (d & -> & Hd).
    destruct g as [| | | | |l|gd]; try done.
    + exists AttributeError. intros row_idx r i st. unfold feature_step.
      by rewrite (py_get_dict _ _ _ _ Hd).
    + exists AttributeError. intros row_idx r i st. unfold feature_step.
      by rewrite (py_get_dict _ _ _ _ Hd).
    + exists TypeError. intros row_idx r i st. unfold feature_step.
      cbn [py_in] in Hc. injection Hc as Hc. apply bool_decide_eq_false_1 in Hc.
      destruct (dict_lookup "coordinates" gd) as [x|] eqn:Hgd; [by destruct Hc|].
      rewrite (py_get_dict _ _ _ _ Hd), bind_Ok, (py_get_dict_None _ _ _ Hgd), bind_Ok.
      by destruct (decide (i = 0)).
Qed.

Lemma has_some_true key data :
  has_some key data = Ok true →
  ∃ d x, data = VDict d ∧ dict_lookup key d = Some x ∧ truthy x = true.
Proof.
  unfold has_some.
  destruct (py_in key data) as [[|]|]; [| |done]; rewrite bind_Ok; [|done].
  destruct (py_getitem data key) as [x|] eqn:Hx; [|done]. rewrite bind_Ok.
  intros [= Ht]. apply py_getitem_Ok in Hx as (d & -> & Hd). by exists d, x.
Qed.

Lemma falsy_iter x items : truthy x = false → py_iter x = Ok items → items = [].
Proof.
  destruct x as [| | | |s|l|d]; try done; cbn [truthy py_iter].
  - destruct s; [|done]. by intros _ [= <-].
  - destruct l; [|done]. by intros _ [= <-].
  - destruct d; [|done]. by intros _ [= <-].
Qed.

(** A body in which the test script finds no features leaves the loop
    nothing to write. *)
Lemma has_none_writes_nothing data st (j : job) :
  has_some "features" data = Ok false →
  updates (process_completed st (j, data)) = updates st ∧
  new_rows (process_completed st (j, data)) = new_rows st.
Proof.
  intros Hnone. destruct j as [[row_idx r] endereco]. unfold process_completed.
  destruct (truthy data) eqn:Ht; [|done].
  destruct (_ ≫= _) as [fs|e] eqn:Hfs; [|done].
  assert (fs = []) as ->; [|done].
  unfold has_some in Hnone. destruct data as [| | | | |l|d]; try done.
  destruct (dict_lookup "features" d) as [x|] eqn:Hd.
  - rewrite (py_in_dict _ _ _ Hd), bind_Ok, (py_getitem_dict _ _ _ Hd), bind_Ok in Hnone.
    rewrite (py_get_dict _ _ _ _ Hd), bind_Ok in Hfs.
    injection Hnone as Hx. by eapply falsy_iter.
  - rewrite (py_get_dict_None _ _ _ Hd), bind_Ok in Hfs. by injection Hfs as <-.
Qed.


Lemma report_body_elem key report nothing_found data ls e l :
  report_body key report nothing_found data = (ls, e) → l ∈ ls →
  (l = nothing_found ∧ has_some key data = Ok false) ∨
  ∃ d x items p f,
    data = VDict d ∧ dict_lookup key d = Some x ∧ py_iter x = Ok items ∧
    items !! p = Some f ∧ report p f = Ok l.
Proof.
  unfold report_body. destruct (has_some key data) as [[|]|e0] eqn:Hsome.
  - apply has_some_true in Hsome as (d & x & -> & Hd & _).
    rewrite (py_getitem_dict _ _ _ Hd), bind_Ok.
    destruct (py_iter x) as [items|e0] eqn:Hitems.
    + intros Hall Hin. right.
      destruct (report_all_elem _ _ _ _ _ _ Hall Hin) as (p & f & Hp & Hf).
      by exists d, x, items, p, f.
    + intros [= <- <-] []%elem_of_nil.
  - intros [= <- <-] ->%list_elem_of_singleton. by left.
  - intros [= <- <-] []%elem_of_nil.
Qed.

Lemma test_api_elem url requests_get report r data l :
  requests_get url = Ok r → status_code r = 200%Z → json r = Ok data →
  l ∈ test_api url requests_get report →
  l = API_Response ∨ l = Printed data ∨ l ∈ (report data).1 ∨ ∃ e, l = Exception_line e.
Proof.
  intros Hr Hs Hj. unfold test_api. rewrite Hr, Hs, Hj. cbn [Z.eqb Pos.eqb].
  destruct (report data) as [ls e]. cbn [fst].
  intros [->|[->|[Hin|Hin]%elem_of_app]%elem_of_cons]%elem_of_cons; [by auto..|].
  right. right. right. destruct e as [e|]; [|by apply elem_of_nil in Hin].
  apply list_elem_of_singleton in Hin. by exists e.
Qed.

(** X12. What the test script prints for a body of the first provider tells
    what the geocoding script makes of the same body, which its client hands
    to the loop as it is. Where the test prints the coordinates of feature
    [i], the loop reads these coordinates from feature [i]; where it prints
    that feature [i] has no coordinates, the loop raises once it gets to
    feature [i]; where it prints that no features were found, the loop
    writes nothing. *)
Theorem test_geoapify_predicts_loop requests_get endereco r data :
  requests_get (geocode_url endereco "geoapify") = Ok r →
  status_code r = 200%Z → json r = Ok data →
  fetch_geocode requests_get endereco "geoapify" = (data, []) ∧
  (∀ i coords,
     Feature_coordinates i coords ∈ test_geoapify_api requests_get endereco →
     ∃ features f g,
       (fs ← py_get data "features" (VList []); py_iter fs) = Ok features ∧
       features !! i = Some f ∧
       py_get f "geometry" VNone = Ok g ∧ py_get g "coordinates" VNone = Ok coords) ∧
  (∀ i,
     Feature_has_no_coordinates i ∈ test_geoapify_api requests_get endereco →
     ∃ features f e,
       (fs ← py_get data "features" (VList []); py_iter fs) = Ok features ∧
       features !! i = Some f ∧ raises_at f e) ∧
  (No_features_found_in_response ∈ test_geoapify_api requests_get endereco →
   ∀ st (j : job),
     updates (process_completed st (j, data)) = updates st ∧
     new_rows (process_completed st (j, data)) = new_rows st).
Proof.
  intros Hr Hs Hj.
  assert (∀ l, l ∈ test_geoapify_api requests_get endereco →
            (∀ url, l ≠ Testing_Geoapify_API_with_URL url) → l ≠ API_Response →
            (∀ v, l ≠ Printed v) → (∀ e, l ≠ Exception_line e) →
            (l = No_features_found_in_response ∧ has_some "features" data = Ok false) ∨
            ∃ d x items p f,
              data = VDict d ∧ dict_lookup "features" d = Some x ∧
              py_iter x = Ok items ∧ items !! p = Some f ∧ report_feature p f = Ok l)
    as Hlines.
  { intros l Hl H1 H2 H3 H4. unfold test_geoapify_api in Hl. cbv zeta in Hl.
    apply elem_of_cons in Hl as [->|Hl]; [by edestruct H1|].
    destruct (test_api_elem _ _ _ _ _ _ Hr Hs Hj Hl) as [->|[->|[Hin|[e ->]]]];
      [done|by destruct (H3 data)| |by destruct (H4 e)].
    destruct (report_body _ _ _ data) as [ls e] eqn:Hbody.
    by eapply report_body_elem. }
  split_and!.
  - rewrite fetch_geocode_cases, Hr, Hj, Hs. done.
  - intros i coords Hin.
    destruct (Hlines _ Hin) as [[? _]|(d & x & items & p & f & -> & Hd & Hx & Hp & Hf)];
      [done..|].
    apply report_feature_Ok in Hf
      as [(fd & g & coords' & [= <- <-] & -> & Hg & Hc)|[? _]]; [|done].
    exists items, (VDict fd), (VDict g).
    by rewrite (py_get_dict _ _ _ _ Hd), bind_Ok, Hx, Hp,
               (py_get_dict _ _ _ _ Hg), (py_get_dict _ _ _ _ Hc).
  - intros i Hin.
    destruct (Hlines _ Hin) as [[? _]|(d & x & items & p & f & -> & Hd & Hx & Hp & Hf)];
      [done..|].
    apply report_feature_Ok in Hf as [(? & ? & ? & ? & _)|[[= <-] Hno]]; [done|].
    destruct (no_coordinates_raises _ Hno) as [e He].
    exists items, f, e. by rewrite (py_get_dict _ _ _ _ Hd), bind_Ok, Hx, Hp.
  - intros Hin st j.
    destruct (Hlines _ Hin) as [[_ Hnone]|(d & x & items & p & f & -> & Hd & Hx & Hp & Hf)];
      [done..| |].
    + by apply has_none_writes_nothing.
    + by apply report_feature_Ok in Hf as [(? & ? & ? & ? & _)|[? _]].
Qed.


(** *** The test script and the normaliser *)

(** The loop of the test script over the results and the loop of the
    normaliser go the same way: where one raises the other does, and where
    they end the normaliser has added the located results, in order. *)
Lemma normalize_results_report i items features :
  match report_all report_result i items with
  | (ls, None) =>
      normalize_results items features = Ok (features ++ map feature_of (located ls))
  | (ls, Some _) => ∃ e, normalize_results items features = Raise e
  end.
Proof.
  revert i features. induction items as [|r items IH]; intros i features.
  - cbn. by rewrite app_nil_r.
  - cbn [report_all normalize_results]. unfold report_result at 1. cbv beta.
    destruct (py_in "geometry" r) as [[|]|e0]; rewrite ?bind_Ok; [| |by eexists].
    + destruct (py_getitem r "geometry") as [g|e0]; rewrite ?bind_Ok; [|by eexists].
      destruct (py_in "location" g) as [[|]|e0]; rewrite ?bind_Ok; [| |by eexists].
      * destruct (py_getitem g "location") as [loc|e0]; rewrite ?bind_Ok; [|by eexists].
        destruct (py_getitem loc "lat") as [lat|e0], (py_getitem loc "lng") as [lng|e1];
          rewrite ?bind_Ok; [|by eexists..].
        specialize (IH (S i) (features ++ [feature_of (lng, lat)])).
        destruct (report_all report_result (S i) items) as [ls [e|]]; [done|].
        change (VDict [("geometry", VDict [("coordinates", VList [lng; lat])])])
          with (feature_of (lng, lat)).
        rewrite IH. cbn [located omap map]. by rewrite <- app_assoc.
      * specialize (IH (S i) features).
        by destruct (report_all report_result (S i) items) as [ls [e|]].
    + specialize (IH (S i) features).
      by destruct (report_all report_result (S i) items) as [ls [e|]].
Qed.

Lemma report_result_Ok i r l :
  report_result i r = Ok l →
  (∃ lat lng, l = Result_location i lat lng) ∨ l = Result_has_no_location i.
Proof.
  unfold report_result.
  destruct (py_in "geometry" r) as [[|]|]; rewrite ?bind_Ok; [| |done].
  - destruct (py_getitem r "geometry") as [g|]; rewrite ?bind_Ok; [|done].
    destruct (py_in "location" g) as [[|]|]; rewrite ?bind_Ok; [| |done].
    + destruct (py_getitem g "location") as [loc|]; rewrite ?bind_Ok; [|done].
      destruct (py_getitem loc "lat") as [lat|]; rewrite ?bind_Ok; [|done].
      destruct (py_getitem loc "lng") as [lng|]; rewrite ?bind_Ok; [|done].
      intros [= <-]. left. by exists lat, lng.
    + intros [= <-]. by right.
  - intros [= <-]. by right.
Qed.

(** The body as the normaliser and as the test script take it. *)
Lemma normalize_google_response_report data :
  match report_body "results" report_result No_results_found_in_response data with
  | (ls, None) =>
      (ls = [No_results_found_in_response] ∧ normalize_google_response data = Ok VNone) ∨
      normalize_google_response data =
        Ok (VDict [("features", VList (map feature_of (located ls)))])
  | (ls, Some _) =>
      truthy data = true → ∃ e, normalize_google_response data = Raise e
  end.
Proof.
  unfold report_body, has_some, normalize_google_response.
  destruct (truthy data) eqn:Ht; cbn [negb].
  - destruct (py_in "results" data) as [[|]|e0]; rewrite ?bind_Ok; cbn [negb];
      [| |by eexists].
    + destruct (py_getitem data "results") as [x|e0]; rewrite ?bind_Ok; [|by eexists].
      destruct (truthy x); cbn [negb]; [|by left].
      destruct (py_iter x) as [items|e0]; rewrite ?bind_Ok; [|by eexists].
      pose proof (normalize_results_report 0 items []) as Hsim.
      destruct (report_all report_result 0 items) as [ls [e|]].
      * intros _. destruct Hsim as [e' ->]. by eexists.
      * rewrite Hsim. by right.
    + by left.
  - assert (py_in "results" data ≠ Ok true) as Hin.
    { destruct data as [| | | |s|l|d]; try done.
      - by destruct s.
      - by destruct l.
      - by destruct d. }
    destruct (py_in "results" data) as [[|]|e0]; rewrite ?bind_Ok; [done| |done].
    by left.
Qed.

(** X13. What the test script prints for a body of the second provider
    tells what the client of the geocoding script returns for the same
    body. When the test prints no exception, the client returns without a
    line: nothing, where the test finds no results, and otherwise one
    feature for each result the test prints a location for, in the order of
    these lines, with the coordinates [[lng, lat]]. When the test prints an
    exception and the body is not a false value, the client prints its line
    and returns nothing. For a body that is a false value the client returns
    nothing without a line, whatever the test prints. *)
Theorem test_google_predicts_client requests_get endereco r data :
  requests_get (geocode_url endereco "google") = Ok r →
  status_code r = 200%Z → json r = Ok data →
  ((∀ e, Exception_line e ∉ test_google_api requests_get endereco) →
   (No_results_found_in_response ∈ test_google_api requests_get endereco ∧
    fetch_geocode requests_get endereco "google" = (VNone, [])) ∨
   fetch_geocode requests_get endereco "google" =
     (VDict [("features",
              VList (map feature_of (located (test_google_api requests_get endereco))))],
      [])) ∧
  ((∃ e, Exception_line e ∈ test_google_api requests_get endereco) →
   truthy data = true →
   ∃ e, fetch_geocode requests_get endereco "google" =
          (VNone, [Error_fetching_geocode_for endereco e])) ∧
  (truthy data = false →
   fetch_geocode requests_get endereco "google" = (VNone, [])).
Proof.
  intros Hr Hs Hj.
  assert (test_google_api requests_get endereco =
          let '(ls, e) :=
            report_body "results" report_result No_results_found_in_response data in
          Testing_Google_API_with_URL (geocode_url endereco "google") ::
          API_Response :: Printed data :: ls ++
          match e with Some e => [Exception_line e] | None => [] end) as ->.
  { unfold test_google_api, test_api. cbv zeta.
    change ("http://localhost:8080/external/geocode?address=" +:+ endereco)
      with (geocode_url endereco "google").
    rewrite Hr, Hs, Hj. by destruct (report_body _ _ _ data). }
  rewrite fetch_geocode_cases, Hr, Hj, Hs.
  change (String.eqb (lower "google") "google") with true. cbv iota.
  change ((200 =? 200)%Z) with true. cbv iota.
  pose proof (normalize_google_response_report data) as Hsim.
  destruct (report_body "results" report_result No_results_found_in_response data)
    as [ls [e|]] eqn:Hbody.
  - split_and!.
    + intros Hno. destruct (Hno e). do 3 right. apply elem_of_app. right. left.
    + intros _ Ht. destruct (Hsim Ht) as [e' ->]. by exists e'.
    + intros Ht. unfold normalize_google_response. by rewrite Ht.
  - split_and!.
    + intros _. destruct Hsim as [[-> ->]| ->].
      * left. split; [|done]. do 3 right. left.
      * right. rewrite app_nil_r. done.
    + intros [e He].
      repeat (apply elem_of_cons in He as [?|He]; [done|]).
      rewrite app_nil_r in He.
      destruct (report_body_elem _ _ _ _ _ _ _ Hbody He)
        as [[? _]|(d & x & items & p & f & _ & _ & _ & _ & Hf)]; [done|].
      by apply report_result_Ok in Hf as [(lat & lng & ?)|?].
    + intros Ht. unfold normalize_google_response. by rewrite Ht.
Qed.


(** *** A second run *)

Lemma process_completed_keeps_keys st (j : job) data k :
  k ∈ (updates st).*1 → k ∈ (updates (process_completed st (j, data))).*1.
Proof.
  intros Hk.
  destruct (process_completed_effect st j data)
    as [[-> _]|(utm & utms & -> & _)]; [done|].
  rewrite dict_set_keys. case_bool_decide; [done|]. apply elem_of_app. by left.
Qed.

Lemma fold_process_keeps_keys completed st k :
  k ∈ (updates st).*1 → k ∈ (updates (fold_left process_completed completed st)).*1.
Proof.
  revert st. induction completed as [|[j data] completed IH]; intros st Hk; [done|].
  cbn [fold_left]. by apply IH, process_completed_keeps_keys.
Qed.

(** A lookup that returns a pair writes the entry of its record. *)
Lemma reconcile_writes_key completed (j : job) data p pairs utm utms :
  (j, data) ∈ completed →
  geocode_result data (p :: pairs) → reprojects (p :: pairs) (utm :: utms) →
  row_idx_of j ∈ (updates (reconcile completed)).*1.
Proof.
  intros (before & after & ->)%list_elem_of_split Hdata Hutms.
  rewrite reconcile_split. apply fold_process_keeps_keys.
  rewrite (process_completed_pairs _ _ _ _ _ _ _ Hdata Hutms). cbn [updates].
  rewrite dict_set_keys. case_bool_decide; [done|]. apply elem_of_app. right. left.
Qed.

(** When every lookup returns a pair, no record of the table written lacks
    its geometry. *)
Lemma merge_resolved df jobs completed :
  read_csv_frame df →
  rows_to_process df = Ok jobs →
  completed.*1 ≡ₚ jobs →
  (∀ j data, (j, data) ∈ completed →
     ∃ p pairs utm utms,
       geocode_result data (p :: pairs) ∧ reprojects (p :: pairs) (utm :: utms)) →
  Forall resolved (itertuples (merge df (reconcile completed))).
Proof.
  intros Hwf Hjobs Hperm Hall. pose proof Hwf as (Hcols & Hidx & Hlen).
  assert (∀ j, j ∈ completed.*1 → j ∈ jobs) as Hsub.
  { intros j Hj. by rewrite <- Hperm. }
  destruct (merge_extends df jobs completed Hwf Hjobs Hsub)
    as (Hout & Hpre & Hlength & _).
  pose proof Hout as (_ & Hiout & _).
  pose proof (reconcile_in_range _ _ _ Hidx Hjobs Hsub) as Hrange.
  apply Forall_lookup. intros i r Hr.
  assert (∃ g, cell_of (merge df (reconcile completed)) i "the_geom" = Some g ∧
               pd_isna g = false) as (g & Hg & Hna); last first.
  { exists g. split; [|done].
    by rewrite (itertuples_getattr _ _ _ _ Hiout Hr plain_the_geom), Hg. }
  assert (i < length (values (merge df (reconcile completed)))) as Hi.
  { rewrite (itertuples_lookup _ _ Hiout) in Hr.
    destruct (values (merge df (reconcile completed)) !! i) eqn:E; [|done].
    by eapply lookup_lt_Some. }
  rewrite Hlength in Hi.
  destruct (decide (i < length (values df))) as [Hlt|Hge].
  - (* a record of the table read *)
    destruct (lookup_lt_is_Some_2 (values df) i Hlt) as [cells Hcells].
    assert (itertuples df !! i =
            Some (zip (fields_of (columns df)) (CInt (Z.of_nat i) :: cells))) as Hrow
      by by rewrite (itertuples_lookup _ _ Hidx), Hcells.
    destruct (rows_to_process_from_row _ _ _ _ _ Hjobs Hrow) as (g & Hg & Hjob).
    assert ("the_geom" ∈ columns df) as Hgeom
      by by eapply (getattr_column df _ _ "the_geom" g Hidx Hrow Hg).
    destruct (decide (i ∈ (updates (reconcile completed)).*1)) as [Hin|Hout'].
    + apply list_elem_of_fmap in Hin as ([i' utm] & -> & Hin). cbn [fst] in *.
      pose proof (fold_process_NoDup completed (State [] [] []) (NoDup_nil_2 : NoDup []))
        as Hnd. fold (reconcile completed) in Hnd.
      pose proof (write_all_key (columns df) _ (values df) _ _ Hnd Hin) as Hw.
      rewrite Hcells in Hw. exists (CStr utm). split; [|done].
      rewrite (merge_cell _ _ _ _ _ Hwf Hgeom Hrange Hgeom Hw).
      rewrite cell_at_set_cell; [|done|by eapply (Forall_lookup_1 _ _ _ _ Hlen)].
      cbn [fmap option_fmap option_map].
      by rewrite (taken_geom _ _ _ _ Hwf Hjobs Hsub Hgeom).
    + rewrite (merge_untouched_geom _ _ _ _ Hwf Hjobs Hsub Hout' Hlt Hgeom).
      rewrite (itertuples_getattr _ _ _ _ Hidx Hrow plain_the_geom) in Hg.
      destruct (cell_of df i "the_geom") as [x|]; [|done]. injection Hg as ->.
      destruct (pd_isna g) eqn:Hna; [|by exists g].
      destruct (Hjob eq_refl) as (s & _ & Hj). exfalso. apply Hout'.
        assert ((i, zip (fields_of (columns df)) (CInt (Z.of_nat i) :: cells),
                 address_query s) ∈ completed.*1) as Hc by by rewrite Hperm.
        apply list_elem_of_fmap in Hc as ([j data] & Hj' & Hc). cbn [fst] in Hj'.
        destruct (Hall _ _ Hc) as (p & pairs & utm & utms & Hdata & Hutms).
        pose proof (reconcile_writes_key _ _ _ _ _ _ _ Hc Hdata Hutms) as Hkey.
        by rewrite <- Hj' in Hkey.
  - (* an appended row *)
    assert (∃ q, i = length (values df) + q ∧ q < length (new_rows (reconcile completed)))
      as (q & -> & Hq) by (exists (i - length (values df)); lia).
    destruct (lookup_lt_is_Some_2 _ _ Hq) as [d Hd].
    destruct (new_rows_cloned _ _ _ d Hjobs Hsub) as (j & u & Hj & ->).
    { by eapply list_elem_of_lookup_2. }
    destruct (job_row _ _ _ Hidx Hjobs Hj) as (_ & _ & Hgeom).
    exists (CStr u). split; [|done].
    rewrite (merge_appended_cell _ _ _ _ _ Hidx Hgeom Hrange Hd).
    + unfold value_of. rewrite clone_geom. cbn [default].
      by destruct (merged_dtype _ _ _), (infer_dtype _).
    + destruct Hpre as [k ->]. apply elem_of_app. by left.
Qed.

(** X14. When every lookup of a run returns at least one pair that
    reprojects, no record of the table written lacks its geometry, the rows
    appended included: a second run on that table, taken as the table read,
    looks nothing up, asks no service, prints no error line and writes the
    table as it is. *)
Theorem second_run_looks_nothing_up requests_get api_type schedule df jobs out lines :
  read_csv_frame df →
  rows_to_process df = Ok jobs →
  schedule jobs ≡ₚ jobs →
  (∀ j, j ∈ jobs →
     ∃ p pairs utm utms,
       geocode_result (fetch_geocode requests_get j.2 api_type).1 (p :: pairs) ∧
       reprojects (p :: pairs) (utm :: utms)) →
  main requests_get api_type schedule df = Ok (out, lines) →
  read_csv_frame out ∧
  rows_to_process out = Ok [] ∧
  ∀ requests_get' api_type' schedule',
    schedule' [] = [] →
    main requests_get' api_type' schedule' out = Ok (out, []).
Proof.
  intros Hwf Hjobs Hs Hall. unfold main at 1. rewrite Hjobs, bind_Ok.
  intros H. injection H as <- _.
  set (completed := map (λ jf : job * (value * list line), (jf.1, jf.2.1))
                        (as_completed requests_get api_type schedule jobs)).
  assert (completed.*1 ≡ₚ jobs) as Hperm.
  { unfold completed. by rewrite as_completed_jobs. }
  assert (∀ j, j ∈ completed.*1 → j ∈ jobs) as Hsub.
  { intros j Hj. by rewrite <- Hperm. }
  assert (Forall resolved (itertuples (merge df (reconcile completed)))) as Hres.
  { apply (merge_resolved df jobs completed Hwf Hjobs Hperm).
    intros j data Hin. unfold completed, as_completed in Hin.
    apply list_elem_of_fmap in Hin as ([j' [v ls]] & [= -> ->] & Hin).
    apply list_elem_of_fmap in Hin as (j'' & [= -> Hf] & Hin).
    rewrite Hs in Hin. destruct (Hall _ Hin) as (p & pairs & utm & utms & Hd & Hu).
    exists p, pairs, utm, utms. split; [|done]. by rewrite <- Hf in Hd. }
  pose proof (rows_to_process_from_resolved 0 _ Hres) as Hnone.
  split; [by destruct (merge_extends df jobs completed Hwf Hjobs Hsub)|].
  split; [done|].
  intros requests_get' api_type' schedule' Hsched.
  unfold main, rows_to_process. rewrite Hnone, bind_Ok.
  unfold as_completed. rewrite Hsched. cbn [map concat app].
  by rewrite reconcile_nil_merge.
Qed.


End Geocoding.

(** ** Properties of the map script *)

(** *** Its arguments *)

Lemma starts_with_app p s : starts_with p s = true → ∃ rest, s = p +:+ rest.
Proof.
  revert s. induction p as [|a p IH]; intros s H; [by exists s|].
  destruct s as [|b s]; [done|]. cbn [starts_with] in H.
  destruct (decide (a = b)) as [->|]; [|done].
  destruct (IH _ H) as [rest ->]. by exists rest.
Qed.

Lemma split_eq_head s :
  ∃ field fields,
    split_eq s = field :: fields ∧
    is_substring "=" field = false ∧
    starts_with field s = true ∧
    (is_substring "=" s = false → field = s ∧ fields = []) ∧
    (field = s → is_substring "=" s = false).
Proof.
  induction s as [|c s (field & fields & IH & Hno & Hpre & Hplain & Hback)].
  - by exists "", [].
  - cbn [split_eq]. rewrite IH. destruct (decide (String c "" = "=")) as [Hc|Hc].
    + exists "", (field :: fields). split_and!; [done..| |done].
      injection Hc as ->. by rewrite is_substring_char_cons, bool_decide_eq_true_2.
    + assert (∀ t, is_substring "=" (String c t) = is_substring "=" t) as Hskip.
      { intros t. rewrite is_substring_char_cons, bool_decide_eq_false_2; [done|].
        intros <-. by apply Hc. }
      exists (String c field), fields. split_and!.
      * done.
      * by rewrite Hskip.
      * cbn [starts_with]. by rewrite decide_True.
      * rewrite Hskip. intros Hs. by destruct (Hplain Hs) as [-> ->].
      * intros [= ->]. rewrite Hskip. by apply Hback.
Qed.

(** The first field of a string that holds [=] is what stands before its
    first [=]. *)
Lemma split_eq_first s field fields :
  split_eq s = field :: fields → is_substring "=" s = true →
  ∃ rest, s = field +:+ "=" +:+ rest.
Proof.
  revert field fields. induction s as [|c s IH]; intros field fields; [done|].
  cbn [split_eq]. destruct (decide (String c "" = "=")) as [Hc|Hc].
  - intros [= <- _] _. injection Hc as ->. by exists s.
  - rewrite is_substring_char_cons, bool_decide_eq_false_2
      by (intros <-; by apply Hc).
    cbn [orb]. destruct (split_eq s) as [|f fs] eqn:Hs.
    { destruct (split_eq_head s) as (f0 & fs0 & Hs0 & _). congruence. }
    intros [= <- <-] Hsub. destruct (IH f fs eq_refl Hsub) as [rest ->].
    by exists rest.
Qed.

(** The field after the first [=] of an argument that has one. *)
Lemma second_field p name :
  is_substring "=" p = false →
  ∃ field,
    second (split_eq (p +:+ "=" +:+ name)) = Ok field ∧
    is_substring "=" field = false ∧
    starts_with field name = true ∧
    (field = name ↔ is_substring "=" name = false) ∧
    (is_substring "=" name = true → ∃ rest, name = field +:+ "=" +:+ rest).
Proof.
  intros Hp.
  destruct (split_eq_head name) as (field & fields & Hs & Hno & Hpre & Hplain & Hback).
  exists field.
  assert (split_eq (p +:+ "=" +:+ name) = p :: field :: fields) as ->.
  { induction p as [|c p IH].
    { unfold String.app. cbn [String.append split_eq]. rewrite decide_True by done. by rewrite Hs. }
    rewrite is_substring_char_cons in Hp. apply orb_false_iff in Hp as [Hc Hp].
    change (String c p +:+ "=" +:+ name) with (String c (p +:+ "=" +:+ name)).
    cbn [split_eq]. rewrite (IH Hp), decide_False; [done|].
    intros [= ->]. by rewrite bool_decide_eq_true_2 in Hc. }
  split_and!; [done..| |by apply (split_eq_first _ _ _ Hs)].
  split; [done|]. intros Hn. by destruct (Hplain Hn).
Qed.

Lemma read_arg_flags py_int arg s out :
  ∃ s' out',
    read_arg py_int arg (s, out) = Ok (s', out ++ out') ∧
    (show_help s' = true ↔ show_help s = true ∨ arg = "--help" ∨ arg = "-h") ∧
    (use_fast_markers s' = true ↔ use_fast_markers s = true ∧ arg ≠ "--no-fast").
Proof.
  unfold read_arg.
  destruct (starts_with "--max=" arg) eqn:Hmax.
  { assert (arg ≠ "--help" ∧ arg ≠ "-h" ∧ arg ≠ "--no-fast") as (H1 & H2 & H3)
      by (split_and!; intros ->; by vm_compute in Hmax).
    apply starts_with_app in Hmax as [v ->].
    destruct (second_field "--max" v) as (field & Hf & _); [done|].
    change ("--max=" +:+ v) with ("--max" +:+ "=" +:+ v) in *. rewrite Hf, !bind_Ok.
    destruct (py_int field).
    - eexists _, []. rewrite app_nil_r. split; [done|].
      cbn [show_help use_fast_markers]. naive_solver.
    - exists s, [Invalid_value_for_max field]. split; [done|]. naive_solver. }
  destruct (String.eqb arg "--no-fast") eqn:Hnf.
  { apply String.eqb_eq in Hnf as ->.
    eexists _, []. rewrite app_nil_r. split; [done|].
    cbn [show_help use_fast_markers]. naive_solver. }
  apply String.eqb_neq in Hnf.
  destruct (starts_with "--file=" arg) eqn:Hfile.
  { assert (arg ≠ "--help" ∧ arg ≠ "-h") as (H1 & H2)
      by (split_and!; intros ->; by vm_compute in Hfile).
    apply starts_with_app in Hfile as [v ->].
    destruct (second_field "--file" v) as (field & Hf & _); [done|].
    change ("--file=" +:+ v) with ("--file" +:+ "=" +:+ v) in *. rewrite Hf, !bind_Ok.
    eexists _, []. rewrite app_nil_r. split; [done|].
    cbn [show_help use_fast_markers]. naive_solver. }
  case_bool_decide as Hhelp.
  - eexists _, []. rewrite app_nil_r. split; [done|].
    cbn [show_help use_fast_markers].
    apply elem_of_cons in Hhelp as [->|Hhelp]; [naive_solver|].
    apply list_elem_of_singleton in Hhelp as ->. naive_solver.
  - exists s, []. rewrite app_nil_r. split; [done|].
    rewrite !elem_of_cons, elem_of_nil in Hhelp. naive_solver.
Qed.

(** X15. The loop over the arguments of the map script never raises: an
    argument beginning with [--max=] or [--file=] always has a field after
    its first [=], and an argument of no known form is passed over. After the
    loop the help is asked for exactly when it was before or [--help] or [-h]
    is among the arguments, and the fast markers are in use exactly when they
    were before and [--no-fast] is not among the arguments; the lines printed
    before stay printed. *)
Theorem read_args_never_raises py_int args st :
  ∃ s out,
    read_args py_int args st = Ok (s, st.2 ++ out) ∧
    (show_help s = true ↔ show_help st.1 = true ∨ "--help" ∈ args ∨ "-h" ∈ args) ∧
    (use_fast_markers s = true ↔ use_fast_markers st.1 = true ∧ "--no-fast" ∉ args).
Proof.
  revert st. induction args as [|arg args IH]; intros [s0 out0].
  - exists s0, []. cbn [read_args fst snd]. rewrite app_nil_r.
    split; [done|]. rewrite !elem_of_nil. naive_solver.
  - destruct (read_arg_flags py_int arg s0 out0) as (s1 & out1 & Hstep & Hh1 & Hf1).
    destruct (IH (s1, out0 ++ out1)) as (s & out & Hrest & Hh & Hf).
    exists s, (out1 ++ out). cbn [read_args fst snd] in *.
    rewrite Hstep, bind_Ok, Hrest, app_assoc. split; [done|].
    rewrite Hh, Hf, Hh1, Hf1, !elem_of_cons. naive_solver.
Qed.

Lemma output_name_has_hyphen input api_type :
  is_substring "/" api_type = false →
  is_substring "-" (basename (input +:+ "-" +:+ api_type +:+ ".csv")) = true.
Proof.
  intros Ha. rewrite output_name_eq by done.
  by rewrite !is_substring_char_app, orb_true_r.
Qed.

(** X16. Given [--file=] with the name of the file a run of the geocoding
    script wrote, the map script reads that file exactly when the name holds
    no [=]: otherwise it reads the file named by what stands before the
    first [=] of the name, the name being that field, [=] and a rest.
    Without the argument it reads a file that no run with a provider tag
    free of [/] writes, the name it defaults to having no hyphen. *)
Theorem map_script_reads_written_file py_int input api_type st :
  (∃ s field,
     read_args py_int ["--file=" +:+ basename (input +:+ "-" +:+ api_type +:+ ".csv")] st
       = Ok (s, st.2) ∧
     map_input s = "output/" +:+ field ∧
     starts_with field (basename (input +:+ "-" +:+ api_type +:+ ".csv")) = true ∧
     is_substring "=" field = false ∧
     (map_input s = output_path input api_type ↔
      is_substring "=" (basename (input +:+ "-" +:+ api_type +:+ ".csv")) = false) ∧
     (is_substring "=" (basename (input +:+ "-" +:+ api_type +:+ ".csv")) = false →
      field = basename (input +:+ "-" +:+ api_type +:+ ".csv")) ∧
     (is_substring "=" (basename (input +:+ "-" +:+ api_type +:+ ".csv")) = true →
      ∃ rest, basename (input +:+ "-" +:+ api_type +:+ ".csv") =
                field +:+ "=" +:+ rest)) ∧
  (is_substring "/" api_type = false →
   map_input default_settings ≠ output_path input api_type).
Proof.
  split.
  - destruct st as [s0 out0].
    destruct (second_field "--file" (basename (input +:+ "-" +:+ api_type +:+ ".csv")))
      as (field & Hf & Hno & Hpre & Hiff & Hfirst); [done|].
    eexists _, field. cbn [read_args read_arg fst snd].
    change ("--file=" +:+ ?n) with ("--file" +:+ "=" +:+ n).
    split_and!.
    + change (starts_with "--max=" ("--file" +:+ "=" +:+ ?n)) with false.
      change (String.eqb ("--file" +:+ "=" +:+ ?n) "--no-fast") with false.
      change (starts_with "--file=" ("--file" +:+ "=" +:+ ?n)) with true.
      cbv iota. by rewrite Hf, !bind_Ok.
    + done.
    + done.
    + done.
    + rewrite output_path_eq. unfold map_input. cbn [input_filename].
      rewrite <- Hiff. split; [|by intros ->].
      apply (inj (String.app "output/")).
    + by apply Hiff.
    + exact Hfirst.
  - intros Ha Heq. rewrite output_path_eq in Heq.
    apply (inj (String.app "output/")) in Heq.
    pose proof (output_name_has_hyphen input api_type Ha) as Hh.
    rewrite <- Heq in Hh. by vm_compute in Hh.
Qed.


(** ** The theorems at work on the examples *)

(** A closed decidable statement, settled by evaluating its decision. *)
Ltac decide_by_computation :=
  apply (bool_decide_unpack _); vm_compute; exact I.

(** C7 on a body with two results. *)
Lemma normalize_google_response_reorders_witness :
  google_body sample_google
    [VDict [("geometry",
             VDict [("location", VDict [("lat", VInt (-25)); ("lng", VInt (-51))])])];
     VDict [("geometry",
             VDict [("location", VDict [("lat", VInt (-26)); ("lng", VInt (-52))])])]] ∧
  normalize_google_response sample_google =
    Ok (VDict [("features",
                VList [feature_of (VInt (-51), VInt (-25));
                       feature_of (VInt (-52), VInt (-26))])]).
Proof.
  assert (google_body sample_google
    [VDict [("geometry",
             VDict [("location", VDict [("lat", VInt (-25)); ("lng", VInt (-51))])])];
     VDict [("geometry",
             VDict [("location", VDict [("lat", VInt (-26)); ("lng", VInt (-52))])])]])
    as Hbody.
  { eexists. split; reflexivity. }
  split; [exact Hbody|].
  apply (normalize_google_response_reorders sample_google _
           [(VInt (-51), VInt (-25)); (VInt (-52), VInt (-26))] Hbody).
  repeat constructor; do 3 eexists; repeat split; reflexivity.
Defined.

(** C10 on the tags [geoapify] and [GOOGLE]. *)
Lemma fetch_geocode_selects_provider_witness :
  lower "geoapify" ≠ "google" ∧ lower "GOOGLE" = "google" ∧
  fetch_geocode (sample_get sample_google) "RUA A" "geoapify" = (sample_google, []) ∧
  fetch_geocode (sample_get sample_google) "RUA A" "GOOGLE" =
    (VDict [("features",
             VList [feature_of (VInt (-51), VInt (-25));
                    feature_of (VInt (-52), VInt (-26))])], []).
Proof.
  assert (lower "geoapify" ≠ "google") as Hne by (vm_compute; discriminate).
  assert (lower "GOOGLE" = "google") as Heq by reflexivity.
  split; [exact Hne|]. split; [exact Heq|]. split.
  - destruct (fetch_geocode_selects_provider (sample_get sample_google) "RUA A" "geoapify")
      as (_ & Ha & _).
    destruct (Ha Hne) as [_ Hbody].
    apply (Hbody (Response 200 (Ok sample_google))); reflexivity.
  - destruct (fetch_geocode_selects_provider (sample_get sample_google) "RUA A" "GOOGLE")
      as (_ & _ & Hb).
    destruct (Hb Heq) as [_ Hbody].
    apply (Hbody (Response 200 (Ok sample_google)) sample_google); reflexivity.
Defined.

(** C5 on a service that is down, one that answers 404 and one whose body
    cannot be decoded. *)
Lemma fetch_geocode_never_raises_witness :
  fetch_geocode sample_not_found "RUA A" "geoapify" = (VNone, []) ∧
  fetch_geocode sample_down "RUA A" "geoapify" =
    (VNone, [Error_fetching_geocode_for "RUA A" (Exception "ConnectionError")]) ∧
  fetch_geocode sample_garbled "RUA A" "google" =
    (VNone, [Error_fetching_geocode_for "RUA A" (Exception "JSONDecodeError")]).
Proof.
  split; [|split].
  - destruct (fetch_geocode_never_raises sample_not_found "RUA A" "geoapify")
      as (H & _).
    apply (H (Response 404 (Ok VNone))); [reflexivity|]. simpl. lia.
  - destruct (fetch_geocode_never_raises sample_down "RUA A" "geoapify")
      as (_ & H & _).
    apply H. reflexivity.
  - destruct (fetch_geocode_never_raises sample_garbled "RUA A" "google")
      as (_ & _ & H & _).
    apply (H (Response 200 (Raise (Exception "JSONDecodeError")))); reflexivity.
Defined.

Lemma sample_df_read_csv : read_csv_frame sample_df.
Proof.
  split; [|split].
  - decide_by_computation.
  - reflexivity.
  - repeat constructor.
Defined.

Lemma sample_one_read_csv : read_csv_frame sample_one.
Proof.
  split; [|split].
  - decide_by_computation.
  - reflexivity.
  - repeat constructor.
Defined.

Lemma sample_two_features_pairs :
  geocode_result sample_two_features
    [(VInt (-51), VInt (-25)); (VInt (-52), VInt (-26))].
Proof.
  do 2 eexists. split; [reflexivity|]. split; [reflexivity|].
  repeat constructor; do 2 eexists; repeat split; reflexivity.
Defined.

Lemma sample_reprojects :
  reprojects sample_transform sample_format
    [(VInt (-51), VInt (-25)); (VInt (-52), VInt (-26))]
    ["POINT(499949 9999975)"; "POINT(499948 9999974)"].
Proof. repeat constructor. Defined.

(** X18 on the lookup of the first record of [sample_df], which returns two
    pairs. *)
Lemma pairs_update_and_clone_witness :
  geocode_result sample_two_features
    [(VInt (-51), VInt (-25)); (VInt (-52), VInt (-26))] ∧
  reprojects sample_transform sample_format
    [(VInt (-51), VInt (-25)); (VInt (-52), VInt (-26))]
    ["POINT(499949 9999975)"; "POINT(499948 9999974)"] ∧
  process_completed sample_transform sample_format (State [] [] [])
    (sample_job, sample_two_features) =
    State [(0, "POINT(499949 9999975)")]
          [clone sample_row_0 "POINT(499948 9999974)"] [] ∧
  cell_of (merge sample_df
             (reconcile sample_transform sample_format
                [(sample_job, sample_two_features)]))
          0 "the_geom" = Some (CStr "POINT(499949 9999975)") ∧
  ∃ pos, 2 ≤ pos ∧
    cell_of (merge sample_df
               (reconcile sample_transform sample_format
                  [(sample_job, sample_two_features)]))
            (pos + 0) "the_geom" = Some (CStr "POINT(499948 9999974)") ∧
    cell_of (merge sample_df
               (reconcile sample_transform sample_format
                  [(sample_job, sample_two_features)]))
            (pos + 0) "Index" = Some (CFloat (float_of_Z 0)).
Proof.
  split; [exact sample_two_features_pairs|]. split; [exact sample_reprojects|].
  destruct (pairs_update_and_clone sample_transform sample_format sample_unicode
              (State [] [] []) 0 sample_row_0 "RUA A, 10  PARANA PARANA"
              sample_two_features _ _ _ _
              sample_two_features_pairs sample_reprojects)
    as (Hstep & _ & _ & Hdf).
  split; [exact Hstep|].
  destruct (Hdf sample_df [sample_job] [] [] sample_df_read_csv eq_refl)
    as (Hgeom & _ & _ & pos & Hpos & Hclone).
  - intros j Hj. exact Hj.
  - decide_by_computation.
  - split; [exact Hgeom|]. exists pos. split; [exact Hpos|].
    destruct (Hclone 0 "POINT(499948 9999974)" eq_refl)
      as (Hg & _ & y & Hy & _ & Hfloat).
    split; [exact Hg|].
    rewrite (Hfloat ltac:(decide_by_computation)) in Hy. exact Hy.
Defined.

(** C2 on the table of one record. *)
Lemma geometry_is_projected_point_witness :
  sample_transform (VFloat (-51.0)) (VFloat (-25.5)) =
    Ok (VFloat (-51.0 + 500000), VFloat (-25.5 + 10000000)) ∧
  main sample_transform sample_format sample_unicode
       (sample_get sample_one_feature) "geoapify" id sample_one =
    Ok (Frame ["endereco"; "the_geom"] [0]
              [[CStr "RUA A, 10 - PARANA"; CStr "POINT(? ?)"]], []).
Proof.
  split; [reflexivity|].
  destruct (geometry_is_projected_point sample_transform sample_format sample_unicode)
    as (_ & _ & H).
  destruct (H sample_one [CStr "RUA A, 10 - PARANA"; nan_cell] nan_cell
              (sample_get sample_one_feature) id sample_one_feature
              (VFloat (-51.0 + 500000)) (VFloat (-25.5 + 10000000))
              sample_one_read_csv eq_refl eq_refl eq_refl eq_refl
              (λ j, eq_refl) eq_refl) as [Hmain _].
  - do 2 eexists. split; [reflexivity|]. split; [reflexivity|].
    repeat constructor; do 2 eexists; repeat split; reflexivity.
  - reflexivity.
  - exact Hmain.
Defined.

(** X17 on the second record of [sample_df], which has a geometry. *)
Lemma geometry_kept_witness :
  read_csv_frame sample_df ∧
  rows_to_process sample_unicode sample_df = Ok [sample_job] ∧
  pd_isna (CStr "POINT(1 2)") = false ∧
  (1 ∉ map row_idx_of [sample_job]) ∧
  cell_of (merge sample_df
             (reconcile sample_transform sample_format
                [(sample_job, sample_two_features)]))
          1 "the_geom" = Some (CStr "POINT(1 2)").
Proof.
  split; [exact sample_df_read_csv|]. split; [reflexivity|]. split; [reflexivity|].
  destruct (geometry_kept sample_transform sample_format sample_unicode
              sample_df [sample_job] 1 sample_row_1 (CStr "POINT(1 2)")
              sample_df_read_csv eq_refl eq_refl eq_refl eq_refl)
    as [Hjob Hrun].
  split; [exact Hjob|].
  destruct (Hrun [(sample_job, sample_two_features)]) as (_ & Hgeom & _).
  - intros j Hj. exact Hj.
  - exact Hgeom.
Defined.

(** C4 on a lookup of the first record of [sample_df] that returns [None]. *)
Lemma empty_result_changes_nothing_witness :
  empty_result VNone ∧
  process_completed sample_transform sample_format (State [] [] [])
    (sample_job, VNone) = State [] [] [] ∧
  ∃ g, cell_of sample_df 0 "the_geom" = Some g ∧
       cell_of (merge sample_df
                  (reconcile sample_transform sample_format [(sample_job, VNone)]))
               0 "the_geom" = Some g ∧ pd_isna g = true.
Proof.
  assert (empty_result VNone) as Hempty by (left; reflexivity).
  split; [exact Hempty|].
  destruct (empty_result_changes_nothing sample_transform sample_format sample_unicode
              (State [] [] []) sample_job VNone Hempty) as (Hstep & _ & _ & Hdf).
  split; [exact Hstep|].
  destruct (Hdf sample_df [sample_job] [(sample_job, VNone)]
              sample_df_read_csv eq_refl) as [Hgeom _].
  - intros j Hj. exact Hj.
  - decide_by_computation.
  - left.
  - exact Hgeom.
Defined.

(** C6 on a response whose second feature has no geometry. *)
Lemma malformed_bodies_are_contained_witness :
  raises_at sample_transform sample_format (VDict []) AttributeError ∧
  process_completed sample_transform sample_format (State [] [] [])
    (sample_job, sample_malformed) =
    State [(0, "POINT(499949 9999975)")] []
          [Error_processing "RUA A, 10  PARANA PARANA" AttributeError].
Proof.
  destruct (malformed_bodies_are_contained sample_transform sample_format)
    as (_ & _ & _ & _ & Hraise & H & _).
  assert (raises_at sample_transform sample_format (VDict []) AttributeError)
    as Hbad by (apply Hraise; reflexivity).
  split; [exact Hbad|].
  apply (H (State [] [] []) sample_job
           [("features", VList [sample_feature (VInt (-51)) (VInt (-25)); VDict []])]
           [sample_feature (VInt (-51)) (VInt (-25))] (VDict []) []
           (VInt (-51), VInt (-25)) [] "POINT(499949 9999975)" [] AttributeError).
  - reflexivity.
  - repeat constructor; do 2 eexists; repeat split; reflexivity.
  - repeat constructor.
  - exact Hbad.
Defined.

(** C8 on [sample_df]. *)
Lemma one_query_per_missing_geometry_witness :
  rows_to_process sample_unicode sample_df = Ok [sample_job] ∧
  NoDup (map row_idx_of [sample_job]) ∧
  ∃ s, getattr sample_row_0 "endereco" = Ok (CStr s) ∧
       (0, sample_row_0, replace (replace s "-" "") "P/" "" +:+ " PARANA")
         ∈ [sample_job] ∧
       ∀ j, j ∈ [sample_job] → row_idx_of j = 0 →
            j = (0, sample_row_0, replace (replace s "-" "") "P/" "" +:+ " PARANA").
Proof.
  split; [reflexivity|].
  exact (proj2 (proj2 (one_query_per_missing_geometry sample_transform sample_format
                         sample_unicode sample_df))
           [sample_job] 0 sample_row_0 nan_cell eq_refl eq_refl eq_refl).
Defined.

(** C9 on [sample_df] and a lookup that returns two pairs. *)
Lemma clone_carries_Index_witness :
  read_csv_frame sample_df ∧
  dict_lookup "Index" (clone sample_row_0 "POINT(499948 9999974)") = Some (CInt 0) ∧
  ("Index" ∉ columns sample_df) ∧
  "Index" ∈ columns (merge sample_df
                       (reconcile sample_transform sample_format
                          [(sample_job, sample_two_features)])) ∧
  cell_of (merge sample_df
             (reconcile sample_transform sample_format
                [(sample_job, sample_two_features)])) 1 "Index" = Some nan_cell ∧
  ∃ l, l < 2 ∧
       cell_of (merge sample_df
                  (reconcile sample_transform sample_format
                     [(sample_job, sample_two_features)])) 2 "Index" =
         Some (CFloat (float_of_Z (Z.of_nat l))).
Proof.
  split; [exact sample_df_read_csv|].
  destruct (clone_carries_Index sample_transform sample_format sample_unicode
              sample_df sample_df_read_csv) as [Hclone Hcolumn].
  split.
  { exact (proj1 (Hclone 0 sample_row_0 (VList [VInt (-52); VInt (-26)])
                    (clone sample_row_0 "POINT(499948 9999974)") eq_refl eq_refl)). }
  assert ("Index" ∉ columns sample_df) as Hno
    by decide_by_computation.
  split; [exact Hno|].
  destruct (Hcolumn [sample_job] [(sample_job, sample_two_features)] sample_job
              sample_two_features (VInt (-51), VInt (-25)) (VInt (-52), VInt (-26)) []
              ["POINT(499949 9999975)"; "POINT(499948 9999974)"] eq_refl)
    as (_ & _ & Hnan & Hindex).
  - intros j Hj. exact Hj.
  - left.
  - exact sample_two_features_pairs.
  - exact sample_reprojects.
  - destruct (Hindex Hno) as [Hin Hcell].
    split; [exact Hin|]. split.
    + apply Hnan; [exact Hin|exact Hno|]. cbn. lia.
    + apply Hcell. vm_compute. split; lia.
Defined.

(** X1 on the body with two results. *)
Lemma normalize_google_response_shape_witness :
  normalize_google_response sample_google = Ok sample_normalised ∧
  (sample_normalised = VNone ∨
   ∃ pairs, sample_normalised = VDict [("features", VList (map feature_of pairs))] ∧
            geocode_result sample_normalised pairs).
Proof.
  assert (normalize_google_response sample_google = Ok sample_normalised) as H
    by reflexivity.
  split; [exact H|].
  destruct (normalize_google_response_shape sample_transform sample_format
              sample_google sample_normalised H) as [Hn|(pairs & Hv & Hres & _)].
  - left. exact Hn.
  - right. exists pairs. split; [exact Hv|exact Hres].
Defined.

(** X2 on the same body. *)
Lemma normalize_google_response_located_witness :
  google_body sample_google sample_results ∧ sample_results ≠ [] ∧
  ∃ marks, Forall2 normalises_to sample_results marks ∧
           sample_normalised = VDict [("features", VList (map feature_of (omap id marks)))].
Proof.
  assert (google_body sample_google sample_results) as Hbody
    by (eexists; split; reflexivity).
  assert (sample_results ≠ []) as Hne by discriminate.
  split; [exact Hbody|]. split; [exact Hne|].
  apply (proj1 (normalize_google_response_located sample_google sample_results
                  sample_normalised Hbody Hne)).
  reflexivity.
Defined.

(** X3 on a table whose records all have a geometry, with the service down. *)
Lemma resolved_table_is_written_as_read_witness :
  Forall resolved (itertuples sample_unicode sample_resolved) ∧
  main sample_transform sample_format sample_unicode sample_down "geoapify" id
       sample_resolved = Ok (sample_resolved, []).
Proof.
  assert (Forall resolved (itertuples sample_unicode sample_resolved)) as Hres.
  { repeat constructor; eexists; split; reflexivity. }
  split; [exact Hres|].
  apply (resolved_table_is_written_as_read sample_transform sample_format sample_unicode
           sample_down "geoapify" id sample_resolved Hres).
  reflexivity.
Defined.

(** X4 on a record that lacks geometry and address. *)
Lemma run_stops_on_unworkable_row_witness :
  ¬ Forall workable (itertuples sample_unicode sample_no_address) ∧
  main sample_transform sample_format sample_unicode sample_down "geoapify" id
       sample_no_address = Raise AttributeError.
Proof.
  assert (¬ Forall workable (itertuples sample_unicode sample_no_address)) as Hno.
  { intros H. apply Forall_cons in H as [(g & Hg & Hs) _].
    vm_compute in Hg. injection Hg as <-.
    destruct (Hs eq_refl) as [s Hs']. vm_compute in Hs'. discriminate Hs'. }
  split; [exact Hno|].
  destruct (run_stops_on_unworkable_row sample_transform sample_format sample_unicode
              sample_down "geoapify" id sample_no_address) as (_ & _ & H).
  exact (H Hno).
Defined.

(** X5 on an address with neither a hyphen nor [P/]. *)
Lemma address_query_hyphens_witness :
  is_substring "-" "RUA A, 10" = false ∧ is_substring "P/" "RUA A, 10" = false ∧
  address_query "RUA A, 10" = "RUA A, 10 PARANA".
Proof.
  split; [reflexivity|]. split; [reflexivity|].
  exact (proj2 (address_query_hyphens "RUA A, 10") eq_refl eq_refl).
Defined.

(** X6 on the lookup of the first record of [sample_df]. *)
Lemma reconcile_gathers_witness :
  NoDup (map row_idx_of [(sample_job, sample_two_features)].*1) ∧
  reconcile sample_transform sample_format [(sample_job, sample_two_features)] =
    State [(0, "POINT(499949 9999975)")]
          [clone sample_row_0 "POINT(499948 9999974)"] [].
Proof.
  assert (NoDup (map row_idx_of [(sample_job, sample_two_features)].*1)) as Hnd
    by decide_by_computation.
  split; [exact Hnd|].
  destruct (reconcile_gathers sample_transform sample_format
              [(sample_job, sample_two_features)] Hnd) as [H _].
  exact H.
Defined.


Lemma sample_pending_read_csv : read_csv_frame sample_pending.
Proof.
  split; [|split].
  - decide_by_computation.
  - reflexivity.
  - repeat constructor.
Defined.

(** X7 on two records looked up, the lookups completing in the order of the
    records and in the opposite order. *)
Lemma completion_order_is_immaterial_witness :
  read_csv_frame sample_pending ∧
  (∀ jobs : list job, id jobs ≡ₚ jobs) ∧ (∀ jobs : list job, reverse jobs ≡ₚ jobs) ∧
  ∃ out1 lines1 out2 lines2,
    main sample_transform sample_format sample_unicode
         (sample_get sample_two_features) "geoapify" id sample_pending
      = Ok (out1, lines1) ∧
    main sample_transform sample_format sample_unicode
         (sample_get sample_two_features) "geoapify" reverse sample_pending
      = Ok (out2, lines2) ∧
    columns out1 = columns out2 ∧ index out1 = index out2 ∧
    take 2 (values out1) = take 2 (values out2) ∧
    drop 2 (values out1) ≡ₚ drop 2 (values out2) ∧
    lines1 ≡ₚ lines2.
Proof.
  assert (∀ jobs : list job, id jobs ≡ₚ jobs) as H1 by reflexivity.
  assert (∀ jobs : list job, reverse jobs ≡ₚ jobs) as H2
    by (intros jobs; apply reverse_Permutation).
  split; [exact sample_pending_read_csv|]. split; [exact H1|]. split; [exact H2|].
  do 4 eexists. split; [reflexivity|]. split; [reflexivity|].
  exact (completion_order_is_immaterial sample_transform sample_format sample_unicode
           (sample_get sample_two_features) "geoapify" id reverse sample_pending
           _ _ _ _ sample_pending_read_csv H1 H2 eq_refl eq_refl).
Defined.

(** X8 on a run with the service down. *)
Lemma one_line_per_lookup_witness :
  rows_to_process sample_unicode sample_df = Ok [sample_job] ∧
  id [sample_job] ≡ₚ [sample_job] ∧
  ∃ out lines,
    main sample_transform sample_format sample_unicode sample_down "geoapify" id
         sample_df = Ok (out, lines) ∧
    length lines ≤ 1.
Proof.
  assert (rows_to_process sample_unicode sample_df = Ok [sample_job]) as Hjobs
    by reflexivity.
  assert (id [sample_job] ≡ₚ [sample_job]) as Hs by reflexivity.
  split; [exact Hjobs|]. split; [exact Hs|].
  do 2 eexists. split; [reflexivity|].
  exact (proj1 (one_line_per_lookup sample_transform sample_format sample_unicode
                  sample_down "geoapify" id sample_df [sample_job] _ _
                  Hjobs Hs eq_refl)).
Defined.

(** X9 on a run that appends a row. *)
Lemma written_table_extends_read_table_witness :
  read_csv_frame sample_df ∧ (∀ (jobs : list job) j, j ∈ id jobs → j ∈ jobs) ∧
  ∃ out lines,
    main sample_transform sample_format sample_unicode
         (sample_get sample_two_features) "geoapify" id sample_df = Ok (out, lines) ∧
    read_csv_frame out ∧ columns sample_df `prefix_of` columns out ∧
    ∃ x y, cell_of sample_df 0 "inscricao" = Some x ∧
           cell_of out 0 "inscricao" = Some y ∧ widened x y.
Proof.
  assert (∀ (jobs : list job) j, j ∈ id jobs → j ∈ jobs) as Hs
    by (intros jobs j Hj; exact Hj).
  split; [exact sample_df_read_csv|]. split; [exact Hs|].
  do 2 eexists. split; [reflexivity|].
  destruct (written_table_extends_read_table sample_transform sample_format
              sample_unicode (sample_get sample_two_features) "geoapify" id sample_df
              _ _ sample_df_read_csv Hs eq_refl) as (Hout & Hpre & _ & Hcell).
  split; [exact Hout|]. split; [exact Hpre|].
  destruct (Hcell 0 "inscricao") as (x & y & Hx & Hy & Hw & _).
  - cbn. lia.
  - decide_by_computation.
  - discriminate.
  - exists x, y. split; [exact Hx|]. split; [exact Hy|exact Hw].
Defined.

(** X10 on an input in a directory. *)
Lemma output_path_in_output_dir_witness :
  is_substring "/" "google" = false ∧
  output_path "input/pontos.csv" "google" = "output/pontos.csv-google.csv".
Proof.
  split; [reflexivity|].
  destruct (output_path_in_output_dir "input/pontos.csv" "google")
    as (name & Hpath & _ & Hname).
  destruct (Hname eq_refl) as (-> & _). exact Hpath.
Defined.

(** X16 on the file written for that input. *)
Lemma map_script_reads_written_file_witness :
  is_substring "/" "google" = false ∧
  map_input default_settings ≠ output_path "input/pontos.csv" "google".
Proof.
  split; [reflexivity|].
  exact (proj2 (map_script_reads_written_file (λ _, None) "input/pontos.csv" "google"
                  (default_settings, [])) eq_refl).
Defined.

(** X11 on a geometry printed with digits only. *)
Lemma geometry_read_back_witness :
  sample_transform (VInt (-51)) (VInt (-25)) = Ok (VInt 499949, VInt 9999975) ∧
  convert_lat_lon_to_UTM sample_transform sample_format (VInt (-25)) (VInt (-51)) =
    Ok "POINT(499949 9999975)" ∧
  ascii_string (sample_format (VInt 499949)) ∧
  ascii_string (sample_format (VInt 9999975)) ∧
  plain_number (sample_format (VInt 499949)) ∧
  plain_number (sample_format (VInt 9999975)) ∧
  extract_x "POINT(499949 9999975)" = Some (sample_format (VInt 499949)) ∧
  extract_y "POINT(499949 9999975)" = Some (sample_format (VInt 9999975)).
Proof.
  assert (plain_number (sample_format (VInt 499949))) as Hx
    by (split; [vm_compute; discriminate|reflexivity]).
  assert (plain_number (sample_format (VInt 9999975))) as Hy
    by (split; [vm_compute; discriminate|reflexivity]).
  split; [reflexivity|]. split; [reflexivity|].
  split; [reflexivity|]. split; [reflexivity|]. split; [exact Hx|]. split; [exact Hy|].
  exact (proj1 (geometry_read_back sample_transform sample_format
                  (VInt (-25)) (VInt (-51)) (VInt 499949) (VInt 9999975)
                  "POINT(499949 9999975)" eq_refl eq_refl eq_refl eq_refl) Hx Hy).
Defined.

(** X12 on a body whose second feature is an empty dict. *)
Lemma test_geoapify_predicts_loop_witness :
  sample_get sample_malformed (geocode_url "RUA A" "geoapify") =
    Ok (Response 200 (Ok sample_malformed)) ∧
  Feature_has_no_coordinates 1 ∈ test_geoapify_api (sample_get sample_malformed) "RUA A" ∧
  ∃ features f e,
    (fs ← py_get sample_malformed "features" (VList []); py_iter fs) = Ok features ∧
    features !! 1 = Some f ∧ raises_at sample_transform sample_format f e.
Proof.
  assert (Feature_has_no_coordinates 1
            ∈ test_geoapify_api (sample_get sample_malformed) "RUA A") as Hin.
  { vm_compute. do 4 apply list_elem_of_further. apply list_elem_of_here. }
  split; [reflexivity|]. split; [exact Hin|].
  destruct (test_geoapify_predicts_loop sample_transform sample_format
              (sample_get sample_malformed) "RUA A"
              (Response 200 (Ok sample_malformed)) sample_malformed
              eq_refl eq_refl eq_refl) as (_ & _ & H & _).
  exact (H 1 Hin).
Defined.

(** X13 on the body with two results. *)
Lemma test_google_predicts_client_witness :
  sample_get sample_google (geocode_url "RUA A" "google") =
    Ok (Response 200 (Ok sample_google)) ∧
  (∀ e, Exception_line e ∉ test_google_api (sample_get sample_google) "RUA A") ∧
  ((No_results_found_in_response ∈ test_google_api (sample_get sample_google) "RUA A" ∧
    fetch_geocode (sample_get sample_google) "RUA A" "google" = (VNone, [])) ∨
   fetch_geocode (sample_get sample_google) "RUA A" "google" =
     (VDict [("features",
              VList (map feature_of
                       (located (test_google_api (sample_get sample_google) "RUA A"))))],
      [])).
Proof.
  assert (∀ e, Exception_line e ∉ test_google_api (sample_get sample_google) "RUA A")
    as Hno.
  { intros e H. vm_compute in H.
    repeat (apply elem_of_cons in H as [H|H]; [discriminate H|]).
    by apply elem_of_nil in H. }
  split; [reflexivity|]. split; [exact Hno|].
  exact (proj1 (test_google_predicts_client (sample_get sample_google) "RUA A"
                  (Response 200 (Ok sample_google)) sample_google
                  eq_refl eq_refl eq_refl) Hno).
Defined.


(** X14 on a run whose one lookup returns two pairs. *)
Lemma second_run_looks_nothing_up_witness :
  read_csv_frame sample_df ∧
  rows_to_process sample_unicode sample_df = Ok [sample_job] ∧
  id [sample_job] ≡ₚ [sample_job] ∧
  (∀ j, j ∈ [sample_job] →
     ∃ p pairs utm utms,
       geocode_result
         (fetch_geocode (sample_get sample_two_features) j.2 "geoapify").1 (p :: pairs) ∧
       reprojects sample_transform sample_format (p :: pairs) (utm :: utms)) ∧
  ∃ out lines,
    main sample_transform sample_format sample_unicode
         (sample_get sample_two_features) "geoapify" id sample_df = Ok (out, lines) ∧
    rows_to_process sample_unicode out = Ok [].
Proof.
  assert (rows_to_process sample_unicode sample_df = Ok [sample_job]) as Hjobs
    by reflexivity.
  assert (id [sample_job] ≡ₚ [sample_job]) as Hs by reflexivity.
  assert (∀ j, j ∈ [sample_job] →
     ∃ p pairs utm utms,
       geocode_result
         (fetch_geocode (sample_get sample_two_features) j.2 "geoapify").1 (p :: pairs) ∧
       reprojects sample_transform sample_format (p :: pairs) (utm :: utms)) as Hall.
  { intros j Hj. apply list_elem_of_singleton in Hj. rewrite Hj.
    do 4 eexists. split; [exact sample_two_features_pairs|exact sample_reprojects]. }
  split; [exact sample_df_read_csv|]. split; [exact Hjobs|]. split; [exact Hs|].
  split; [exact Hall|].
  do 2 eexists. split; [reflexivity|].
  destruct (second_run_looks_nothing_up sample_transform sample_format sample_unicode
              (sample_get sample_two_features) "geoapify" id sample_df [sample_job]
              _ _ sample_df_read_csv Hjobs Hs Hall eq_refl) as (_ & H & _).
  exact H.
Defined.


(** *** Where the claims fail *)

(** C1. The row appended for a further pair is no copy of the record that
    differs from it in the geometry only. On [sample_df], where the lookup
    of the first record returns two pairs, the appended row holds the label
    of the record under the column [Index], which [row._asdict()] brought,
    while the record holds NaN there. On [sample_renamed], whose first
    column is a field of the named tuple under the name [_1], the appended
    row holds NaN under [my col] and the value of the record under [_1],
    where the record holds NaN; and the integer of the record is written as
    a float. *)
Lemma clone_differs_from_record :
  main sample_transform sample_format sample_unicode
       (sample_get sample_two_features) "geoapify" id sample_df =
    Ok (Frame ["inscricao"; "endereco"; "the_geom"; "Index"] [0; 1; 2]
              [[CInt 7; CStr "RUA A, 10 - PARANA"; CStr "POINT(499949 9999975)"; nan_cell];
               [CInt 8; CStr "RUA B, 20"; CStr "POINT(1 2)"; nan_cell];
               [CInt 7; CStr "RUA A, 10 - PARANA"; CStr "POINT(499948 9999974)";
                CFloat 0]],
        []) ∧
  itertuples sample_unicode sample_renamed = [sample_renamed_row] ∧
  clone sample_renamed_row "POINT(499948 9999974)" =
    [("Index", CInt 0); ("_1", CInt 3); ("endereco", CStr "RUA A");
     ("the_geom", CStr "POINT(499948 9999974)")] ∧
  main sample_transform sample_format sample_unicode
       (sample_get sample_two_features) "geoapify" id sample_renamed =
    Ok (Frame ["my col"; "endereco"; "the_geom"; "Index"; "_1"] [0; 1]
              [[CFloat 3; CStr "RUA A"; CStr "POINT(499949 9999975)"; nan_cell; nan_cell];
               [nan_cell; CStr "RUA A"; CStr "POINT(499948 9999974)";
                CFloat 0; CFloat 3]],
        []).
Proof. repeat split; vm_compute; reflexivity. Qed.

(** C3. A record with a geometry is not written as it was read when another
    lookup returns two pairs: the second record of [sample_df] has a
    geometry, and the lookup of the first record returns two pairs. The row
    appended brings the column [Index], and the record with the geometry is
    written with one cell more than it was read with, NaN under [Index]. *)
Lemma geometry_row_gains_cell :
  main sample_transform sample_format sample_unicode
       (sample_get sample_two_features) "geoapify" id sample_df =
    Ok (Frame ["inscricao"; "endereco"; "the_geom"; "Index"] [0; 1; 2]
              [[CInt 7; CStr "RUA A, 10 - PARANA"; CStr "POINT(499949 9999975)"; nan_cell];
               [CInt 8; CStr "RUA B, 20"; CStr "POINT(1 2)"; nan_cell];
               [CInt 7; CStr "RUA A, 10 - PARANA"; CStr "POINT(499948 9999974)";
                CFloat 0]],
        []) ∧
  values sample_df !! 1 = Some [CInt 8; CStr "RUA B, 20"; CStr "POINT(1 2)"] ∧
  values (merge sample_df
            (reconcile sample_transform sample_format
               [(sample_job, sample_two_features)])) !! 1 =
    Some [CInt 8; CStr "RUA B, 20"; CStr "POINT(1 2)"; nan_cell] ∧
  values (merge sample_df
            (reconcile sample_transform sample_format
               [(sample_job, sample_two_features)])) !! 1 ≠
  values sample_df !! 1.
Proof.
  split; [vm_compute; reflexivity|]. split; [reflexivity|].
  split; [vm_compute; reflexivity|].
  vm_compute. intros H. discriminate H.
Qed.

(** C9 as stated fails: the dict returned for the record of
    [sample_renamed] has no key for the column [my col] of the row, whose
    value it holds under [_1]. *)
Lemma renamed_column_is_no_key :
  read_csv_frame sample_renamed ∧
  itertuples sample_unicode sample_renamed !! 0 = Some sample_renamed_row ∧
  duplicate_row_with_new_UTM sample_transform sample_format sample_renamed_row
      (VList [VInt (-52); VInt (-26)]) =
    Ok [("Index", CInt 0); ("_1", CInt 3); ("endereco", CStr "RUA A");
        ("the_geom", CStr "POINT(499948 9999974)")] ∧
  "my col" ∈ columns sample_renamed ∧
  dict_lookup "my col"
    [("Index", CInt 0); ("_1", CInt 3); ("endereco", CStr "RUA A");
     ("the_geom", CStr "POINT(499948 9999974)")] = None.
Proof.
  split.
  { split; [|split].
    - decide_by_computation.
    - reflexivity.
    - repeat constructor. }
  split; [reflexivity|]. split; [reflexivity|]. split; [|reflexivity].
  left.
Qed.

(** C6 as stated fails: with provider A a feature without geometry is not
    turned into an empty sequence and does raise in the loop. The client
    returns the body as it is, the first pair is written, and the loop
    prints the exception it caught. *)
Lemma malformed_feature_reaches_loop :
  fetch_geocode (sample_get sample_malformed) "RUA A, 10  PARANA PARANA" "geoapify" =
    (sample_malformed, []) ∧
  process_completed sample_transform sample_format (State [] [] [])
    (sample_job, sample_malformed) =
    State [(0, "POINT(499949 9999975)")] []
          [Error_processing "RUA A, 10  PARANA PARANA" AttributeError] ∧
  process_completed sample_transform sample_format (State [] [] [])
    (sample_job, sample_malformed) ≠
  process_completed sample_transform sample_format (State [] [] [])
    (sample_job, VDict [("features", VList [])]).
Proof.
  split; [reflexivity|]. split; [reflexivity|].
  vm_compute. intros H. discriminate H.
Qed.

(** C8 as stated fails: the query of the address [RUA A, 10 - PARANA] keeps
    its comma, so it is not the address with its punctuation stripped; and
    [P/] takes a letter away with the slash. *)
Lemma query_keeps_punctuation :
  rows_to_process sample_unicode sample_one =
    Ok [(0, [("Index", CInt 0); ("endereco", CStr "RUA A, 10 - PARANA");
             ("the_geom", nan_cell)],
         "RUA A, 10  PARANA PARANA")] ∧
  spec_address_query "RUA A, 10 - PARANA" = "RUA A 10  PARANA PARANA" ∧
  address_query "RUA A, 10 - PARANA" ≠ spec_address_query "RUA A, 10 - PARANA" ∧
  address_query "LOTE AP/ 5" = "LOTE A 5 PARANA".
Proof.
  split; [reflexivity|]. split; [reflexivity|]. split; [|reflexivity].
  vm_compute. intros H. discriminate H.
Qed.
